(** * Beetle RAG backend: chunking agent and evaluation utilities

    A shallow embedding of
    - [src/ai/agents/core/chunking_agent.py] (class [ChunkingAgent]) and
    - [src/ai/utils/evaluation_utils.py] (class [EvaluationUtils]),
    together with the properties of the chunker and of the evaluator that
    the specification states.

    Conventions of the embedding.
    - A Python [str] is a [string]; its characters are the 256 code points
      of Latin-1, and the character classes ([str.isspace], [\s], [\w],
      [str.lower]) are Python's for those code points.
    - A Python [float] is a real number; [round(x, 4)] is rounding to the
      nearest multiple of [1/10000], ties to the even multiple.
    - A [dict] with string keys is a [gmap string _], a [set] is a [gset].
    - A raised exception is the [Raise] result of a small error monad;
      [ChunkingAgent.process] turns it into a failed [AgentResult]. *)

From Stdlib Require Import Reals Lra Lia ZArith String Ascii List.
From stdpp Require Import gmap strings list.

#[local] Open Scope string_scope.
#[local] Open Scope list_scope.

(** * Python string primitives *)

Module PyStr.

Definition code (c : ascii) : nat := nat_of_ascii c.

(** [str.isspace] on one character; also the class [\s] of [re]. *)
Definition is_space (c : ascii) : bool :=
  let n := code c in
  (((9 <=? n) && (n <=? 13)) || ((28 <=? n) && (n <=? 32))
   || (n =? 133) || (n =? 160))%nat.

(** The class [\w] of [re] on a [str] pattern: alphanumeric or underscore. *)
Definition is_word (c : ascii) : bool :=
  let n := code c in
  (((48 <=? n) && (n <=? 57)) || ((65 <=? n) && (n <=? 90))
   || (n =? 95) || ((97 <=? n) && (n <=? 122))
   || (n =? 170) || (n =? 178) || (n =? 179) || (n =? 181)
   || (n =? 185) || (n =? 186) || ((188 <=? n) && (n <=? 190))
   || ((192 <=? n) && (n <=? 214)) || ((216 <=? n) && (n <=? 246))
   || (248 <=? n))%nat.

Definition lower_char (c : ascii) : ascii :=
  let n := code c in
  if (((65 <=? n) && (n <=? 90))
      || ((192 <=? n) && (n <=? 222) && negb (n =? 215)))%nat
  then ascii_of_nat (n + 32) else c.

(** [s.lower()] *)
Fixpoint lower (s : string) : string :=
  match s with
  | EmptyString => EmptyString
  | String c s' => String (lower_char c) (lower s')
  end.

Definition is_empty (s : string) : bool :=
  match s with EmptyString => true | String _ _ => false end.

(** Does [s] start with a character that is not white space? *)
Definition starts_word (s : string) : bool :=
  match s with
  | EmptyString => false
  | String c _ => negb (is_space c)
  end.

(** Put [c] in front of the first piece of [l]. *)
Definition cons_first (c : ascii) (l : list string) : list string :=
  match l with
  | [] => [String c EmptyString]
  | w :: ws => String c w :: ws
  end.

(** [s.split()]: the maximal runs of characters that are not white space. *)
Fixpoint split (s : string) : list string :=
  match s with
  | EmptyString => []
  | String c s' =>
      if is_space c then split s'
      else if starts_word s' then cons_first c (split s')
      else String c EmptyString :: split s'
  end.

(** [s.split(sep)] for a separator of one character. *)
Fixpoint split_on (sep : ascii) (s : string) : list string :=
  match s with
  | EmptyString => [EmptyString]
  | String c s' =>
      if Ascii.eqb c sep then EmptyString :: split_on sep s'
      else cons_first c (split_on sep s')
  end.

(** [sep.join(l)] *)
Fixpoint join (sep : string) (l : list string) : string :=
  match l with
  | [] => EmptyString
  | [w] => w
  | w :: ws => w +:+ sep +:+ join sep ws
  end.

Fixpoint lstrip (s : string) : string :=
  match s with
  | EmptyString => EmptyString
  | String c s' => if is_space c then lstrip s' else s
  end.

Fixpoint rstrip (s : string) : string :=
  match s with
  | EmptyString => EmptyString
  | String c s' =>
      let r := rstrip s' in
      if is_space c && is_empty r then EmptyString else String c r
  end.

(** [s.strip()] *)
Definition strip (s : string) : string := rstrip (lstrip s).

(** [len(s.split())], the token count used throughout the chunker. *)
Definition word_count (s : string) : nat := length (split s).

(** A token: not empty, no white space inside. *)
Fixpoint no_space (s : string) : bool :=
  match s with
  | EmptyString => true
  | String c s' => negb (is_space c) && no_space s'
  end.

Definition is_token (w : string) : bool := negb (is_empty w) && no_space w.

End PyStr.

(** * Regular expressions, as far as the chunker's detectors use them

    The detectors only ask whether a pattern matches ([re.search],
    [re.match] used as a condition), so a pattern is modelled by the
    language it denotes and matched with Brzozowski derivatives. *)

Module Regex.

Inductive regex : Type :=
| Void : regex
| Eps : regex
| Chr : (ascii -> bool) -> regex
| Cat : regex -> regex -> regex
| Alt : regex -> regex -> regex
| Star : regex -> regex.

Fixpoint nullable (r : regex) : bool :=
  match r with
  | Void => false
  | Eps => true
  | Chr _ => false
  | Cat r1 r2 => nullable r1 && nullable r2
  | Alt r1 r2 => nullable r1 || nullable r2
  | Star _ => true
  end.

Definition cat (r1 r2 : regex) : regex :=
  match r1, r2 with
  | Void, _ => Void
  | _, Void => Void
  | Eps, _ => r2
  | _, Eps => r1
  | _, _ => Cat r1 r2
  end.

Definition alt (r1 r2 : regex) : regex :=
  match r1, r2 with
  | Void, _ => r2
  | _, Void => r1
  | _, _ => Alt r1 r2
  end.

Fixpoint deriv (c : ascii) (r : regex) : regex :=
  match r with
  | Void => Void
  | Eps => Void
  | Chr p => if p c then Eps else Void
  | Cat r1 r2 =>
      alt (cat (deriv c r1) r2) (if nullable r1 then deriv c r2 else Void)
  | Alt r1 r2 => alt (deriv c r1) (deriv c r2)
  | Star r1 => cat (deriv c r1) (Star r1)
  end.

(** The whole of [s] is in the language of [r]. *)
Fixpoint matches (r : regex) (s : string) : bool :=
  match s with
  | EmptyString => nullable r
  | String c s' => matches (deriv c r) s'
  end.

(** Some prefix of [s] is in the language of [r]: [re.match(r, s)] as a
    condition. *)
Fixpoint re_match (r : regex) (s : string) : bool :=
  nullable r ||
  match s with
  | EmptyString => false
  | String c s' => re_match (deriv c r) s'
  end.

(** Some substring of [s] is in the language of [r]: [re.search(r, s)] as
    a condition. *)
Fixpoint re_search (r : regex) (s : string) : bool :=
  re_match r s ||
  match s with
  | EmptyString => false
  | String _ s' => re_search r s'
  end.

(** ** Pattern syntax *)

Definition chr (c : ascii) : regex := Chr (Ascii.eqb c).
Definition any : regex := Chr (fun _ => true).
Definition newline : ascii := ascii_of_nat 10.
(** [.] without [re.DOTALL] *)
Definition dot : regex := Chr (fun c => negb (Ascii.eqb c newline)).
(** [\s] and [\w] *)
Definition ws : regex := Chr PyStr.is_space.
Definition wd : regex := Chr PyStr.is_word.
Definition plus (r : regex) : regex := Cat r (Star r).
Definition opt (r : regex) : regex := Alt Eps r.

Fixpoint lit (s : string) : regex :=
  match s with
  | EmptyString => Eps
  | String c EmptyString => chr c
  | String c s' => Cat (chr c) (lit s')
  end.

Fixpoint seq_re (l : list regex) : regex :=
  match l with
  | [] => Eps
  | [r] => r
  | r :: l' => Cat r (seq_re l')
  end.

(** [r{1,n+1}] *)
Fixpoint upto (n : nat) (r : regex) : regex :=
  match n with
  | O => r
  | S n' => Cat r (opt (upto n' r))
  end.

(** [$] without [re.MULTILINE], at the end of a pattern: the end of the
    string, or just before a newline that ends the string. *)
Definition dollar : regex := opt (chr newline).

(** [re.match] of a pattern that ends in [$]. *)
Definition re_match_dollar (r : regex) (s : string) : bool :=
  matches (Cat r dollar) s.

End Regex.

(** * Python list primitives *)

Module PyList.

(** A slice bound, clamped as Python does: a negative bound counts from
    the end. *)
Definition clamp (len : nat) (k : Z) : nat :=
  if (k <? 0)%Z then Z.to_nat (Z.of_nat len + k)
  else Nat.min (Z.to_nat k) len.

(** [l[i:j]] *)
Definition slice {A} (l : list A) (i j : Z) : list A :=
  let a := clamp (length l) i in
  let b := clamp (length l) j in
  take (b - a) (drop a l).

(** [l[:j]] and [l[i:]] *)
Definition slice_to {A} (l : list A) (j : Z) : list A :=
  slice l 0 j.
Definition slice_from {A} (l : list A) (i : Z) : list A :=
  slice l i (Z.of_nat (length l)).

(** [len(range(start, stop, step))] for [step <> 0] *)
Definition range_len (start stop step : Z) : nat :=
  if (0 <? step)%Z
  then Z.to_nat ((stop - start + step - 1) / step)
  else Z.to_nat ((start - stop - step - 1) / (- step)).

(** [range(start, stop, step)]; [None] is the [ValueError] that a zero
    step raises. *)
Definition range (start stop step : Z) : option (list Z) :=
  if (step =? 0)%Z then None
  else Some (map (fun k => (start + Z.of_nat k * step)%Z)
                 (seq 0 (range_len start stop step))).

End PyList.

(** * The chunking agent ([chunking_agent.py]) *)

Module Chunking.
Import PyStr PyList Regex.

(** Values of a metadata dictionary ([Dict[str, Any]]). *)
Inductive value : Type :=
| VNone : value
| VBool : bool -> value
| VInt : Z -> value
| VStr : string -> value.

(** [ChunkedDocument] of [models/rag_models.py]; the two time stamps are
    left out. *)
Record ChunkedDocument : Type := {
  id : string;
  document_id : string;
  content : string;
  chunk_index : Z;
  chunk_type : string;
  language : option string;
  metadata : gmap string value;
  start_line : option Z;
  end_line : option Z;
  token_count : Z
}.

Inductive ChunkingStrategy : Type :=
| FIXED_SIZE | SEMANTIC | CODE_AWARE | HYBRID.

Definition strategy_value (s : ChunkingStrategy) : string :=
  match s with
  | FIXED_SIZE => "fixed_size"
  | SEMANTIC => "semantic"
  | CODE_AWARE => "code_aware"
  | HYBRID => "hybrid"
  end.

Record ChunkingAgentConfig : Type := {
  chunk_size : Z;
  chunk_overlap : Z;
  chunking_strategy : ChunkingStrategy;
  preserve_code_blocks : bool;
  preserve_markdown_structure : bool;
  min_chunk_size : Z;
  max_chunk_size : Z;
  language_detection : bool;
  semantic_boundaries : bool
}.

(** The defaults of the class. *)
Definition default_config : ChunkingAgentConfig := {|
  chunk_size := 1000;
  chunk_overlap := 200;
  chunking_strategy := HYBRID;
  preserve_code_blocks := true;
  preserve_markdown_structure := true;
  min_chunk_size := 100;
  max_chunk_size := 2000;
  language_detection := true;
  semantic_boundaries := true
|}.

(** Exceptions that the chunker can raise. *)
Inductive exn : Type :=
| ValidationError : exn   (* pydantic: [document_id] is not a [str] *)
| ValueError : exn        (* [range] with a zero step *)
| OtherError : string -> exn.

Inductive result (A : Type) : Type :=
| Ok : A -> result A
| Raise : exn -> result A.
Arguments Ok {A} _.
Arguments Raise {A} _.

(** Computations that draw identifiers and may raise: the state is the
    number of identifiers drawn so far in this call of [process]. *)
Definition M (A : Type) : Type := nat -> result (A * nat).

Definition ret {A} (a : A) : M A := fun n => Ok (a, n).

Definition raise {A} (e : exn) : M A := fun _ => Raise e.

Definition bind {A B} (m : M A) (f : A -> M B) : M B :=
  fun n => match m n with
           | Ok (a, n') => f a n'
           | Raise e => Raise e
           end.

Notation "x <- m ;; k" := (bind m (fun x => k))
  (at level 100, m at next level, right associativity).

(** A [for] loop that threads its variables through the body. *)
Fixpoint foldM {A S} (f : S -> A -> M S) (l : list A) (s : S) : M S :=
  match l with
  | [] => ret s
  | x :: l' => s' <- f s x ;; foldM f l' s'
  end.

(** The fields of the [AgentResult] that [process] fills. *)
Record ProcessData : Type := {
  chunks : list ChunkedDocument;
  total_chunks : nat;
  content_type : string;
  data_language : option string;
  data_strategy : string;
  data_chunk_size : Z;
  data_chunk_overlap : Z
}.

(** [AgentResult]; an empty [data] dictionary is [None]. *)
Record AgentResult : Type := {
  success : bool;
  data : option ProcessData;
  error_message : option string
}.

(** The dictionary handed to [process]; [None] is an absent key. *)
Record InputData : Type := {
  in_document_id : option string;
  in_content : option string;
  in_source_type : option string;
  in_metadata : option (gmap string value)
}.

(** ** The detectors *)

Definition sp : regex := plus ws.
Definition sp0 : regex := Star ws.
Definition word : regex := plus wd.
Definition dquote : ascii := ascii_of_nat 34.
Definition squote : ascii := ascii_of_nat 39.

Definition code_patterns : list regex := [
  seq_re [lit "def"; sp; word; sp0; lit "("];
  seq_re [lit "class"; sp; word];
  seq_re [lit "import"; sp; word];
  seq_re [lit "from"; sp; word; sp; lit "import"];
  seq_re [lit "function"; sp; word];
  seq_re [lit "const"; sp; word];
  seq_re [lit "let"; sp; word];
  seq_re [lit "var"; sp; word];
  seq_re [lit "public"; sp; lit "class"];
  seq_re [lit "private"; sp; word];
  seq_re [lit "#include"; sp0; lit "<"];
  seq_re [lit "package"; sp; word]
].

(** [_is_code_content] *)
Definition _is_code_content (content : string) : bool :=
  existsb (fun pattern => re_search pattern content) code_patterns.

(** The patterns of [_is_markdown_content], each with the way [re.match]
    applies it: [true] when the pattern ends in [$]. *)
Definition markdown_patterns : list (regex * bool) := [
  (seq_re [lit "#"; sp], false);
  (seq_re [lit "**"; Star dot; lit "**"], true);
  (seq_re [lit "*"; Star dot; lit "*"], true);
  (lit "```", false);
  (seq_re [lit "["; Star dot; lit "]("; Star dot; lit ")"], false);
  (seq_re [lit ">"; sp], false);
  (seq_re [lit "|"; sp; Star dot; sp; lit "|"], false)
].

Definition match_pattern (p : regex * bool) (line : string) : bool :=
  if snd p then re_match_dollar (fst p) line else re_match (fst p) line.

Definition nl : ascii := newline.

(** [_is_markdown_content]; [markdown_lines > len(lines) * 0.1] compares
    an integer with a tenth of an integer. *)
Definition _is_markdown_content (content : string) : bool :=
  let lines := split_on nl content in
  let markdown_lines :=
    length (filter (fun line =>
              existsb (fun p => match_pattern p line) markdown_patterns = true)
              lines) in
  (length lines <? 10 * markdown_lines)%nat.

(** [_detect_content_type] *)
Definition _detect_content_type (content source_type : string) : string :=
  if String.eqb source_type "github" || String.eqb source_type "branch" then
    if _is_code_content content then "code"
    else if _is_markdown_content content then "markdown"
    else "text"
  else if String.eqb source_type "web" then
    if _is_markdown_content content then "markdown" else "text"
  else "text".

(** The table of [_detect_language], in the order of the dictionary. *)
Definition language_patterns : list (string * list regex) := [
  ("python", [
     seq_re [lit "def"; sp; word; sp0; lit "("];
     seq_re [lit "import"; sp; word];
     seq_re [lit "from"; sp; word; sp; lit "import"];
     seq_re [lit "class"; sp; word; Star dot; lit ":"];
     seq_re [lit "if"; sp; lit "__name__"; sp0; lit "=="; sp0;
             Alt (chr squote) (chr dquote); lit "__main__";
             Alt (chr squote) (chr dquote)]]);
  ("javascript", [
     seq_re [lit "function"; sp; word];
     seq_re [lit "const"; sp; word];
     seq_re [lit "let"; sp; word];
     seq_re [lit "var"; sp; word];
     lit "console.log";
     seq_re [lit "export"; sp; lit "default"]]);
  ("typescript", [
     seq_re [lit "interface"; sp; word];
     seq_re [lit "type"; sp; word];
     seq_re [lit ":"; sp0; word; lit "[]"];
     seq_re [lit "Promise<"; word; lit ">"]]);
  ("java", [
     seq_re [lit "public"; sp; lit "class"];
     seq_re [lit "private"; sp; word];
     seq_re [lit "public"; sp; lit "static"; sp; lit "void"; sp; lit "main"];
     seq_re [lit "import"; sp; lit "java."]]);
  ("cpp", [
     seq_re [lit "#include"; sp0; lit "<"];
     lit "std::";
     seq_re [lit "namespace"; sp; word];
     seq_re [lit "class"; sp; word; sp0; lit "{"]]);
  ("c", [
     seq_re [lit "#include"; sp0; lit "<"];
     seq_re [lit "int"; sp; lit "main"; sp0; lit "("];
     seq_re [lit "printf"; sp0; lit "("];
     seq_re [lit "struct"; sp; word]]);
  ("go", [
     seq_re [lit "package"; sp; word];
     seq_re [lit "func"; sp; word];
     seq_re [lit "import"; sp0; lit "("];
     lit "fmt."]);
  ("rust", [
     seq_re [lit "fn"; sp; word];
     seq_re [lit "use"; sp; word];
     seq_re [lit "pub"; sp; lit "fn"];
     seq_re [lit "let"; sp; lit "mut"; sp; word]])
].

(** The two nested loops of [_detect_language]: the first language, in
    the order of the table, one of whose patterns is found. *)
Fixpoint first_language (table : list (string * list regex))
    (content : string) : option string :=
  match table with
  | [] => None
  | (language, patterns) :: table' =>
      if existsb (fun pattern => re_search pattern content) patterns
      then Some language
      else first_language table' content
  end.

(** [_detect_language] *)
Definition _detect_language (content content_type : string) : option string :=
  if negb (String.eqb content_type "code") then None
  else first_language language_patterns content.

(** ** Splitting helpers of the text strategy *)

(** In the white space that [s] starts with, the position just after the
    last newline. *)
Fixpoint last_newline (s : string) : option nat :=
  match s with
  | EmptyString => None
  | String c s' =>
      if is_space c then
        match last_newline s' with
        | Some k => Some (S k)
        | None => if Ascii.eqb c nl then Some 1%nat else None
        end
      else None
  end.

(** [re.split(r'\n\s*\n', s)]: a separator starts at a newline and runs,
    through white space, up to the last newline of that white space;
    [skip] characters of a separator are still to be dropped. *)
Fixpoint split_blank (skip : nat) (s : string) : list string :=
  match s with
  | EmptyString => [EmptyString]
  | String c s' =>
      match skip with
      | S k => split_blank k s'
      | O =>
          if Ascii.eqb c nl then
            match last_newline s' with
            | Some k => EmptyString :: split_blank k s'
            | None => cons_first c (split_blank 0 s')
            end
          else cons_first c (split_blank 0 s')
      end
  end.

Definition is_sentence_end (c : ascii) : bool :=
  Ascii.eqb c "." || Ascii.eqb c "!" || Ascii.eqb c "?".

(** [re.split(r'[.!?]+', s)]; [in_run] holds inside a run of separators. *)
Fixpoint split_punct (in_run : bool) (s : string) : list string :=
  match s with
  | EmptyString => [EmptyString]
  | String c s' =>
      if is_sentence_end c then
        if in_run then split_punct true s'
        else EmptyString :: split_punct true s'
      else cons_first c (split_punct false s')
  end.

(** [_split_sentences] *)
Definition _split_sentences (text : string) : list string :=
  map strip
    (filter (fun s => is_empty (strip s) = false) (split_punct false text)).

Definition is_nil {A} (l : list A) : bool :=
  match l with [] => true | _ :: _ => false end.

(** [sum(len(s.split()) for s in l)] *)
Definition sum_tokens (l : list string) : Z :=
  fold_right (fun s acc => (Z.of_nat (word_count s) + acc)%Z) 0%Z l.

Section Agent.

(** [uuid4 n] is the identifier that the [n]-th call of [uuid.uuid4]
    yields during one call of [process]. *)
Variable uuid4 : nat -> string.

(** [_chunk_code content document_id language metadata]: the code
    strategy rests on Python's [ast] module and on [re.finditer]; it is a
    parameter of the development. *)
Variable _chunk_code :
  string -> option string -> option string -> gmap string value ->
  M (list ChunkedDocument).

(** The text of pydantic's validation error. *)
Variable validation_text : string.

Definition fresh : M string := fun n => Ok (uuid4 n, S n).

(** The constructor of [ChunkedDocument]: pydantic refuses a
    [document_id] that is not a [str]. *)
Definition new_chunk (i : string) (doc : option string) (text : string)
    (index : Z) (type : string) (lang : option string)
    (meta : gmap string value) (first last : option Z) (tokens : Z)
    : M ChunkedDocument :=
  match doc with
  | Some d =>
      ret {| id := i; document_id := d; content := text;
             chunk_index := index; chunk_type := type; language := lang;
             metadata := meta; start_line := first; end_line := last;
             token_count := tokens |}
  | None => raise ValidationError
  end.

(** ** The markdown strategy *)

(** [^(#{1,6})\s+(.+)$] *)
Definition header_pattern : regex :=
  seq_re [upto 5 (chr "#"); sp; plus dot].

(** [len(current_header.split('#')[0]) if current_header else 0] *)
Definition header_level (current_header : option string) : Z :=
  match current_header with
  | Some h =>
      if is_empty h then 0%Z
      else Z.of_nat (String.length (hd EmptyString (split_on "#" h)))
  | None => 0%Z
  end.

Definition header_value (current_header : option string) : value :=
  match current_header with
  | Some h => VStr h
  | None => VNone
  end.

Record md_state : Type := {
  md_chunks : list ChunkedDocument;
  md_index : Z;
  md_current : list string;
  md_header : option string
}.

(** The chunk that [_chunk_markdown] builds from the lines collected. *)
Definition markdown_chunk (doc : option string) (meta : gmap string value)
    (index : Z) (current : list string) (header : option string)
    : M ChunkedDocument :=
  let chunk_content := join (String nl EmptyString) current in
  i <- fresh ;;
  new_chunk i doc chunk_content index "markdown_section" None
    (<["header_level" := VInt (header_level header)]>
       (<["header" := header_value header]> meta))
    None None (Z.of_nat (word_count chunk_content)).

Definition md_step (doc : option string) (meta : gmap string value)
    (st : md_state) (line : string) : M md_state :=
  if re_match_dollar header_pattern line then
    st' <- (if is_nil (md_current st) then ret st
            else
              chunk <- markdown_chunk doc meta (md_index st)
                         (md_current st) (md_header st) ;;
              ret {| md_chunks := md_chunks st ++ [chunk];
                     md_index := (md_index st + 1)%Z;
                     md_current := md_current st;
                     md_header := md_header st |}) ;;
    ret {| md_chunks := md_chunks st'; md_index := md_index st';
           md_current := [line]; md_header := Some line |}
  else
    ret {| md_chunks := md_chunks st; md_index := md_index st;
           md_current := md_current st ++ [line];
           md_header := md_header st |}.

(** [_chunk_markdown] *)
Definition _chunk_markdown (text : string) (doc : option string)
    (meta : gmap string value) : M (list ChunkedDocument) :=
  let lines := split_on nl text in
  st <- foldM (md_step doc meta) lines
          {| md_chunks := []; md_index := 0; md_current := [];
             md_header := None |} ;;
  if is_nil (md_current st) then ret (md_chunks st)
  else
    chunk <- markdown_chunk doc meta (md_index st) (md_current st)
               (md_header st) ;;
    ret (md_chunks st ++ [chunk]).

(** ** The text strategy *)

Section Strategies.

Variable config : ChunkingAgentConfig.

Record text_state : Type := {
  tx_chunks : list ChunkedDocument;
  tx_index : Z;
  tx_current : list string;
  tx_tokens : Z
}.

Definition semantic_chunk (doc : option string) (meta : gmap string value)
    (st : text_state) : M ChunkedDocument :=
  let chunk_content := join " " (tx_current st) in
  i <- fresh ;;
  new_chunk i doc chunk_content (tx_index st) "text_semantic" None
    (<["boundary_type" := VStr "sentence"]> meta)
    None None (tx_tokens st).

(** The body of the loop over the sentences of a long paragraph. *)
Definition sentence_step (doc : option string) (meta : gmap string value)
    (st : text_state) (sentence : string) : M text_state :=
  let sentence_tokens := Z.of_nat (word_count sentence) in
  if (chunk_size config <? tx_tokens st + sentence_tokens)%Z
     && negb (is_nil (tx_current st))
  then
    chunk <- semantic_chunk doc meta st ;;
    let overlap_sentences :=
      if (2 <=? length (tx_current st))%nat
      then slice_from (tx_current st) (-2)
      else tx_current st in
    let current_chunk := overlap_sentences ++ [sentence] in
    ret {| tx_chunks := tx_chunks st ++ [chunk];
           tx_index := (tx_index st + 1)%Z;
           tx_current := current_chunk;
           tx_tokens := sum_tokens current_chunk |}
  else
    ret {| tx_chunks := tx_chunks st; tx_index := tx_index st;
           tx_current := tx_current st ++ [sentence];
           tx_tokens := (tx_tokens st + sentence_tokens)%Z |}.

(** The body of the loop over the paragraphs; the loop carries the chunks
    and the next index. *)
Definition paragraph_step (doc : option string) (meta : gmap string value)
    (acc : list ChunkedDocument * Z) (paragraph : string)
    : M (list ChunkedDocument * Z) :=
  let paragraph := strip paragraph in
  if is_empty paragraph then ret acc
  else if (chunk_size config <? Z.of_nat (word_count paragraph))%Z then
    st <- foldM (sentence_step doc meta) (_split_sentences paragraph)
            {| tx_chunks := fst acc; tx_index := snd acc;
               tx_current := []; tx_tokens := 0 |} ;;
    if is_nil (tx_current st) then ret (tx_chunks st, tx_index st)
    else
      chunk <- semantic_chunk doc meta st ;;
      ret (tx_chunks st ++ [chunk], (tx_index st + 1)%Z)
  else
    i <- fresh ;;
    chunk <- new_chunk i doc paragraph (snd acc) "text_paragraph" None
               (<["boundary_type" := VStr "paragraph"]> meta)
               None None (Z.of_nat (word_count paragraph)) ;;
    ret (fst acc ++ [chunk], (snd acc + 1)%Z).

(** [_chunk_text] *)
Definition _chunk_text (text : string) (doc : option string)
    (meta : gmap string value) : M (list ChunkedDocument) :=
  acc <- foldM (paragraph_step doc meta) (split_blank 0 text) ([], 0%Z) ;;
  ret (fst acc).

(** [_chunk_hybrid] *)
Definition _chunk_hybrid (text : string) (doc : option string)
    (type : string) (lang : option string) (meta : gmap string value)
    : M (list ChunkedDocument) :=
  if String.eqb type "code" then _chunk_code text doc lang meta
  else if String.eqb type "markdown" then _chunk_markdown text doc meta
  else _chunk_text text doc meta.

(** ** The validation pass *)

(** The sub-chunk that [_split_large_chunk] builds at offset [i]. *)
Definition sub_chunk (chunk : ChunkedDocument) (words : list string)
    (i : Z) : M ChunkedDocument :=
  let sub_content := join " " (slice words i (i + chunk_size config)) in
  u <- fresh ;;
  new_chunk u (Some (document_id chunk)) sub_content (chunk_index chunk)
    (chunk_type chunk +:+ "_sub") (language chunk)
    (<["is_sub_chunk" := VBool true]>
       (<["original_chunk_id" := VStr (id chunk)]> (metadata chunk)))
    (start_line chunk) (end_line chunk)
    (Z.of_nat (word_count sub_content)).

(** [_split_large_chunk] *)
Definition _split_large_chunk (chunk : ChunkedDocument)
    : M (list ChunkedDocument) :=
  let words := split (content chunk) in
  match range 0 (Z.of_nat (length words)) (chunk_size config) with
  | None => raise ValueError
  | Some offsets =>
      foldM (fun sub_chunks i =>
               c <- sub_chunk chunk words i ;; ret (sub_chunks ++ [c]))
            offsets []
  end.

(** The body of the loop of [_validate_chunks]. *)
Definition validate_step (valid_chunks : list ChunkedDocument)
    (chunk : ChunkedDocument) : M (list ChunkedDocument) :=
  let n := Z.of_nat (word_count (content chunk)) in
  if (n <? min_chunk_size config)%Z then ret valid_chunks
  else if (max_chunk_size config <? n)%Z then
    sub_chunks <- _split_large_chunk chunk ;;
    ret (valid_chunks ++ sub_chunks)
  else ret (valid_chunks ++ [chunk]).

(** [_validate_chunks] *)
Definition _validate_chunks (l : list ChunkedDocument)
    : M (list ChunkedDocument) :=
  foldM validate_step l [].

(** ** [process] *)

Definition get_default {A} (o : option A) (d : A) : A :=
  match o with Some a => a | None => d end.

(** The part of [process] inside [try], after the test of the content. *)
Definition process_body (input_data : InputData) : M ProcessData :=
  let doc := in_document_id input_data in
  let text := get_default (in_content input_data) "" in
  let source_type := get_default (in_source_type input_data) "text" in
  let meta := get_default (in_metadata input_data) ∅ in
  let type := _detect_content_type text source_type in
  let lang :=
    if language_detection config then _detect_language text type
    else None in
  l <- (if String.eqb type "code" then _chunk_code text doc lang meta
        else if String.eqb type "markdown" then _chunk_markdown text doc meta
        else if String.eqb type "text" then _chunk_text text doc meta
        else _chunk_hybrid text doc type lang meta) ;;
  valid_chunks <- _validate_chunks l ;;
  ret {| chunks := valid_chunks;
         total_chunks := length valid_chunks;
         content_type := type;
         data_language := lang;
         data_strategy := strategy_value (chunking_strategy config);
         data_chunk_size := chunk_size config;
         data_chunk_overlap := chunk_overlap config |}.

(** [str(e)] *)
Definition str_exn (e : exn) : string :=
  match e with
  | ValidationError => validation_text
  | ValueError => "range() arg 3 must not be zero"
  | OtherError msg => msg
  end.

(** [ChunkingAgent.process] *)
Definition process (input_data : InputData) : AgentResult :=
  if is_empty (get_default (in_content input_data) "") then
    {| success := false; data := None;
       error_message := Some "No content provided for chunking" |}
  else
    match process_body input_data 0%nat with
    | Ok (d, _) =>
        {| success := true; data := Some d; error_message := None |}
    | Raise e =>
        {| success := false; data := None;
           error_message := Some (str_exn e) |}
    end.

End Strategies.

End Agent.

End Chunking.

(** * Regular expressions with positions, for [re.findall]

    The evaluator extracts substrings, so here a pattern is run the way
    [re] runs it: the leftmost match, greedy repetitions, alternatives in
    order, and [\b] looking at the characters on both sides. *)

Module PyRe.
Import PyStr.

Inductive pat : Type :=
| PEmpty : pat
| PChar : (ascii -> bool) -> pat
| PSeq : pat -> pat -> pat
| PAlt : pat -> pat -> pat
| PStar : pat -> pat
| PBound : pat.

Definition word_before (prev : option ascii) : bool :=
  match prev with Some c => is_word c | None => false end.

Definition word_after (s : string) : bool :=
  match s with String c _ => is_word c | EmptyString => false end.

(** [\b]: exactly one of the two neighbours is a word character. *)
Definition at_boundary (prev : option ascii) (s : string) : bool :=
  xorb (word_before prev) (word_after s).

(** [run fuel p prev s n k]: match [p] at a position that has [prev]
    before it and [s] after it, [n] characters into the match, and go on
    with [k]; the result is the length of the match. A repetition gives
    up an iteration that consumes nothing, so [fuel] above the length of
    [s] is never exhausted. *)
Fixpoint run (fuel : nat) (p : pat) (prev : option ascii) (s : string)
    (n : nat) (k : option ascii -> string -> nat -> option nat)
    : option nat :=
  match p with
  | PEmpty => k prev s n
  | PChar f =>
      match s with
      | String c s' => if f c then k (Some c) s' (S n) else None
      | EmptyString => None
      end
  | PSeq a b =>
      run fuel a prev s n (fun prev' s' n' => run fuel b prev' s' n' k)
  | PAlt a b =>
      match run fuel a prev s n k with
      | Some e => Some e
      | None => run fuel b prev s n k
      end
  | PStar a =>
      (fix star (f : nat) (prev : option ascii) (s : string) (n : nat)
         : option nat :=
         match f with
         | O => k prev s n
         | S f' =>
             match run fuel a prev s n
                     (fun prev' s' n' =>
                        if (n <? n')%nat then star f' prev' s' n' else None)
             with
             | Some e => Some e
             | None => k prev s n
             end
         end) fuel prev s n
  | PBound => if at_boundary prev s then k prev s n else None
  end.

(** The length of the match of [p] that starts here, if there is one. *)
Definition match_here (p : pat) (prev : option ascii) (s : string)
    : option nat :=
  run (S (String.length s)) p prev s 0%nat (fun _ _ n => Some n).

(** [re.findall(p, s)] for a pattern without groups; [skip] characters of
    the last match are still to be passed. *)
Fixpoint findall_from (p : pat) (skip : nat) (prev : option ascii)
    (s : string) : list string :=
  match skip with
  | S k =>
      match s with
      | String c s' => findall_from p k (Some c) s'
      | EmptyString => []
      end
  | O =>
      match match_here p prev s with
      | Some e =>
          substring 0 e s ::
          match s with
          | String c s' => findall_from p (e - 1) (Some c) s'
          | EmptyString => []
          end
      | None =>
          match s with
          | String c s' => findall_from p 0 (Some c) s'
          | EmptyString => []
          end
      end
  end.

Definition findall (p : pat) (s : string) : list string :=
  findall_from p 0 None s.

Definition in_range (lo hi : nat) (c : ascii) : bool :=
  ((lo <=? code c) && (code c <=? hi))%nat.

Definition digit : pat := PChar (in_range 48 57).
Definition upper : pat := PChar (in_range 65 90).
Definition lower_az : pat := PChar (in_range 97 122).
Definition wordc : pat := PChar is_word.
Definition pchr (c : ascii) : pat := PChar (Ascii.eqb c).
Definition pplus (p : pat) : pat := PSeq p (PStar p).

Fixpoint pseq (l : list pat) : pat :=
  match l with
  | [] => PEmpty
  | [p] => p
  | p :: l' => PSeq p (pseq l')
  end.

End PyRe.

(** * The evaluation utilities ([evaluation_utils.py]) *)

Module Evaluation.
Import PyStr PyList PyRe.

#[local] Open Scope R_scope.

(** A document record: a dictionary of which the evaluator reads the
    fields ["id"] and ["content"]. [d !! "id"] is [doc.get("id")]. *)
Abbreviation doc := (gmap string string).

Definition get_id (d : doc) : option string := d !! "id".

Definition get_content (d : doc) : string :=
  match d !! "content" with Some s => s | None => EmptyString end.

(** [np.log2] *)
Definition log2 (x : R) : R := ln x / ln 2.

(** The nearest integer, a tie going to the even one. *)
Definition round_half_even (x : R) : Z :=
  let n := Int_part x in
  let d := x - IZR n in
  if Rlt_dec d (1 / 2) then n
  else if Rlt_dec (1 / 2) d then (n + 1)%Z
  else if Z.even n then n else (n + 1)%Z.

(** [round(x, 4)] *)
Definition round4 (x : R) : R := IZR (round_half_even (x * 10000)) / 10000.

Record RetrievalMetrics : Type := {
  precision : R;
  recall : R;
  f1_score : R;
  mrr : R;
  ndcg : R
}.

(** The loop of [_calculate_mrr], at index [i] of the enumeration. *)
Fixpoint calculate_mrr_from (i : nat) (retrieved_docs : list doc)
    (relevant_ids : gset (option string)) : R :=
  match retrieved_docs with
  | [] => 0
  | d :: rest =>
      if bool_decide (get_id d ∈ relevant_ids) then 1 / INR (i + 1)
      else calculate_mrr_from (S i) rest relevant_ids
  end.

(** [_calculate_mrr] *)
Definition _calculate_mrr (retrieved_docs : list doc)
    (relevant_ids : gset (option string)) : R :=
  calculate_mrr_from 0 retrieved_docs relevant_ids.

(** [enumerate(l)] *)
Definition enumerate {A} (l : list A) : list (nat * A) :=
  combine (seq 0 (length l)) l.

Definition relevance (relevant_ids : gset (option string)) (d : doc) : R :=
  if bool_decide (get_id d ∈ relevant_ids) then 1 else 0.

(** The first loop of [_calculate_ndcg]. *)
Definition dcg (retrieved_docs : list doc)
    (relevant_ids : gset (option string)) (k : Z) : R :=
  fold_left (fun acc p => acc + relevance relevant_ids (snd p)
                                / log2 (INR (fst p) + 2))
            (enumerate (slice_to retrieved_docs k)) 0.

(** The second loop of [_calculate_ndcg]. *)
Definition idcg (relevant_ids : gset (option string)) (k : Z) : R :=
  let num_relevant := Z.min (Z.of_nat (size relevant_ids)) k in
  fold_left (fun acc i => acc + 1 / log2 (INR i + 2))
            (seq 0 (Z.to_nat num_relevant)) 0.

(** [_calculate_ndcg] *)
Definition _calculate_ndcg (retrieved_docs : list doc)
    (relevant_ids : gset (option string)) (k : Z) : R :=
  if Rlt_dec 0 (idcg relevant_ids k)
  then dcg retrieved_docs relevant_ids k / idcg relevant_ids k
  else 0.

Definition is_nil {A} (l : list A) : bool :=
  match l with [] => true | _ :: _ => false end.

(** [calculate_retrieval_metrics] *)
Definition calculate_retrieval_metrics (query : string)
    (retrieved_docs relevant_docs : list doc) (k : Z) : RetrievalMetrics :=
  if is_nil retrieved_docs then
    {| precision := 0; recall := 0; f1_score := 0; mrr := 0; ndcg := 0 |}
  else
    let relevant_ids : gset (option string) :=
      list_to_set (map get_id relevant_docs) in
    let retrieved_ids := map get_id (slice_to retrieved_docs k) in
    let relevant_retrieved :=
      size ((list_to_set retrieved_ids : gset (option string))
              ∩ relevant_ids) in
    let precision :=
      if is_nil retrieved_ids then 0
      else INR relevant_retrieved / INR (length retrieved_ids) in
    let recall :=
      if (size relevant_ids =? 0)%nat then 0
      else INR relevant_retrieved / INR (size relevant_ids) in
    let f1_score :=
      if Rlt_dec 0 (precision + recall)
      then 2 * (precision * recall) / (precision + recall)
      else 0 in
    let mrr := _calculate_mrr retrieved_docs relevant_ids in
    let ndcg := _calculate_ndcg retrieved_docs relevant_ids k in
    {| precision := round4 precision;
       recall := round4 recall;
       f1_score := round4 f1_score;
       mrr := round4 mrr;
       ndcg := round4 ndcg |}.

(** ** Generation metrics *)

(** [_calculate_bleu_score] *)
Definition _calculate_bleu_score (generated reference : string) : R :=
  let gen_tokens := split (lower generated) in
  let ref_tokens := split (lower reference) in
  if is_nil gen_tokens then 0
  else
    let overlaps :=
      length (filter (fun g => existsb (String.eqb g) ref_tokens = true)
                gen_tokens) in
    let precision := INR overlaps / INR (length gen_tokens) in
    let bp :=
      if (length ref_tokens <=? length gen_tokens)%nat then 1
      else exp (1 - INR (length ref_tokens) / INR (length gen_tokens)) in
    bp * precision.

(** [_calculate_rouge_score] *)
Definition _calculate_rouge_score (generated reference : string) : R :=
  let gen_tokens : gset string := list_to_set (split (lower generated)) in
  let ref_tokens : gset string := list_to_set (split (lower reference)) in
  if (size ref_tokens =? 0)%nat then 0
  else
    let overlap := size (gen_tokens ∩ ref_tokens) in
    INR overlap / INR (size ref_tokens).

Definition stop_words : gset string :=
  list_to_set [
    "the"; "a"; "an"; "and"; "or"; "but"; "in"; "on"; "at"; "to"; "for";
    "of"; "with"; "by"; "is"; "are"; "was"; "were"; "be"; "been"; "being";
    "have"; "has"; "had"; "do"; "does"; "did"; "will"; "would"; "could";
    "should"; "may"; "might"; "can"; "this"; "that"; "these"; "those"].

(** [_extract_key_terms] *)
Definition _extract_key_terms (text : string) : list string :=
  let words := findall (pseq [PBound; pplus wordc; PBound]) (lower text) in
  filter (fun word => (2 < String.length word)%nat ∧ word ∉ stop_words)
         words.

Definition name_word : pat := PSeq upper (pplus lower_az).

(** [_extract_facts]; the order of [list(set(facts))] is that of the set. *)
Definition _extract_facts (text : string) : list string :=
  let patterns := [
    pplus digit;
    pseq [PBound; digit; digit; digit; digit; PBound];
    pseq [PBound; name_word; pchr " "; name_word; PBound];
    pseq [PBound; name_word; pchr " "; name_word; pchr " "; name_word;
          PBound]] in
  let facts := concat (map (fun pattern => findall pattern text) patterns) in
  elements (list_to_set facts : gset string).

(** [_is_contradictory] *)
Fixpoint _is_contradictory (fact : string) (context_facts : list string)
    : bool :=
  let fact_lower := lower fact in
  match context_facts with
  | [] => false
  | context_fact :: rest =>
      let context_fact_lower := lower context_fact in
      if negb (String.eqb fact_lower context_fact_lower)
         && (3 <? String.length fact_lower)%nat
      then false
      else _is_contradictory fact rest
  end.

(** [_extract_key_information] *)
Definition _extract_key_information (text : string) : gset string :=
  let patterns := [
    pseq [PBound; name_word; pchr " "; name_word; PBound];
    pseq [PBound; pplus digit; PAlt (pchr ".") (pchr ","); pplus digit;
          PBound];
    pseq [PBound; upper; pplus upper; PBound]] in
  fold_left (fun key_info pattern =>
               key_info ∪ list_to_set (findall pattern text))
            patterns ∅.

(** [" ".join([doc.get("content", "") for doc in context])] *)
Definition context_text (context : list doc) : string :=
  join " " (map get_content context).

(** [_calculate_answer_relevance] *)
Definition _calculate_answer_relevance (answer : string) (context : list doc)
    : R :=
  if is_nil context then 0
  else
    let context_terms : gset string :=
      list_to_set (_extract_key_terms (context_text context)) in
    let answer_terms : gset string :=
      list_to_set (_extract_key_terms answer) in
    if (size context_terms =? 0)%nat then 0
    else
      let overlap := size (answer_terms ∩ context_terms) in
      Rmin (INR overlap / INR (size context_terms)) 1.

(** [_calculate_factual_consistency] *)
Definition _calculate_factual_consistency (answer : string)
    (context : list doc) : R :=
  if is_nil context then 0
  else
    let context_facts := _extract_facts (context_text context) in
    let answer_facts := _extract_facts answer in
    if is_nil context_facts then 1
    else
      let contradictions :=
        length (filter (fun fact =>
                  _is_contradictory fact context_facts = true) answer_facts) in
      let consistency :=
        if is_nil answer_facts then 1
        else 1 - INR contradictions / INR (length answer_facts) in
      Rmax consistency 0.

(** [_calculate_answer_completeness] *)
Definition _calculate_answer_completeness (generated reference : string)
    : R :=
  if is_empty reference then 1
  else
    let ref_info := _extract_key_information reference in
    let gen_info := _extract_key_information generated in
    if (size ref_info =? 0)%nat then 1
    else INR (size (ref_info ∩ gen_info)) / INR (size ref_info).

Record GenerationMetrics : Type := {
  bleu_score : R;
  rouge_score : R;
  relevance_score : R;
  consistency_score : R;
  completeness_score : R
}.

(** [calculate_generation_metrics] *)
Definition calculate_generation_metrics (generated_answer
    reference_answer : string) (context : list doc) : GenerationMetrics :=
  {| bleu_score :=
       round4 (_calculate_bleu_score generated_answer reference_answer);
     rouge_score :=
       round4 (_calculate_rouge_score generated_answer reference_answer);
     relevance_score :=
       round4 (_calculate_answer_relevance generated_answer context);
     consistency_score :=
       round4 (_calculate_factual_consistency generated_answer context);
     completeness_score :=
       round4 (_calculate_answer_completeness generated_answer
                 reference_answer) |}.

End Evaluation.

(** * The specification's own wording, for comparison with the code *)

Module Spec.
Import PyStr Regex Chunking.

(** "Score each candidate language by counting regex matches": the number
    of the language's patterns that are found in the content. *)
Definition language_score (patterns : list regex) (content : string) : nat :=
  length (filter (fun pattern => re_search pattern content = true) patterns).

(** "Highest-scoring language wins; ties resolved by iteration order
    (first declared wins)"; [best] is the best entry so far. *)
Fixpoint highest_score (table : list (string * list regex))
    (content : string) (best : option (string * nat))
    : option (string * nat) :=
  match table with
  | [] => best
  | (language, patterns) :: table' =>
      let n := language_score patterns content in
      let best' :=
        match best with
        | Some (_, m) => if (m <? n)%nat then Some (language, n) else best
        | None => if (0 <? n)%nat then Some (language, n) else None
        end in
      highest_score table' content best'
  end.

Definition highest_score_language (content : string) : option string :=
  match highest_score language_patterns content None with
  | Some (language, _) => Some language
  | None => None
  end.

(** The score of the language [language] of the table. *)
Definition score_of (language content : string) : nat :=
  match find (fun entry => String.eqb (fst entry) language)
             language_patterns with
  | Some entry => language_score (snd entry) content
  | None => 0
  end.

(** "Empty text yields an empty sequence, not an error": the result is a
    success that carries no chunk. *)
Definition empty_success (r : AgentResult) : Prop :=
  success r = true /\ exists d, data r = Some d /\ chunks d = [].

(** "Invariant: [min_chunk_size <= token_count <= max_chunk_size] after
    validation". *)
Definition size_invariant (config : ChunkingAgentConfig)
    (chunk : ChunkedDocument) : Prop :=
  (min_chunk_size config <= token_count chunk
   /\ token_count chunk <= max_chunk_size config)%Z.

End Spec.

(** * The properties stated about the chunker *)

Module ChunkingProps.
Import PyStr Regex Chunking.

#[local] Open Scope Z_scope.

Definition words_of (chunk : ChunkedDocument) : Z :=
  Z.of_nat (word_count (content chunk)).

(** [token_count] is the number of words of [content]. *)
Definition counted (c : ChunkedDocument) : Prop :=
  token_count c = words_of c.

Definition text_invariant (st : text_state) : Prop :=
  Forall counted (tx_chunks st) /\ tx_tokens st = sum_tokens (tx_current st).

Section Sizes.

Variable config : ChunkingAgentConfig.

(** What [_split_large_chunk] makes of a chunk [parent]. *)
Record sub_chunk_of (parent c : ChunkedDocument) : Prop := {
  sub_type : chunk_type c = chunk_type parent +:+ "_sub";
  sub_document : document_id c = document_id parent;
  sub_index : chunk_index c = chunk_index parent;
  sub_language : language c = language parent;
  sub_lines : start_line c = start_line parent
              /\ end_line c = end_line parent;
  sub_flag : metadata c !! "is_sub_chunk" = Some (VBool true);
  sub_origin : metadata c !! "original_chunk_id" = Some (VStr (id parent));
  sub_tokens : token_count c = words_of c;
  sub_size : 1 <= token_count c <= chunk_size config
}.

Definition in_bounds (chunk : ChunkedDocument) : Prop :=
  min_chunk_size config <= words_of chunk <= max_chunk_size config.

(** What the validation pass lets through, of the chunks [l]: a chunk of
    [l] within the bounds, or a sub-chunk of a chunk of [l] that is over
    the upper bound. *)
Definition validated (l : list ChunkedDocument) (c : ChunkedDocument)
    : Prop :=
  (c ∈ l /\ in_bounds c)
  \/ (exists parent, parent ∈ l
        /\ min_chunk_size config <= words_of parent
        /\ max_chunk_size config < words_of parent
        /\ sub_chunk_of parent c).

(** The size property of a returned chunk: its [token_count] is the
    number of words of its content, and either it lies within the bounds
    or the chunk is a sub-chunk of at least one and at most [chunk_size]
    words. *)
Definition sized (c : ChunkedDocument) : Prop :=
  token_count c = words_of c
  /\ ((min_chunk_size config <= token_count c <= max_chunk_size config)
      \/ ((exists type, chunk_type c = type +:+ "_sub")
          /\ metadata c !! "is_sub_chunk" = Some (VBool true)
          /\ 1 <= token_count c <= chunk_size config)).

End Sizes.

(** One of [patterns] is found in [content]. *)
Definition found (patterns : list regex) (content : string) : bool :=
  existsb (fun pattern => re_search pattern content) patterns.

(** The chunks that a result carries. *)
Definition returned_chunks (r : AgentResult) : list ChunkedDocument :=
  match data r with
  | Some d => chunks d
  | None => []
  end.

(** ** Inputs of the examples *)

Definition digit_of (n : nat) : ascii := ascii_of_nat (48 + n mod 10).

(** A stream of distinct identifiers. *)
Definition sample_uuid4 (n : nat) : string :=
  "chunk-" +:+ String (digit_of (n / 100))
                (String (digit_of (n / 10)) (String (digit_of n) "")).

(** The examples are text and markdown, which do not reach the code
    strategy. *)
Definition no_code_strategy (text : string) (doc lang : option string)
    (meta : gmap string value) : M (list ChunkedDocument) :=
  ret [].

(** [n] words and no sentence end. *)
Fixpoint words (n : nat) : string :=
  match n with
  | O => ""
  | S n' => "w " +:+ words n'
  end.

Definition text_input (text : string) : InputData :=
  {| in_document_id := Some "doc-1"; in_content := Some text;
     in_source_type := None; in_metadata := None |}.

Definition small_config : ChunkingAgentConfig :=
  {| chunk_size := 2; chunk_overlap := 0; chunking_strategy := HYBRID;
     preserve_code_blocks := true; preserve_markdown_structure := true;
     min_chunk_size := 1; max_chunk_size := 3;
     language_detection := true; semantic_boundaries := true |}.

(** The markdown document of the specification's scenario. *)
Definition scenario_markdown : string :=
  join (String Regex.newline "")
       ["# Title"; "Body text."; ""; "## Sub"; "More text."].

(** The chunk of a markdown section with the lines [lines], under the
    header [header], with [level] as its header level. *)
Definition section_chunk (i doc : string) (meta : gmap string value)
    (index : Z) (lines : list string) (header : string) (level tokens : Z)
    : ChunkedDocument :=
  {| id := i; document_id := doc;
     content := join (String Regex.newline "") lines;
     chunk_index := index; chunk_type := "markdown_section";
     language := None;
     metadata := <["header_level" := VInt level]>
                   (<["header" := VStr header]> meta);
     start_line := None; end_line := None; token_count := tokens |}.

(** One match for [python], two for [javascript]. *)
Definition mixed_code : string :=
  join (String Regex.newline "") ["import os"; "const a"; "let b"].

End ChunkingProps.

(** * The properties stated about the evaluator *)

Module EvaluationProps.
Import PyStr PyList Evaluation.

#[local] Open Scope R_scope.

(** The discount of the rank [p] (counted from 0). *)
Definition discount (p : nat) : R := 1 / log2 (INR p + 2).

(** The discounted gain of the first [c] documents of [l], the first one
    at rank [off]. *)
Fixpoint discounted_gain (relevant_ids : gset (option string))
    (l : list doc) (off c : nat) : R :=
  match l, c with
  | d :: l', S c' =>
      relevance relevant_ids d * discount off
      + discounted_gain relevant_ids l' (S off) c'
  | _, _ => 0
  end.

(** The sum of the discounts of the ranks [off], ..., [off + m - 1]. *)
Fixpoint ideal_gain (off m : nat) : R :=
  match m with
  | O => 0
  | S m' => discount off + ideal_gain (S off) m'
  end.

(** "The 1-based position of the first document in the full retrieved
    list whose id is in the relevant set", less one. *)
Definition first_relevant (retrieved_docs : list doc)
    (relevant_ids : gset (option string)) : option nat :=
  fst <$> list_find (fun d => get_id d ∈ relevant_ids) retrieved_docs.

(** "mrr = 1 / (rank of first relevant hit, 1-based); 0 if no relevant
    item appears in retrieved". *)
Definition reciprocal_rank (retrieved_docs : list doc)
    (relevant_ids : gset (option string)) : R :=
  match first_relevant retrieved_docs relevant_ids with
  | Some i => 1 / INR (i + 1)
  | None => 0
  end.

(** The set of the ids of a list of documents. *)
Definition ids_of (docs : list doc) : gset (option string) :=
  list_to_set (map get_id docs).

(** The number of distinct relevant ids among the first [k] retrieved
    documents ([relevant_retrieved]). *)
Definition hits (retrieved_docs relevant_docs : list doc) (k : Z) : nat :=
  size (ids_of (slice_to retrieved_docs k) ∩ ids_of relevant_docs).

(** The values of [precision], [recall] and [f1_score] before rounding. *)
Definition precision_at (retrieved_docs relevant_docs : list doc) (k : Z)
    : R :=
  if is_nil (map get_id (slice_to retrieved_docs k)) then 0
  else INR (hits retrieved_docs relevant_docs k)
       / INR (length (map get_id (slice_to retrieved_docs k))).

Definition recall_at (retrieved_docs relevant_docs : list doc) (k : Z) : R :=
  if (size (ids_of relevant_docs) =? 0)%nat then 0
  else INR (hits retrieved_docs relevant_docs k)
       / INR (size (ids_of relevant_docs)).

Definition f1_of (p r : R) : R :=
  if Rlt_dec 0 (p + r) then 2 * (p * r) / (p + r) else 0.

(** A multiple of [1/10000]: a number of 4 decimal places. *)
Definition four_decimals (x : R) : Prop := exists n : Z, x = IZR n / 10000.

(** Exchange the documents at the positions [i] and [j]. *)
Definition swap (l : list doc) (i j : nat) : list doc :=
  match l !! i, l !! j with
  | Some di, Some dj => <[i := dj]> (<[j := di]> l)
  | _, _ => l
  end.

(** ** Inputs of the examples *)

Definition doc_with_id (i : string) : doc := {[ "id" := i ]}.

Definition doc_with_content (text : string) : doc := {[ "content" := text ]}.

End EvaluationProps.

(** * The rest of the evaluation utilities: combined score, response
    quality and the evaluation report *)

Module EvaluationReport.
Import PyStr PyList Evaluation.

#[local] Open Scope R_scope.

(** Exceptions that the evaluator can raise. *)
Inductive pyexn : Type :=
| KeyError : string -> pyexn          (* a dictionary has no such key *)
| AttributeError : string -> pyexn    (* a value of this type has no [items] *)
| TypeError : pyexn.                  (* arithmetic on a value that is no number *)

Inductive outcome (A : Type) : Type :=
| Returned : A -> outcome A
| Raised : pyexn -> outcome A.
Arguments Returned {A} _.
Arguments Raised {A} _.

(** The dictionaries that the two metric functions return. *)
Definition retrieval_dict (m : RetrievalMetrics) : gmap string R :=
  list_to_map [("precision", precision m); ("recall", recall m);
               ("f1_score", f1_score m); ("mrr", mrr m); ("ndcg", ndcg m)].

Definition generation_dict (m : GenerationMetrics) : gmap string R :=
  list_to_map [("bleu_score", bleu_score m); ("rouge_score", rouge_score m);
               ("relevance_score", relevance_score m);
               ("consistency_score", consistency_score m);
               ("completeness_score", completeness_score m)].

Definition retrieval_weights : list (string * R) :=
  [("precision", 2 / 10); ("recall", 2 / 10); ("f1_score", 3 / 10);
   ("mrr", 15 / 100); ("ndcg", 15 / 100)].

Definition generation_weights : list (string * R) :=
  [("bleu_score", 2 / 10); ("rouge_score", 2 / 10);
   ("relevance_score", 25 / 100); ("consistency_score", 2 / 10);
   ("completeness_score", 15 / 100)].

(** [sum(metrics[metric] * weight for metric, weight in weights.items())],
    from the accumulator [acc]. *)
Fixpoint weighted_sum (metrics : gmap string R) (weights : list (string * R))
    (acc : R) : outcome R :=
  match weights with
  | [] => Returned acc
  | (metric, weight) :: weights' =>
      match metrics !! metric with
      | Some value => weighted_sum metrics weights' (acc + value * weight)
      | None => Raised (KeyError metric)
      end
  end.

(** [_calculate_overall_score] *)
Definition _calculate_overall_score
    (retrieval_metrics generation_metrics : gmap string R) : outcome R :=
  match weighted_sum retrieval_metrics retrieval_weights 0 with
  | Raised e => Raised e
  | Returned retrieval_score =>
      match weighted_sum generation_metrics generation_weights 0 with
      | Raised e => Raised e
      | Returned generation_score =>
          Returned (round4 ((retrieval_score + generation_score) / 2))
      end
  end.

Record RagMetrics : Type := {
  rag_retrieval : RetrievalMetrics;
  rag_generation : GenerationMetrics;
  rag_overall_score : R
}.

(** [calculate_rag_metrics]; the retrieval metrics are taken at the
    default [k = 10]. *)
Definition calculate_rag_metrics (query : string)
    (retrieved_docs : list doc) (generated_answer reference_answer : string)
    (relevant_docs context : list doc) : outcome RagMetrics :=
  let retrieval_metrics :=
    calculate_retrieval_metrics query retrieved_docs relevant_docs 10 in
  let generation_metrics :=
    calculate_generation_metrics generated_answer reference_answer context in
  match _calculate_overall_score (retrieval_dict retrieval_metrics)
          (generation_dict generation_metrics) with
  | Raised e => Raised e
  | Returned score =>
      Returned {| rag_retrieval := retrieval_metrics;
                  rag_generation := generation_metrics;
                  rag_overall_score := score |}
  end.

(** ** Response quality *)

(** [sum(len(s.split()) for s in sentences)] *)
Definition total_words (sentences : list string) : nat :=
  fold_left (fun acc s => (acc + word_count s)%nat) sentences 0%nat.

(** [_evaluate_clarity] *)
Definition _evaluate_clarity (response : string) : R :=
  if is_empty response then 0
  else
    let sentences := split_on "." response in
    let avg_sentence_length :=
      INR (total_words sentences) / INR (length sentences) in
    let clarity_score := Rmax 0 (1 - (avg_sentence_length - 10) / 20) in
    Rmin clarity_score 1.

(** [_evaluate_conciseness] *)
Definition _evaluate_conciseness (response : string) : R :=
  if is_empty response then 0
  else
    let word_count := word_count response in
    if ((50 <=? word_count) && (word_count <=? 100))%nat then 1
    else if (word_count <? 50)%nat then INR word_count / 50
    else Rmax 0 (1 - (INR word_count - 100) / 100).

(** [_evaluate_accuracy] *)
Definition _evaluate_accuracy (response : string) : R := 5 / 10.

(** [needle in s] *)
Fixpoint contains (needle s : string) : bool :=
  String.prefix needle s ||
  match s with
  | EmptyString => false
  | String _ s' => contains needle s'
  end.

Definition helpful_indicators : list string :=
  ["here"; "example"; "solution"; "answer"; "explanation";
   "because"; "therefore"; "however"; "additionally"].

(** [_evaluate_helpfulness] *)
Definition _evaluate_helpfulness (response : string) : R :=
  if is_empty response then 0
  else
    let response_lower := lower response in
    let helpful_count :=
      length (filter (fun indicator =>
                        contains indicator response_lower = true)
                helpful_indicators) in
    Rmin (INR helpful_count / 5) 1.

(** The body of the loop of [evaluate_response_quality]. *)
Definition quality_step (response : string) (scores : gmap string R)
    (criterion : string) : gmap string R :=
  if String.eqb criterion "clarity"
  then <[criterion := _evaluate_clarity response]> scores
  else if String.eqb criterion "conciseness"
  then <[criterion := _evaluate_conciseness response]> scores
  else if String.eqb criterion "accuracy"
  then <[criterion := _evaluate_accuracy response]> scores
  else if String.eqb criterion "helpfulness"
  then <[criterion := _evaluate_helpfulness response]> scores
  else <[criterion := 0]> scores.

(** [evaluate_response_quality] *)
Definition evaluate_response_quality (response : string)
    (criteria : list string) : gmap string R :=
  fold_left (quality_step response) criteria ∅.

(** ** The evaluation report *)

(** A value of a metrics dictionary: a number, or something else. *)
Inductive mvalue : Type :=
| Num : R -> mvalue
| NotNum : mvalue.

(** A value of an evaluation result: a dictionary of metrics, or a value
    of another type, named as [type(v).__name__] names it. *)
Inductive entry : Type :=
| Metrics : list (string * mvalue) -> entry
| NotDict : string -> entry.

(** An evaluation result, a dictionary, as the list of its items in the
    order of iteration. *)
Definition eval_result : Type := list (string * entry).

Record Stats : Type := {
  mean : R;
  min : R;
  max : R;
  std : R
}.

(** [sum(values)], [min(values)] and [max(values)] *)
Definition sum_list (values : list R) : R :=
  fold_left Rplus values 0.

Definition min_list (values : list R) : R :=
  match values with
  | [] => 0
  | x :: l => fold_left Rmin l x
  end.

Definition max_list (values : list R) : R :=
  match values with
  | [] => 0
  | x :: l => fold_left Rmax l x
  end.

(** [_calculate_std]; the power [0.5] of a number that is not negative is
    its square root. *)
Definition _calculate_std (values : list R) : R :=
  if (length values <? 2)%nat then 0
  else
    let mean := sum_list values / INR (length values) in
    let variance :=
      sum_list (map (fun x => (x - mean) ^ 2) values)
      / INR (length values - 1) in
    sqrt variance.

(** The numbers of a list of values, if all of them are numbers. *)
Fixpoint numbers (values : list mvalue) : option (list R) :=
  match values with
  | [] => Some []
  | Num x :: l =>
      match numbers l with
      | Some xs => Some (x :: xs)
      | None => None
      end
  | NotNum :: _ => None
  end.

(** The four statistics of the report for one metric. *)
Definition stats_of (values : list R) : Stats :=
  {| mean := round4 (sum_list values / INR (length values));
     min := round4 (min_list values);
     max := round4 (max_list values);
     std := round4 (_calculate_std values) |}.

(** [avg_metrics[category][metric].append(value)], with the two
    dictionaries created on first use. *)
Definition append_value (avg_metrics : gmap string (gmap string (list mvalue)))
    (category metric : string) (value : mvalue)
    : gmap string (gmap string (list mvalue)) :=
  let inner := default ∅ (avg_metrics !! category) in
  let values := default [] (inner !! metric) in
  <[category := <[metric := values ++ [value]]> inner]> avg_metrics.

(** The loop over the items of one result. *)
Fixpoint collect_result (avg_metrics : gmap string (gmap string (list mvalue)))
    (result : eval_result)
    : outcome (gmap string (gmap string (list mvalue))) :=
  match result with
  | [] => Returned avg_metrics
  | (category, e) :: result' =>
      let avg_metrics :=
        match avg_metrics !! category with
        | Some _ => avg_metrics
        | None => <[category := ∅]> avg_metrics
        end in
      match e with
      | NotDict type_name => Raised (AttributeError type_name)
      | Metrics metrics =>
          collect_result
            (fold_left (fun acc p => append_value acc category (fst p) (snd p))
               metrics avg_metrics)
            result'
      end
  end.

(** The loop over the results. *)
Fixpoint collect (avg_metrics : gmap string (gmap string (list mvalue)))
    (evaluation_results : list eval_result)
    : outcome (gmap string (gmap string (list mvalue))) :=
  match evaluation_results with
  | [] => Returned avg_metrics
  | result :: rest =>
      match collect_result avg_metrics result with
      | Raised e => Raised e
      | Returned avg_metrics' => collect avg_metrics' rest
      end
  end.

(** Every list of values holds numbers only. *)
Definition all_numbers (avg_metrics : gmap string (gmap string (list mvalue)))
    : Prop :=
  map_Forall (fun _ inner =>
                map_Forall (fun _ values => is_Some (numbers values)) inner)
             avg_metrics.

(** The second loop: each list of values gives way to its statistics;
    [sum] raises on a value that is no number. *)
Definition summarize (avg_metrics : gmap string (gmap string (list mvalue)))
    : outcome (gmap string (gmap string Stats)) :=
  if decide (all_numbers avg_metrics)
  then Returned
         ((fun inner : gmap string (list mvalue) =>
             (fun values : list mvalue =>
                stats_of (default [] (numbers values))) <$> inner)
            <$> avg_metrics)
  else Raised TypeError.

(** [d.get(metric, {}).get("mean", 0)] *)
Definition mean_or_0 (d : gmap string Stats) (metric : string) : R :=
  match d !! metric with
  | Some st => mean st
  | None => 0
  end.

Definition improve_precision : string :=
  "Consider improving retrieval precision by refining search algorithms or embeddings".
Definition improve_recall : string :=
  "Consider improving retrieval recall by expanding search scope or improving indexing".
Definition improve_consistency : string :=
  "Consider improving factual consistency by enhancing context understanding".
Definition improve_relevance : string :=
  "Consider improving answer relevance by better prompt engineering".
Definition performance_good : string :=
  "System performance is good. Consider fine-tuning for specific use cases".

(** [_generate_recommendations] *)
Definition _generate_recommendations (metrics : gmap string (gmap string Stats))
    : list string :=
  let recommendations :=
    match metrics !! "retrieval" with
    | Some retrieval =>
        (if Rlt_dec (mean_or_0 retrieval "precision") (5 / 10)
         then [improve_precision] else [])
        ++ (if Rlt_dec (mean_or_0 retrieval "recall") (5 / 10)
            then [improve_recall] else [])
    | None => []
    end
    ++
    match metrics !! "generation" with
    | Some generation =>
        (if Rlt_dec (mean_or_0 generation "consistency_score") (7 / 10)
         then [improve_consistency] else [])
        ++ (if Rlt_dec (mean_or_0 generation "relevance_score") (7 / 10)
            then [improve_relevance] else [])
    | None => []
    end in
  if Evaluation.is_nil recommendations then [performance_good]
  else recommendations.

(** The report; the date of the evaluation is left out. *)
Record Report : Type := {
  total_queries : nat;
  metrics : gmap string (gmap string Stats);
  recommendations : list string
}.

(** What [generate_evaluation_report] returns: the dictionary
    [{"error": "No evaluation results provided"}] or a report. *)
Inductive report_result : Type :=
| NoResults : report_result
| Reported : Report -> report_result.

(** [generate_evaluation_report] *)
Definition generate_evaluation_report (evaluation_results : list eval_result)
    : outcome report_result :=
  if Evaluation.is_nil evaluation_results then Returned NoResults
  else
    match collect ∅ evaluation_results with
    | Raised e => Raised e
    | Returned avg_metrics =>
        match summarize avg_metrics with
        | Raised e => Raised e
        | Returned stats =>
            Returned
              (Reported
                 {| total_queries := length evaluation_results;
                    metrics := stats;
                    recommendations := _generate_recommendations stats |})
        end
    end.

(** The dictionary that [calculate_rag_metrics] returns, as an evaluation
    result; [score_type] is the name of the type of the overall score,
    [float] or [numpy.float64] as the arithmetic that gave it decides. *)
Definition numeric_items (d : list (string * R)) : list (string * mvalue) :=
  map (fun p => (fst p, Num (snd p))) d.

Definition rag_result (score_type : string) (m : RagMetrics) : eval_result :=
  [("retrieval",
    Metrics (numeric_items
               [("precision", precision (rag_retrieval m));
                ("recall", recall (rag_retrieval m));
                ("f1_score", f1_score (rag_retrieval m));
                ("mrr", mrr (rag_retrieval m));
                ("ndcg", ndcg (rag_retrieval m))]));
   ("generation",
    Metrics (numeric_items
               [("bleu_score", bleu_score (rag_generation m));
                ("rouge_score", rouge_score (rag_generation m));
                ("relevance_score", relevance_score (rag_generation m));
                ("consistency_score", consistency_score (rag_generation m));
                ("completeness_score",
                 completeness_score (rag_generation m))]));
   ("overall_score", NotDict score_type)].

End EvaluationReport.

(** * The properties stated about the report and the quality scores *)

Module EvaluationReportProps.
Import PyStr Evaluation EvaluationReport.

#[local] Open Scope R_scope.

(** The score that [evaluate_response_quality] gives for one criterion. *)
Definition criterion_score (response criterion : string) : R :=
  if String.eqb criterion "clarity" then _evaluate_clarity response
  else if String.eqb criterion "conciseness"
  then _evaluate_conciseness response
  else if String.eqb criterion "accuracy" then _evaluate_accuracy response
  else if String.eqb criterion "helpfulness"
  then _evaluate_helpfulness response
  else 0.

Definition known_criteria : list string :=
  ["clarity"; "conciseness"; "accuracy"; "helpfulness"].

(** The values collected for the metric [metric] of the category
    [category], if there are any. *)
Definition collected (avg_metrics : gmap string (gmap string (list mvalue)))
    (category metric : string) : option (list mvalue) :=
  match avg_metrics !! category with
  | Some inner => inner !! metric
  | None => None
  end.

(** No list of collected values is empty. *)
Definition lists_nonempty
    (avg_metrics : gmap string (gmap string (list mvalue))) : Prop :=
  forall category metric values,
    collected avg_metrics category metric = Some values -> values <> [].

(** The result [result] holds a value for the metric [metric] of the
    category [category]. *)
Definition has_metric (result : eval_result) (category metric : string)
    : Prop :=
  exists metrics value,
    (category, Metrics metrics) ∈ result /\ (metric, value) ∈ metrics.

(** The result holds a value that is no dictionary. *)
Definition has_non_dict (result : eval_result) : Prop :=
  exists category type_name, (category, NotDict type_name) ∈ result.

(** The values that one result holds for the metric [metric] of the
    category [category], and those that a list of results holds, in
    order. *)
Definition entry_values (category metric : string) (item : string * entry)
    : list mvalue :=
  match snd item with
  | Metrics metrics =>
      if String.eqb (fst item) category
      then map snd (filter (fun p => fst p = metric) metrics)
      else []
  | NotDict _ => []
  end.

Definition values_of (evaluation_results : list eval_result)
    (category metric : string) : list mvalue :=
  flat_map (flat_map (entry_values category metric)) evaluation_results.

(** The values collected so far, an absent list read as the empty one. *)
Definition collected_list
    (avg_metrics : gmap string (gmap string (list mvalue)))
    (category metric : string) : list mvalue :=
  default [] (collected avg_metrics category metric).

(** The statistics that a report holds for a metric of a category. *)
Definition stat_of (metrics : gmap string (gmap string Stats))
    (category metric : string) : option Stats :=
  match metrics !! category with
  | Some inner => inner !! metric
  | None => None
  end.

(** Three results, as [calculate_rag_metrics] names the categories. *)
Definition sample_results : list eval_result :=
  [[("retrieval", Metrics [("precision", Num (5 / 10)); ("recall", Num 1)]);
    ("generation", Metrics [("relevance_score", Num (8 / 10))])];
   [("retrieval", Metrics [("precision", Num 1); ("recall", Num 1)])];
   [("generation", Metrics [("relevance_score", Num (6 / 10));
                             ("consistency_score", Num 1)])]].

(** The value is a number. *)
Definition is_num (value : mvalue) : bool :=
  match value with
  | Num _ => true
  | NotNum => false
  end.

(** The item of a result holds a dictionary of numbers. *)
Definition numeric_entry (item : string * entry) : bool :=
  match snd item with
  | Metrics metrics => forallb (fun p => is_num (snd p)) metrics
  | NotDict _ => false
  end.

(** Every value of every result is a dictionary of numbers. *)
Definition numeric_results (evaluation_results : list eval_result) : bool :=
  forallb (forallb numeric_entry) evaluation_results.

(** The report holds the category, and the mean of the metric, read as
    0 when the category does not hold the metric, is below the
    threshold. *)
Definition low_mean (metrics : gmap string (gmap string Stats))
    (category metric : string) (threshold : R) : Prop :=
  exists d, metrics !! category = Some d /\ mean_or_0 d metric < threshold.

End EvaluationReportProps.

(** * The line strategy, the fallback of the code strategies *)

Module LineChunking.
Import PyStr PyList Regex Chunking.

#[local] Open Scope Z_scope.

Section Lines.

Variable uuid4 : nat -> string.
Variable config : ChunkingAgentConfig.

Record line_state : Type := {
  ln_chunks : list ChunkedDocument;
  ln_index : Z;
  ln_current : list string;
  ln_tokens : Z
}.

(** The chunk that [_chunk_by_lines] builds from the lines collected. *)
Definition line_chunk (doc lang : option string) (meta : gmap string value)
    (st : line_state) : M ChunkedDocument :=
  let chunk_content := join (String nl EmptyString) (ln_current st) in
  i <- fresh uuid4 ;;
  new_chunk i doc chunk_content (ln_index st) "code_lines" lang
    (<["boundary_type" := VStr "line"]> meta)
    None None (ln_tokens st).

(** The body of the loop over the lines. *)
Definition line_step (doc lang : option string) (meta : gmap string value)
    (st : line_state) (line : string) : M line_state :=
  let line_tokens := Z.of_nat (word_count line) in
  if (chunk_size config <? ln_tokens st + line_tokens)
     && negb (is_nil (ln_current st))
  then
    chunk <- line_chunk doc lang meta st ;;
    let overlap_lines :=
      if (5 <=? length (ln_current st))%nat
      then slice_from (ln_current st) (-5)
      else ln_current st in
    let current_chunk := overlap_lines ++ [line] in
    ret {| ln_chunks := ln_chunks st ++ [chunk];
           ln_index := ln_index st + 1;
           ln_current := current_chunk;
           ln_tokens := sum_tokens current_chunk |}
  else
    ret {| ln_chunks := ln_chunks st; ln_index := ln_index st;
           ln_current := ln_current st ++ [line];
           ln_tokens := ln_tokens st + line_tokens |}.

(** [_chunk_by_lines] *)
Definition _chunk_by_lines (text : string) (doc lang : option string)
    (meta : gmap string value) : M (list ChunkedDocument) :=
  st <- foldM (line_step doc lang meta) (split_on nl text)
          {| ln_chunks := []; ln_index := 0; ln_current := [];
             ln_tokens := 0 |} ;;
  if is_nil (ln_current st) then ret (ln_chunks st)
  else
    chunk <- line_chunk doc lang meta st ;;
    ret (ln_chunks st ++ [chunk]).

End Lines.

End LineChunking.

(** * The code strategies *)

Module CodeChunking.
Import PyStr PyList Regex Chunking LineChunking.

#[local] Open Scope Z_scope.

(** What the chunker reads of a node that [ast.walk] yields:
    [type(node).__name__], [node.name], [node.lineno], [node.end_lineno]
    ([None] when the node has no such attribute) and whether
    [ast.get_docstring(node)] is not [None]. *)
Record ast_node : Type := {
  node_class : string;
  node_name : string;
  lineno : Z;
  end_lineno : option Z;
  has_docstring : bool
}.

(** What [ast.parse] makes of a text: a tree, given by the nodes that
    [ast.walk] yields, in that order; a [SyntaxError]; or another
    exception, with its text. *)
Inductive parse_result : Type :=
| Parsed : list ast_node -> parse_result
| SyntaxError : parse_result
| ParseFailure : string -> parse_result.

(** A match that [re.finditer] yields: [start()], [end()] and
    [group(1)]. *)
Record re_match : Type := {
  m_start : nat;
  m_end : nat;
  m_group : string
}.

(** [s[:n]] *)
Fixpoint take_chars (n : nat) (s : string) : string :=
  match n, s with
  | S n', String c s' => String c (take_chars n' s')
  | _, _ => EmptyString
  end.

(** [s.count(c)] for one character. *)
Fixpoint count_char (c : ascii) (s : string) : nat :=
  match s with
  | EmptyString => 0%nat
  | String x s' =>
      ((if Ascii.eqb x c then 1 else 0) + count_char c s')%nat
  end.

(** [matches.sort(key=lambda x: x.start())]: the sort is stable. *)
Fixpoint insert_match (m : re_match) (l : list re_match) : list re_match :=
  match l with
  | [] => [m]
  | m' :: l' =>
      if (m_start m <=? m_start m')%nat then m :: m' :: l'
      else m' :: insert_match m l'
  end.

Definition sort_matches (l : list re_match) : list re_match :=
  fold_right insert_match [] l.

(** [language in languages] *)
Definition language_in (language : option string) (languages : list string)
    : bool :=
  match language with
  | Some l => existsb (String.eqb l) languages
  | None => false
  end.

(** The patterns of [_chunk_generic_code], as the source writes them. *)
Definition generic_patterns (language : option string) : list string :=
  if language_in language ["javascript"; "typescript"] then
    ["(function\s+\w+\s*\([^)]*\)\s*{[^}]*})";
     "(const\s+\w+\s*=\s*\([^)]*\)\s*=>\s*{[^}]*})";
     "(class\s+\w+\s*{[^}]*})"]
  else if language_in language ["java"; "cpp"; "c"] then
    ["(public\s+class\s+\w+\s*{[^}]*})";
     "(private\s+\w+\s+\w+\s*\([^)]*\)\s*{[^}]*})";
     "(public\s+\w+\s+\w+\s*\([^)]*\)\s*{[^}]*})"]
  else
    ["(def\s+\w+\s*\([^)]*\)\s*:[^:]*:)";
     "(class\s+\w+\s*:[^:]*:)";
     "(function\s+\w+\s*\([^)]*\)\s*{[^}]*})"].

Section Code.

Variable uuid4 : nat -> string.
Variable config : ChunkingAgentConfig.

(** Python's [ast]: [ast_walk content] stands for
    [ast.walk(ast.parse(content))]. *)
Variable ast_walk : string -> parse_result.

(** Python's [re]: [finditer pattern content] stands for
    [re.finditer(pattern, content, re.MULTILINE | re.DOTALL)]. *)
Variable finditer : string -> string -> list re_match.

(** [isinstance(node, (ast.FunctionDef, ast.AsyncFunctionDef))] and
    [isinstance(node, (ast.FunctionDef, ast.AsyncFunctionDef,
    ast.ClassDef))] *)
Definition is_function (node : ast_node) : bool :=
  String.eqb (node_class node) "FunctionDef"
  || String.eqb (node_class node) "AsyncFunctionDef".

Definition is_definition (node : ast_node) : bool :=
  is_function node || String.eqb (node_class node) "ClassDef".

(** The body of the loop over the nodes; the loop carries the chunks and
    the next index. *)
Definition python_step (text : string) (doc : option string)
    (meta : gmap string value) (acc : list ChunkedDocument * Z)
    (node : ast_node) : M (list ChunkedDocument * Z) :=
  if is_definition node then
    let start_line := lineno node in
    let end_line :=
      match end_lineno node with
      | Some e => e
      | None => start_line
      end in
    let lines := split_on nl text in
    let node_content :=
      join (String nl EmptyString) (slice lines (start_line - 1) end_line) in
    i <- fresh uuid4 ;;
    chunk <- new_chunk i doc node_content (snd acc)
               (if is_function node then "code_function" else "code_class")
               (Some "python")
               (<["has_docstring" := VBool (has_docstring node)]>
                  (<["end_line" := VInt end_line]>
                     (<["start_line" := VInt start_line]>
                        (<["node_name" := VStr (node_name node)]>
                           (<["node_type" := VStr (node_class node)]>
                              meta)))))
               (Some start_line) (Some end_line)
               (Z.of_nat (word_count node_content)) ;;
    ret (fst acc ++ [chunk], snd acc + 1)
  else ret acc.

(** [_chunk_python_code] *)
Definition _chunk_python_code (text : string) (doc : option string)
    (meta : gmap string value) : M (list ChunkedDocument) :=
  match ast_walk text with
  | Parsed nodes =>
      acc <- foldM (python_step text doc meta) nodes ([], 0) ;;
      if is_nil (fst acc)
      then _chunk_by_lines uuid4 config text doc (Some "python") meta
      else ret (fst acc)
  | SyntaxError =>
      _chunk_by_lines uuid4 config text doc (Some "python") meta
  | ParseFailure message => raise (OtherError message)
  end.

(** The body of the loop over the matches. *)
Definition generic_step (text : string) (doc lang : option string)
    (meta : gmap string value) (acc : list ChunkedDocument * Z)
    (m : re_match) : M (list ChunkedDocument * Z) :=
  let chunk_content := m_group m in
  let start_line :=
    Z.of_nat (count_char nl (take_chars (m_start m) text)) + 1 in
  let end_line := Z.of_nat (count_char nl (take_chars (m_end m) text)) + 1 in
  i <- fresh uuid4 ;;
  chunk <- new_chunk i doc chunk_content (snd acc) "code_function" lang
             (<["end_line" := VInt end_line]>
                (<["start_line" := VInt start_line]>
                   (<["pattern_matched" := VBool true]> meta)))
             (Some start_line) (Some end_line)
             (Z.of_nat (word_count chunk_content)) ;;
  ret (fst acc ++ [chunk], snd acc + 1).

(** [_chunk_generic_code] *)
Definition _chunk_generic_code (text : string) (doc lang : option string)
    (meta : gmap string value) : M (list ChunkedDocument) :=
  let all_matches :=
    sort_matches
      (flat_map (fun pattern => finditer pattern text)
                (generic_patterns lang)) in
  acc <- foldM (generic_step text doc lang meta) all_matches ([], 0) ;;
  if is_nil (fst acc) then _chunk_by_lines uuid4 config text doc lang meta
  else ret (fst acc).

(** [_chunk_code] *)
Definition _chunk_code (text : string) (doc lang : option string)
    (meta : gmap string value) : M (list ChunkedDocument) :=
  if language_in lang ["python"] then _chunk_python_code text doc meta
  else _chunk_generic_code text doc lang meta.

End Code.

End CodeChunking.

(** * The properties stated about the strategies *)

Module StrategyProps.
Import PyStr PyList Regex Chunking LineChunking ChunkingProps.

#[local] Open Scope Z_scope.

(** The chunks [l] were built, in this order, with the identifiers that
    follow the [n] drawn before, for the document [d]: the chunk at
    position [i] has the identifier [uuid4 (n + i)] and the index [i]. *)
Definition emitted (uuid4 : nat -> string) (d : string) (n : nat)
    (l : list ChunkedDocument) : Prop :=
  forall (i : nat) (c : ChunkedDocument),
    l !! i = Some c ->
    id c = uuid4 (n + i)%nat /\ chunk_index c = Z.of_nat i
    /\ document_id c = d.

(** The line is a header of the markdown strategy. *)
Definition is_header (line : string) : bool :=
  re_match_dollar header_pattern line.

(** The lines [g] of a markdown section: no line after the first is a
    header, and the first is one unless the section is the first of the
    document. *)
Definition section_lines (position : nat) (g : list string) : Prop :=
  match g with
  | [] => False
  | h :: t =>
      (position <> 0%nat -> is_header h = true)
      /\ Forall (fun line => is_header line = false) t
  end.

(** The chunk of the line strategy for a content of one chunk. *)
Definition whole_chunk (i d text : string) (lang : option string)
    (meta : gmap string value) : ChunkedDocument :=
  {| id := i; document_id := d; content := text; chunk_index := 0;
     chunk_type := "code_lines"; language := lang;
     metadata := <["boundary_type" := VStr "line"]> meta;
     start_line := None; end_line := None;
     token_count := Z.of_nat (word_count text) |}.

(** The lines that the line strategy carries from a chunk into the
    next: [current_chunk[-5:] if len(current_chunk) >= 5 else
    current_chunk]. *)
Definition overlap_lines (current_chunk : list string) : list string :=
  if (5 <=? length current_chunk)%nat then slice_from current_chunk (-5)
  else current_chunk.

(** The lines of the chunks whose new lines are [parts], each chunk
    starting with the lines carried over from the chunk before it, whose
    lines are [previous]. *)
Fixpoint overlapped (previous : list string) (parts : list (list string))
    : list (list string) :=
  match parts with
  | [] => []
  | p :: parts' =>
      let g := overlap_lines previous ++ p in
      g :: overlapped g parts'
  end.

(** No character of [s] ends a sentence. *)
Fixpoint no_sentence_end (s : string) : bool :=
  match s with
  | EmptyString => true
  | String c s' => negb (is_sentence_end c) && no_sentence_end s'
  end.

(** The chunk passes the bounds of the validation pass. *)
Definition within_bounds (config : ChunkingAgentConfig)
    (chunk : ChunkedDocument) : bool :=
  (min_chunk_size config <=? words_of chunk)
  && (words_of chunk <=? max_chunk_size config).

(** The chunk is one that the validation pass splits. *)
Definition oversized (config : ChunkingAgentConfig)
    (chunk : ChunkedDocument) : bool :=
  (min_chunk_size config <=? words_of chunk)
  && (max_chunk_size config <? words_of chunk).

(** The source types for which [_detect_content_type] looks for code. *)
Definition repository_source (source_type : option string) : bool :=
  match source_type with
  | Some s => String.eqb s "github" || String.eqb s "branch"
  | None => false
  end.

(** Inputs of the examples. *)
Definition negative_config : ChunkingAgentConfig :=
  {| chunk_size := -1; chunk_overlap := 0; chunking_strategy := HYBRID;
     preserve_code_blocks := true; preserve_markdown_structure := true;
     min_chunk_size := 1; max_chunk_size := 3;
     language_detection := true; semantic_boundaries := true |}.

Definition sample_chunk (text : string) : ChunkedDocument :=
  {| id := "c"; document_id := "doc-1"; content := text; chunk_index := 0;
     chunk_type := "text_paragraph"; language := None; metadata := ∅;
     start_line := None; end_line := None;
     token_count := Z.of_nat (word_count text) |}.

End StrategyProps.

(** * The invariants of the loops of the strategies *)

Module StrategyInvariants.
Import PyStr PyList Regex Chunking LineChunking ChunkingProps StrategyProps.

#[local] Open Scope Z_scope.

Section Invariants.

Variable uuid4 : nat -> string.
Variable config : ChunkingAgentConfig.
Variable d : string.
Variable lang : option string.

(** The loop of [_chunk_markdown], after the lines [done]: the sections
    closed so far have the lines [groups]. *)
Record md_inv (n : nat) (done : list string) (st : md_state) (n' : nat)
    (groups : list (list string)) : Prop := {
  mi_counter : n' = (n + length (md_chunks st))%nat;
  mi_index : md_index st = Z.of_nat (length (md_chunks st));
  mi_emitted : emitted uuid4 d n (md_chunks st);
  mi_types : Forall (fun c => chunk_type c = "markdown_section")
               (md_chunks st);
  mi_contents : map content (md_chunks st)
                = map (join (String nl "")) groups;
  mi_lines : concat groups ++ md_current st = done;
  mi_sections : forall i g, groups !! i = Some g -> section_lines i g;
  mi_start : md_current st = [] -> groups = [] /\ done = [];
  mi_current : md_current st <> [] ->
               section_lines (length groups) (md_current st)
}.

(** What a chunk of the line strategy carries. *)
Definition line_chunk_ok (c : ChunkedDocument) : Prop :=
  chunk_type c = "code_lines" /\ language c = lang /\ counted c.

(** The loop of [_chunk_by_lines], after the lines [done]: the chunks
    closed so far have the new lines [parts], and the chunk being
    collected has the new lines [fresh]. *)
Record ln_inv (n : nat) (done : list string) (st : line_state) (n' : nat)
    (parts : list (list string)) (fresh : list string) : Prop := {
  li_counter : n' = (n + length (ln_chunks st))%nat;
  li_index : ln_index st = Z.of_nat (length (ln_chunks st));
  li_emitted : emitted uuid4 d n (ln_chunks st);
  li_chunks : Forall line_chunk_ok (ln_chunks st);
  li_contents : map content (ln_chunks st)
                = map (join (String nl "")) (overlapped [] parts);
  li_lines : concat parts ++ fresh = done;
  li_parts : Forall (fun p => p <> []) parts;
  li_current : ln_current st
               = overlap_lines (List.last (overlapped [] parts) []) ++ fresh;
  li_tokens : ln_tokens st = sum_tokens (ln_current st);
  li_start : fresh = [] -> done = [] /\ parts = [];
  li_small : sum_tokens done <= chunk_size config ->
             ln_chunks st = [] /\ parts = []
}.

(** What a chunk of the text strategy carries: the number of its words,
    which is at least 1, no language, and the type of a paragraph, of at
    most [chunk_size] words, or of a run of sentences. *)
Definition text_chunk_ok (c : ChunkedDocument) : Prop :=
  counted c /\ 1 <= token_count c /\ language c = None
  /\ ((chunk_type c = "text_paragraph"
       /\ token_count c <= chunk_size config)
      \/ chunk_type c = "text_semantic").

(** The loop over the paragraphs of [_chunk_text]. *)
Definition paragraphs_inv (n : nat) (acc : list ChunkedDocument * Z)
    (n' : nat) : Prop :=
  n' = (n + length (fst acc))%nat
  /\ snd acc = Z.of_nat (length (fst acc))
  /\ emitted uuid4 d n (fst acc)
  /\ Forall text_chunk_ok (fst acc).

(** The loop over the sentences of a long paragraph. *)
Definition sentences_inv (n : nat) (st : text_state) (n' : nat) : Prop :=
  paragraphs_inv n (tx_chunks st, tx_index st) n'
  /\ tx_tokens st = sum_tokens (tx_current st)
  /\ Forall (fun s => (1 <= word_count s)%nat) (tx_current st).

End Invariants.

(** Every character of [s] is white space. *)
Fixpoint all_space (s : string) : bool :=
  match s with
  | EmptyString => true
  | String c s' => is_space c && all_space s'
  end.

End StrategyInvariants.

(** * The properties stated about the validation pass *)

Module ValidationProps.
Import PyStr PyList Regex Chunking LineChunking CodeChunking ChunkingProps.

#[local] Open Scope Z_scope.

(** What the validation pass makes of one chunk: nothing when the chunk
    has fewer than [min_chunk_size] words; the chunk itself when the
    number of its words lies within the bounds; sub-chunks of it when it
    has more than [max_chunk_size] words. *)
Definition passes (config : ChunkingAgentConfig) (chunk : ChunkedDocument)
    (out : list ChunkedDocument) : Prop :=
  (words_of chunk < min_chunk_size config /\ out = [])
  \/ (in_bounds config chunk /\ out = [chunk])
  \/ (min_chunk_size config <= words_of chunk
      /\ max_chunk_size config < words_of chunk
      /\ Forall (sub_chunk_of config chunk) out).

(** The strategy that [process] chooses, with its arguments. *)
Definition strategy_chunks (uuid4 : nat -> string)
    (_chunk_code : string -> option string -> option string ->
                   gmap string value -> M (list ChunkedDocument))
    (config : ChunkingAgentConfig) (input_data : InputData)
    : M (list ChunkedDocument) :=
  let doc := in_document_id input_data in
  let text := get_default (in_content input_data) "" in
  let source_type := get_default (in_source_type input_data) "text" in
  let meta := get_default (in_metadata input_data) ∅ in
  let type := _detect_content_type text source_type in
  let lang :=
    if language_detection config then _detect_language text type
    else None in
  if String.eqb type "code" then _chunk_code text doc lang meta
  else if String.eqb type "markdown" then _chunk_markdown uuid4 text doc meta
  else if String.eqb type "text" then _chunk_text uuid4 config text doc meta
  else _chunk_hybrid uuid4 _chunk_code config text doc type lang meta.

(** [ChunkingAgent.process], the code strategies included; Python's
    [ast] and [re.finditer] are its parameters. *)
Definition agent_process (uuid4 : nat -> string)
    (ast_walk : string -> parse_result)
    (finditer : string -> string -> list re_match)
    (validation_text : string) (config : ChunkingAgentConfig)
    (input_data : InputData) : AgentResult :=
  process uuid4 (_chunk_code uuid4 config ast_walk finditer)
    validation_text config input_data.

(** Inputs of the examples: a text that [ast] parses into one function
    of the lines 1 to 2, and no match of any pattern. *)
Definition sample_ast (text : string) : parse_result :=
  Parsed [{| node_class := "Module"; node_name := ""; lineno := 0;
             end_lineno := None; has_docstring := false |};
          {| node_class := "FunctionDef"; node_name := "f"; lineno := 1;
             end_lineno := Some 2; has_docstring := false |}].

Definition no_match (pattern text : string) : list re_match := [].

Definition code_input (text : string) : InputData :=
  {| in_document_id := Some "doc-1"; in_content := Some text;
     in_source_type := Some "github"; in_metadata := None |}.

Definition sample_code : string :=
  join (String Regex.newline "")
       ["def f(x):"; "    return x + x + x + x"; ""; "print(f(1))"].

End ValidationProps.

(** * Facts about the string primitives *)

Module PyStrFacts.
Import PyStr.

Lemma split_starts_word (s : string) :
  starts_word s = true -> split s <> [].
Proof.
  destruct s as [|c s]; simpl; [discriminate|].
  intros H. apply negb_true_iff in H. rewrite H.
  destruct (starts_word s).
  - destruct (split s); discriminate.
  - discriminate.
Qed.

Lemma cons_first_app (c : ascii) (l1 l2 : list string) :
  l1 <> [] -> cons_first c (l1 ++ l2) = cons_first c l1 ++ l2.
Proof. destruct l1; [congruence | reflexivity]. Qed.

Lemma starts_word_app (a b : string) (c : ascii) :
  starts_word (a +:+ String c b)
  = if is_empty a then negb (is_space c) else starts_word a.
Proof. destruct a; reflexivity. Qed.

(** Splitting distributes over a white-space character. *)
Lemma split_app_space (a b : string) (c : ascii) :
  is_space c = true -> split (a +:+ String c b) = split a ++ split b.
Proof.
  intros Hc. induction a as [|x a IH]; simpl.
  - rewrite Hc. reflexivity.
  - destruct (is_space x) eqn:Hx; [exact IH|].
    rewrite starts_word_app. destruct a as [|y a]; simpl in *.
    + rewrite Hc in *. simpl. reflexivity.
    + destruct (is_space y) eqn:Hy; simpl.
      * rewrite IH. reflexivity.
      * rewrite IH. apply cons_first_app.
        destruct (starts_word a); [destruct (split a)|]; discriminate.
Qed.

Lemma is_token_cons (c : ascii) (w : string) :
  is_token (String c w) = negb (is_space c) && no_space w.
Proof. reflexivity. Qed.

Lemma split_token (w : string) : is_token w = true -> split w = [w].
Proof.
  induction w as [|c w IH]; [discriminate|].
  rewrite is_token_cons. intros H. apply andb_true_iff in H as [Hc Hw].
  apply negb_true_iff in Hc. simpl. rewrite Hc.
  destruct w as [|c' w]; [reflexivity|].
  assert (Ht : is_token (String c' w) = true) by exact Hw.
  rewrite (IH Ht).
  simpl in Hw. apply andb_true_iff in Hw as [Hc' _].
  simpl. rewrite Hc'. reflexivity.
Qed.

Lemma split_all_tokens (s : string) :
  Forall (fun w => is_token w = true) (split s).
Proof.
  induction s as [|c s IH]; simpl; [constructor|].
  destruct (is_space c) eqn:Hc; [exact IH|].
  destruct (starts_word s) eqn:Hs.
  - destruct (split s) as [|w ws]; simpl.
    + repeat constructor. rewrite is_token_cons, Hc. reflexivity.
    + inversion IH as [|? ? Hw Hws]; subst. constructor; [|exact Hws].
      rewrite is_token_cons, Hc. simpl.
      apply andb_true_iff in Hw as [_ Hw]. exact Hw.
  - constructor; [|exact IH]. rewrite is_token_cons, Hc. reflexivity.
Qed.

Lemma join_cons (sep w w' : string) (ws : list string) :
  join sep (w :: w' :: ws) = w +:+ sep +:+ join sep (w' :: ws).
Proof. reflexivity. Qed.

(** Splitting a joined list splits each piece. *)
Lemma split_join (l : list string) :
  split (join " " l) = concat (map split l).
Proof.
  induction l as [|w l IH]; [reflexivity|].
  destruct l as [|w' l].
  - simpl. rewrite app_nil_r. reflexivity.
  - rewrite join_cons.
    change (" " +:+ join " " (w' :: l)) with (String " " (join " " (w' :: l))).
    rewrite split_app_space by reflexivity.
    rewrite IH. reflexivity.
Qed.

(** Joining tokens with a space and splitting again gives the tokens. *)
Lemma split_join_tokens (ws : list string) :
  Forall (fun w => is_token w = true) ws -> split (join " " ws) = ws.
Proof.
  intros H. rewrite split_join.
  induction H as [|w ws Hw _ IH]; [reflexivity|].
  simpl. rewrite (split_token w Hw), IH. reflexivity.
Qed.

Lemma word_count_join_tokens (ws : list string) :
  Forall (fun w => is_token w = true) ws ->
  word_count (join " " ws) = length ws.
Proof. intros H. unfold word_count. rewrite split_join_tokens; auto. Qed.

End PyStrFacts.

(** * Facts about the chunking agent *)

Module ChunkingFacts.
Import PyStr PyList Regex Chunking LineChunking CodeChunking PyStrFacts
  ChunkingProps ValidationProps.

#[local] Open Scope Z_scope.

Lemma bind_ok {A B} (m : M A) (f : A -> M B) (n : nat) (b : B) (n' : nat) :
  bind m f n = Ok (b, n') <->
  exists a n1, m n = Ok (a, n1) /\ f a n1 = Ok (b, n').
Proof.
  unfold bind. split.
  - destruct (m n) as [[a n1]|e]; [|discriminate]. intros H. eauto.
  - intros (a & n1 & -> & H). exact H.
Qed.

Lemma ret_ok {A} (a b : A) (n n' : nat) :
  ret a n = Ok (b, n') <-> a = b /\ n = n'.
Proof. unfold ret. split; [intros [= -> ->] | intros [-> ->]]; auto. Qed.

(** A property that every step of a loop preserves holds at its end. *)
Lemma foldM_invariant {A S} (I : S -> Prop) (f : S -> A -> M S)
    (l : list A) :
  (forall s x n s' n', I s -> x ∈ l -> f s x n = Ok (s', n') -> I s') ->
  forall s n s' n', I s -> foldM f l s n = Ok (s', n') -> I s'.
Proof.
  induction l as [|x l IH]; intros Hstep s n s' n' Hs H; simpl in H.
  - apply ret_ok in H as [-> _]. exact Hs.
  - apply bind_ok in H as (s1 & n1 & H1 & H2).
    eapply IH; [| |exact H2].
    + intros. eapply Hstep; eauto. set_solver.
    + eapply Hstep; eauto. set_solver.
Qed.

(** A loop whose steps all return does return. *)
Lemma foldM_total {A S} (f : S -> A -> M S) (l : list A) :
  (forall s x n, x ∈ l -> exists s' n', f s x n = Ok (s', n')) ->
  forall s n, exists s' n', foldM f l s n = Ok (s', n').
Proof.
  induction l as [|x l IH]; intros Hstep s n; simpl.
  - eexists _, _. reflexivity.
  - destruct (Hstep s x n) as (s1 & n1 & H1); [set_solver|].
    destruct (IH (fun s x n H => Hstep s x n ltac:(set_solver)) s1 n1)
      as (s2 & n2 & H2).
    exists s2, n2. apply bind_ok. eauto.
Qed.

Section Validation.

Variable uuid4 : nat -> string.
Variable config : ChunkingAgentConfig.

#[local] Abbreviation sub_chunk_of := (ChunkingProps.sub_chunk_of config).
#[local] Abbreviation in_bounds := (ChunkingProps.in_bounds config).
#[local] Abbreviation validated := (ChunkingProps.validated config).

(** The offsets that [range(0, len, chunk_size)] yields lie inside the
    list, and there are none unless [chunk_size] is positive. *)
Lemma range_offsets (len : nat) (offsets : list Z) (i : Z) :
  range 0 (Z.of_nat len) (chunk_size config) = Some offsets ->
  i ∈ offsets -> 0 < chunk_size config /\ 0 <= i < Z.of_nat len.
Proof.
  unfold range, range_len.
  destruct (Z.eqb_spec (chunk_size config) 0) as [|Hne]; [discriminate|].
  set (cs := chunk_size config) in *.
  intros [= <-] Hi.
  apply list_elem_of_fmap in Hi as (k & -> & Hk).
  apply list_elem_of_In, in_seq in Hk.
  destruct (Z.ltb_spec 0 cs) as [Hcs|Hcs].
  - replace (Z.of_nat len - 0 + cs - 1) with (Z.of_nat len + cs - 1)
      in Hk by lia.
    assert (Hq : cs * ((Z.of_nat len + cs - 1) / cs) <= Z.of_nat len + cs - 1)
      by (apply Z.mul_div_le; lia).
    set (q := (Z.of_nat len + cs - 1) / cs) in *.
    assert (Hk' : Z.of_nat k + 1 <= q) by lia.
    split; [exact Hcs|]. nia.
  - exfalso.
    assert (Hq : (0 - Z.of_nat len - cs - 1) / - cs <= 0).
    { apply Z.lt_succ_r. apply Z.div_lt_upper_bound; lia. }
    lia.
Qed.

Lemma slice_window {A} (l : list A) (i : Z) :
  0 < chunk_size config -> 0 <= i < Z.of_nat (length l) ->
  1 <= Z.of_nat (length (slice l i (i + chunk_size config)))
    <= chunk_size config.
Proof.
  intros Hcs Hi. unfold slice, clamp.
  destruct (Z.ltb_spec i 0) as [|_]; [lia|].
  destruct (Z.ltb_spec (i + chunk_size config) 0) as [|_]; [lia|].
  rewrite length_take, length_drop. lia.
Qed.

Lemma slice_Forall {A} (P : A -> Prop) (l : list A) (i j : Z) :
  Forall P l -> Forall P (slice l i j).
Proof. intros H. unfold slice. apply Forall_take, Forall_drop, H. Qed.

(** Building a sub-chunk never raises: the parent's [document_id] is a
    [str]. *)
Lemma sub_chunk_total (parent : ChunkedDocument) (words : list string)
    (i : Z) (n : nat) :
  exists c, sub_chunk uuid4 config parent words i n = Ok (c, S n).
Proof. eexists. reflexivity. Qed.

Lemma sub_chunk_ok (parent c : ChunkedDocument) (i : Z) (n n' : nat) :
  0 < chunk_size config ->
  0 <= i < Z.of_nat (word_count (content parent)) ->
  sub_chunk uuid4 config parent (split (content parent)) i n = Ok (c, n') ->
  sub_chunk_of parent c.
Proof.
  intros Hcs Hi [= <- _].
  assert (Hw : word_count
                 (join " " (slice (split (content parent)) i
                                  (i + chunk_size config)))
               = length (slice (split (content parent)) i
                               (i + chunk_size config))).
  { apply word_count_join_tokens, slice_Forall, split_all_tokens. }
  constructor; simpl.
  - reflexivity.
  - reflexivity.
  - reflexivity.
  - reflexivity.
  - split; reflexivity.
  - apply lookup_insert_eq.
  - rewrite lookup_insert_ne by discriminate. apply lookup_insert_eq.
  - reflexivity.
  - rewrite Hw. apply slice_window; assumption.
Qed.

(** What [_split_large_chunk] returns are sub-chunks of its argument. *)
Lemma split_large_chunk_inv (parent : ChunkedDocument) (n n' : nat)
    (subs : list ChunkedDocument) :
  _split_large_chunk uuid4 config parent n = Ok (subs, n') ->
  Forall (sub_chunk_of parent) subs.
Proof.
  unfold _split_large_chunk.
  destruct (range 0 _ (chunk_size config)) as [offsets|] eqn:Hr;
    [|discriminate].
  apply (foldM_invariant (Forall (sub_chunk_of parent))); [|constructor].
  intros s i m s' m' Hs Hi Hstep.
  apply bind_ok in Hstep as (c & m1 & Hc & Hret).
  apply ret_ok in Hret as [<- _].
  destruct (range_offsets _ _ _ Hr Hi) as [Hcs Hb].
  apply Forall_app. split; [exact Hs|].
  apply Forall_singleton. eapply sub_chunk_ok; eauto.
Qed.

(** [_split_large_chunk] raises for a zero [chunk_size] only. *)
Lemma split_large_chunk_total (parent : ChunkedDocument) (n : nat) :
  chunk_size config <> 0 ->
  exists subs n', _split_large_chunk uuid4 config parent n = Ok (subs, n').
Proof.
  intros Hcs. unfold _split_large_chunk, range.
  destruct (Z.eqb_spec (chunk_size config) 0) as [|_]; [contradiction|].
  apply foldM_total. intros s i m _.
  destruct (sub_chunk_total parent (split (content parent)) i m) as [c Hc].
  eexists _, _. apply bind_ok. eexists _, _. split; [exact Hc|reflexivity].
Qed.

Lemma split_large_chunk_zero (chunk : ChunkedDocument) (n : nat) :
  chunk_size config = 0 ->
  _split_large_chunk uuid4 config chunk n = Raise ValueError.
Proof. intros H. unfold _split_large_chunk, range. rewrite H. reflexivity. Qed.

Lemma validated_mono (l1 l2 : list ChunkedDocument) (c : ChunkedDocument) :
  l1 ⊆ l2 -> validated l1 c -> validated l2 c.
Proof.
  intros Hsub [[Hin Hb]|(p & Hin & H)].
  - left. split; [exact (Hsub _ Hin)|exact Hb].
  - right. exists p. split; [exact (Hsub _ Hin)|exact H].
Qed.

Lemma validate_step_inv (acc res : list ChunkedDocument)
    (chunk : ChunkedDocument) (n n' : nat) :
  validate_step uuid4 config acc chunk n = Ok (res, n') ->
  exists out, res = acc ++ out
    /\ Forall (validated [chunk]) out
    /\ (in_bounds chunk -> out = [chunk]).
Proof.
  unfold validate_step, in_bounds. fold (words_of chunk).
  destruct (Z.ltb_spec (words_of chunk) (min_chunk_size config)) as [Hlo|Hlo].
  - intros H. apply ret_ok in H as [<- _]. exists [].
    rewrite app_nil_r. split; [reflexivity|]. split; [constructor|lia].
  - destruct (Z.ltb_spec (max_chunk_size config) (words_of chunk))
      as [Hhi|Hhi]; intros H.
    + apply bind_ok in H as (subs & n1 & Hs & H).
      apply ret_ok in H as [<- _]. exists subs.
      split; [reflexivity|]. split; [|lia].
      eapply Forall_impl; [exact (split_large_chunk_inv _ _ _ _ Hs)|].
      intros c Hc. right. exists chunk.
      split; [apply list_elem_of_singleton; reflexivity|auto].
    + apply ret_ok in H as [<- _]. exists [chunk].
      split; [reflexivity|]. split; [|reflexivity].
      apply Forall_singleton. left.
      split; [apply list_elem_of_singleton; reflexivity|].
      unfold in_bounds. lia.
Qed.

Lemma validate_fold_inv (l acc res : list ChunkedDocument) (n n' : nat) :
  foldM (validate_step uuid4 config) l acc n = Ok (res, n') ->
  exists out, res = acc ++ out
    /\ Forall (validated l) out
    /\ (forall c, c ∈ l -> in_bounds c -> c ∈ out).
Proof.
  revert acc n.
  induction l as [|chunk l IH]; intros acc n H; simpl in H.
  - apply ret_ok in H as [<- _]. exists []. rewrite app_nil_r.
    split; [reflexivity|]. split; [constructor|].
    intros c Hc. apply elem_of_nil in Hc. contradiction.
  - apply bind_ok in H as (r1 & n1 & H1 & H2).
    apply validate_step_inv in H1 as (o1 & -> & Hv1 & Hb1).
    apply IH in H2 as (o2 & -> & Hv2 & Hb2).
    exists (o1 ++ o2). split; [rewrite app_assoc; reflexivity|]. split.
    + apply Forall_app. split.
      * eapply Forall_impl; [exact Hv1|].
        intros c. apply validated_mono.
        intros x Hx. apply list_elem_of_singleton in Hx as ->.
        apply elem_of_cons. left. reflexivity.
      * eapply Forall_impl; [exact Hv2|].
        intros c. apply validated_mono.
        intros x Hx. apply elem_of_cons. right. exact Hx.
    + intros c Hc Hb. apply elem_of_app.
      apply elem_of_cons in Hc as [->|Hc].
      * left. rewrite (Hb1 Hb). apply list_elem_of_singleton. reflexivity.
      * right. exact (Hb2 c Hc Hb).
Qed.

(** The validation pass lets through exactly the chunks within the
    bounds and the sub-chunks of the chunks over the upper bound. *)
Lemma validate_chunks_inv (l l' : list ChunkedDocument) (n n' : nat) :
  _validate_chunks uuid4 config l n = Ok (l', n') ->
  Forall (validated l) l' /\ (forall c, c ∈ l -> in_bounds c -> c ∈ l').
Proof.
  intros H. apply validate_fold_inv in H as (out & -> & H). exact H.
Qed.

(** It raises for a zero [chunk_size] only. *)
Lemma validate_chunks_total (l : list ChunkedDocument) (n : nat) :
  chunk_size config <> 0 ->
  exists l' n', _validate_chunks uuid4 config l n = Ok (l', n').
Proof.
  intros Hcs. apply foldM_total. intros acc chunk m _.
  unfold validate_step.
  destruct (_ <? min_chunk_size config); [eexists _, _; reflexivity|].
  destruct (max_chunk_size config <? _); [|eexists _, _; reflexivity].
  destruct (split_large_chunk_total chunk m Hcs) as (subs & m' & Hs).
  eexists _, _. apply bind_ok. eexists _, _. split; [exact Hs|reflexivity].
Qed.

End Validation.

(** ** The strategies count the words of what they emit *)

Lemma sum_tokens_app (l : list string) (s : string) :
  sum_tokens (l ++ [s]) = sum_tokens l + Z.of_nat (word_count s).
Proof.
  induction l as [|x l IH]; simpl; [lia|].
  unfold sum_tokens in *. simpl. rewrite IH. lia.
Qed.

Lemma word_count_join (l : list string) :
  Z.of_nat (word_count (join " " l)) = sum_tokens l.
Proof.
  unfold word_count. rewrite split_join.
  induction l as [|x l IH]; [reflexivity|].
  simpl. rewrite length_app, Nat2Z.inj_add, IH. reflexivity.
Qed.

Lemma split_join_lines (l : list string) :
  split (join (String nl "") l) = concat (map split l).
Proof.
  induction l as [|w l IH]; [reflexivity|].
  destruct l as [|w' l].
  - simpl. rewrite app_nil_r. reflexivity.
  - rewrite join_cons.
    change (String nl "" +:+ join (String nl "") (w' :: l))
      with (String nl (join (String nl "") (w' :: l))).
    rewrite split_app_space by reflexivity.
    rewrite IH. reflexivity.
Qed.

Lemma word_count_join_lines (l : list string) :
  Z.of_nat (word_count (join (String nl "") l)) = sum_tokens l.
Proof.
  unfold word_count. rewrite split_join_lines.
  induction l as [|x l IH]; [reflexivity|].
  simpl. rewrite length_app, Nat2Z.inj_add, IH. reflexivity.
Qed.

Section StrategyFacts.

Variable uuid4 : nat -> string.

Lemma new_chunk_ok (i : string) (doc : option string) (text : string)
    (index : Z) (type : string) (lang : option string)
    (meta : gmap string value) (first last : option Z) (tokens : Z)
    (n n' : nat) (c : ChunkedDocument) :
  new_chunk i doc text index type lang meta first last tokens n = Ok (c, n')
  -> content c = text /\ token_count c = tokens /\ chunk_type c = type
     /\ metadata c = meta /\ doc = Some (document_id c).
Proof.
  unfold new_chunk. destruct doc as [d|]; [|discriminate].
  intros H. apply ret_ok in H as [<- _]. simpl. auto.
Qed.

Lemma markdown_chunk_counted (doc : option string)
    (meta : gmap string value) (index : Z) (current : list string)
    (header : option string) (n n' : nat) (c : ChunkedDocument) :
  markdown_chunk uuid4 doc meta index current header n = Ok (c, n') ->
  counted c.
Proof.
  unfold markdown_chunk. intros H.
  apply bind_ok in H as (i & n1 & _ & H).
  apply new_chunk_ok in H as (Hc & Ht & _).
  unfold counted, words_of. rewrite Ht, Hc. reflexivity.
Qed.

Lemma chunk_markdown_counted (text : string) (doc : option string)
    (meta : gmap string value) (n n' : nat) (l : list ChunkedDocument) :
  _chunk_markdown uuid4 text doc meta n = Ok (l, n') -> Forall counted l.
Proof.
  unfold _chunk_markdown. intros H.
  apply bind_ok in H as (st & n1 & Hfold & H).
  assert (Hst : Forall counted (md_chunks st)).
  { eapply (foldM_invariant (fun st => Forall counted (md_chunks st)));
      [| |exact Hfold]; [|constructor].
    intros s line m s' m' Hs _ Hstep. unfold md_step in Hstep.
    destruct (re_match_dollar header_pattern line).
    - apply bind_ok in Hstep as (s1 & m1 & H1 & H2).
      apply ret_ok in H2 as [<- _]. simpl.
      destruct (is_nil (md_current s)).
      + apply ret_ok in H1 as [<- _]. exact Hs.
      + apply bind_ok in H1 as (c & m2 & Hc & H1).
        apply ret_ok in H1 as [<- _]. simpl.
        apply Forall_app. split; [exact Hs|].
        apply Forall_singleton. eapply markdown_chunk_counted, Hc.
    - apply ret_ok in Hstep as [<- _]. exact Hs. }
  destruct (is_nil (md_current st)).
  - apply ret_ok in H as [<- _]. exact Hst.
  - apply bind_ok in H as (c & m2 & Hc & H).
    apply ret_ok in H as [<- _].
    apply Forall_app. split; [exact Hst|].
    apply Forall_singleton. eapply markdown_chunk_counted, Hc.
Qed.

Variable config : ChunkingAgentConfig.

Lemma semantic_chunk_counted (doc : option string)
    (meta : gmap string value) (st : text_state) (n n' : nat)
    (c : ChunkedDocument) :
  tx_tokens st = sum_tokens (tx_current st) ->
  semantic_chunk uuid4 doc meta st n = Ok (c, n') -> counted c.
Proof.
  unfold semantic_chunk. intros Hst H.
  apply bind_ok in H as (i & n1 & _ & H).
  apply new_chunk_ok in H as (Hc & Ht & _).
  unfold counted, words_of. rewrite Ht, Hc, word_count_join. exact Hst.
Qed.

Lemma sentence_step_invariant (doc : option string)
    (meta : gmap string value) (st st' : text_state) (sentence : string)
    (n n' : nat) :
  text_invariant st ->
  sentence_step uuid4 config doc meta st sentence n = Ok (st', n') ->
  text_invariant st'.
Proof.
  intros [Hc Ht] H. unfold sentence_step in H.
  destruct (_ && _).
  - apply bind_ok in H as (c & n1 & Hchunk & H).
    apply ret_ok in H as [<- _]. split; simpl; [|reflexivity].
    apply Forall_app. split; [exact Hc|].
    apply Forall_singleton. eapply semantic_chunk_counted; eauto.
  - apply ret_ok in H as [<- _]. split; simpl; [exact Hc|].
    rewrite sum_tokens_app, Ht. reflexivity.
Qed.

Lemma paragraph_step_counted (doc : option string)
    (meta : gmap string value) (acc acc' : list ChunkedDocument * Z)
    (paragraph : string) (n n' : nat) :
  Forall counted (fst acc) ->
  paragraph_step uuid4 config doc meta acc paragraph n = Ok (acc', n') ->
  Forall counted (fst acc').
Proof.
  intros Hacc H. unfold paragraph_step in H.
  destruct (is_empty (strip paragraph)).
  { apply ret_ok in H as [<- _]. exact Hacc. }
  destruct (_ <? _).
  - apply bind_ok in H as (st & n1 & Hfold & H).
    assert (Hst : text_invariant st).
    { eapply (foldM_invariant text_invariant); [| |exact Hfold].
      - intros s x m s' m' Hs _ Hstep.
        eapply sentence_step_invariant; eauto.
      - split; [exact Hacc|reflexivity]. }
    destruct Hst as [Hc Ht]. destruct (is_nil (tx_current st)).
    + apply ret_ok in H as [<- _]. exact Hc.
    + apply bind_ok in H as (c & n2 & Hchunk & H).
      apply ret_ok in H as [<- _]. simpl.
      apply Forall_app. split; [exact Hc|].
      apply Forall_singleton. eapply semantic_chunk_counted; eauto.
  - apply bind_ok in H as (i & n1 & _ & H).
    apply bind_ok in H as (c & n2 & Hchunk & H).
    apply ret_ok in H as [<- _]. simpl.
    apply Forall_app. split; [exact Hacc|].
    apply Forall_singleton. apply new_chunk_ok in Hchunk as (Hc & Ht & _).
    unfold counted, words_of. rewrite Ht, Hc. reflexivity.
Qed.

Lemma chunk_text_counted (text : string) (doc : option string)
    (meta : gmap string value) (n n' : nat) (l : list ChunkedDocument) :
  _chunk_text uuid4 config text doc meta n = Ok (l, n') -> Forall counted l.
Proof.
  unfold _chunk_text. intros H.
  apply bind_ok in H as (acc & n1 & Hfold & H).
  apply ret_ok in H as [<- _].
  eapply (foldM_invariant (fun acc => Forall counted (fst acc)));
    [| |exact Hfold]; [|constructor].
  intros s x m s' m' Hs _ Hstep. eapply paragraph_step_counted; eauto.
Qed.

End StrategyFacts.

(** ** [process] *)

Section ProcessFacts.

Variable uuid4 : nat -> string.
Variable _chunk_code :
  string -> option string -> option string -> gmap string value ->
  M (list ChunkedDocument).
Variable validation_text : string.
Variable config : ChunkingAgentConfig.

Hypothesis chunk_code_counted :
  forall text doc lang meta n l n',
    _chunk_code text doc lang meta n = Ok (l, n') -> Forall counted l.

Lemma chunk_hybrid_counted (text : string) (doc : option string)
    (type : string) (lang : option string) (meta : gmap string value)
    (n n' : nat) (l : list ChunkedDocument) :
  _chunk_hybrid uuid4 _chunk_code config text doc type lang meta n
  = Ok (l, n') -> Forall counted l.
Proof.
  unfold _chunk_hybrid.
  destruct (String.eqb type "code"); [apply chunk_code_counted|].
  destruct (String.eqb type "markdown");
    [apply chunk_markdown_counted | apply chunk_text_counted].
Qed.

Lemma validated_sized (l : list ChunkedDocument) (c : ChunkedDocument) :
  Forall counted l -> validated config l c -> sized config c.
Proof.
  intros Hl [[Hin Hb]|(p & Hin & Hlo & Hhi & Hsub)].
  - assert (Hc : counted c).
    { rewrite Forall_forall in Hl. apply Hl. exact Hin. }
    split; [exact Hc|]. left. rewrite Hc. exact Hb.
  - destruct Hsub. split; [assumption|]. right. eauto.
Qed.

Lemma process_body_sized (input_data : InputData) (d : ProcessData)
    (n n' : nat) :
  process_body uuid4 _chunk_code config input_data n = Ok (d, n') ->
  Forall (sized config) (chunks d).
Proof.
  unfold process_body. intros H.
  apply bind_ok in H as (l & n1 & Hl & H).
  apply bind_ok in H as (l' & n2 & Hv & H).
  apply ret_ok in H as [<- _]. simpl.
  assert (Hcounted : Forall counted l).
  { destruct (String.eqb _ "code"); [eapply chunk_code_counted, Hl|].
    destruct (String.eqb _ "markdown"); [eapply chunk_markdown_counted, Hl|].
    destruct (String.eqb _ "text"); [eapply chunk_text_counted, Hl|].
    eapply chunk_hybrid_counted, Hl. }
  apply validate_chunks_inv in Hv as [Hv _].
  eapply Forall_impl; [exact Hv|].
  intros c. apply validated_sized, Hcounted.
Qed.

End ProcessFacts.

(** ** The code strategies count the words of what they emit *)

Section CodeFacts.

Variable uuid4 : nat -> string.
Variable config : ChunkingAgentConfig.
Variable ast_walk : string -> parse_result.
Variable finditer : string -> string -> list re_match.

Lemma line_chunk_counted (doc lang : option string)
    (meta : gmap string value) (st : line_state) (n n' : nat)
    (c : ChunkedDocument) :
  ln_tokens st = sum_tokens (ln_current st) ->
  line_chunk uuid4 doc lang meta st n = Ok (c, n') -> counted c.
Proof.
  unfold line_chunk. intros Hst H.
  apply bind_ok in H as (i & n1 & _ & H).
  apply new_chunk_ok in H as (Hc & Ht & _).
  unfold counted, words_of. rewrite Ht, Hc, word_count_join_lines.
  exact Hst.
Qed.

Lemma chunk_by_lines_counted (text : string) (doc lang : option string)
    (meta : gmap string value) (n n' : nat) (l : list ChunkedDocument) :
  _chunk_by_lines uuid4 config text doc lang meta n = Ok (l, n') ->
  Forall counted l.
Proof.
  unfold _chunk_by_lines. intros H.
  apply bind_ok in H as (st & n1 & Hfold & H).
  assert (Hst : Forall counted (ln_chunks st)
                /\ ln_tokens st = sum_tokens (ln_current st)).
  { eapply (foldM_invariant
              (fun st => Forall counted (ln_chunks st)
                         /\ ln_tokens st = sum_tokens (ln_current st)));
      [| |exact Hfold]; [|split; [constructor|reflexivity]].
    intros s line m s' m' [Hc Ht] _ Hstep. unfold line_step in Hstep.
    destruct (_ && _).
    - apply bind_ok in Hstep as (c & m1 & Hchunk & Hstep).
      apply ret_ok in Hstep as [<- _]. simpl. split; [|reflexivity].
      apply Forall_app. split; [exact Hc|].
      apply Forall_singleton. eapply line_chunk_counted; eauto.
    - apply ret_ok in Hstep as [<- _]. simpl. split; [exact Hc|].
      rewrite sum_tokens_app, Ht. reflexivity. }
  destruct Hst as [Hc Ht]. destruct (is_nil (ln_current st)).
  - apply ret_ok in H as [<- _]. exact Hc.
  - apply bind_ok in H as (c & m2 & Hchunk & H).
    apply ret_ok in H as [<- _].
    apply Forall_app. split; [exact Hc|].
    apply Forall_singleton. eapply line_chunk_counted; eauto.
Qed.

Lemma chunk_python_code_counted (text : string) (doc : option string)
    (meta : gmap string value) (n n' : nat) (l : list ChunkedDocument) :
  _chunk_python_code uuid4 config ast_walk text doc meta n = Ok (l, n') ->
  Forall counted l.
Proof.
  unfold _chunk_python_code. destruct (ast_walk text) as [nodes| |message].
  - intros H. apply bind_ok in H as (acc & n1 & Hfold & H).
    assert (Hacc : Forall counted (fst acc)).
    { eapply (foldM_invariant (fun acc => Forall counted (fst acc)));
        [| |exact Hfold]; [|constructor].
      intros s node m s' m' Hs _ Hstep. unfold python_step in Hstep.
      destruct (is_definition node).
      - apply bind_ok in Hstep as (i & m1 & _ & Hstep).
        apply bind_ok in Hstep as (c & m2 & Hchunk & Hstep).
        apply ret_ok in Hstep as [<- _]. simpl.
        apply Forall_app. split; [exact Hs|].
        apply Forall_singleton.
        apply new_chunk_ok in Hchunk as (Hc & Ht & _).
        unfold counted, words_of. rewrite Ht, Hc. reflexivity.
      - apply ret_ok in Hstep as [<- _]. exact Hs. }
    destruct (is_nil (fst acc)).
    + apply chunk_by_lines_counted in H. exact H.
    + apply ret_ok in H as [<- _]. exact Hacc.
  - apply chunk_by_lines_counted.
  - discriminate.
Qed.

Lemma chunk_generic_code_counted (text : string) (doc lang : option string)
    (meta : gmap string value) (n n' : nat) (l : list ChunkedDocument) :
  _chunk_generic_code uuid4 config finditer text doc lang meta n
  = Ok (l, n') ->
  Forall counted l.
Proof.
  unfold _chunk_generic_code. intros H.
  apply bind_ok in H as (acc & n1 & Hfold & H).
  assert (Hacc : Forall counted (fst acc)).
  { eapply (foldM_invariant (fun acc => Forall counted (fst acc)));
      [| |exact Hfold]; [|constructor].
    intros s m k s' k' Hs _ Hstep. unfold generic_step in Hstep.
    apply bind_ok in Hstep as (i & m1 & _ & Hstep).
    apply bind_ok in Hstep as (c & m2 & Hchunk & Hstep).
    apply ret_ok in Hstep as [<- _]. simpl.
    apply Forall_app. split; [exact Hs|].
    apply Forall_singleton.
    apply new_chunk_ok in Hchunk as (Hc & Ht & _).
    unfold counted, words_of. rewrite Ht, Hc. reflexivity. }
  destruct (is_nil (fst acc)).
  - apply chunk_by_lines_counted in H. exact H.
  - apply ret_ok in H as [<- _]. exact Hacc.
Qed.

Lemma chunk_code_counted (text : string) (doc lang : option string)
    (meta : gmap string value) (n n' : nat) (l : list ChunkedDocument) :
  _chunk_code uuid4 config ast_walk finditer text doc lang meta n
  = Ok (l, n') ->
  Forall counted l.
Proof.
  unfold _chunk_code. destruct (language_in lang ["python"]).
  - apply chunk_python_code_counted.
  - apply chunk_generic_code_counted.
Qed.

(** ** What the validation pass makes of each chunk *)

Lemma validate_step_passes (acc res : list ChunkedDocument)
    (chunk : ChunkedDocument) (n n' : nat) :
  validate_step uuid4 config acc chunk n = Ok (res, n') ->
  exists out, res = acc ++ out /\ passes config chunk out.
Proof.
  unfold validate_step, passes, in_bounds. fold (words_of chunk).
  destruct (Z.ltb_spec (words_of chunk) (min_chunk_size config)) as [Hlo|Hlo].
  - intros H. apply ret_ok in H as [<- _]. exists [].
    rewrite app_nil_r. auto.
  - destruct (Z.ltb_spec (max_chunk_size config) (words_of chunk))
      as [Hhi|Hhi]; intros H.
    + apply bind_ok in H as (subs & n1 & Hs & H).
      apply ret_ok in H as [<- _]. exists subs.
      split; [reflexivity|]. right. right.
      split; [exact Hlo|]. split; [exact Hhi|].
      exact (split_large_chunk_inv uuid4 config _ _ _ _ Hs).
    + apply ret_ok in H as [<- _]. exists [chunk].
      split; [reflexivity|]. right. left. split; [lia|reflexivity].
Qed.

Lemma validate_fold_passes (l : list ChunkedDocument) :
  forall (acc res : list ChunkedDocument) (n n' : nat),
    foldM (validate_step uuid4 config) l acc n = Ok (res, n') ->
    exists outs, res = acc ++ concat outs /\ Forall2 (passes config) l outs.
Proof.
  induction l as [|chunk l IH]; intros acc res n n' H; simpl in H.
  - apply ret_ok in H as [<- _]. exists []. simpl. rewrite app_nil_r.
    split; [reflexivity|constructor].
  - apply bind_ok in H as (r1 & n1 & H1 & H2).
    apply validate_step_passes in H1 as (out & -> & Hout).
    apply IH in H2 as (outs & -> & Houts).
    exists (out :: outs). simpl. rewrite app_assoc.
    split; [reflexivity|]. constructor; assumption.
Qed.

Lemma passes_sized (l : list ChunkedDocument)
    (outs : list (list ChunkedDocument)) :
  Forall counted l -> Forall2 (passes config) l outs ->
  Forall (fun c => counted c /\ sized config c) (concat outs).
Proof.
  intros Hl H. induction H as [|c out l outs Hc _ IH]; [constructor|].
  inversion Hl as [|? ? Hcc Hl']; subst. simpl.
  apply Forall_app. split; [|apply IH, Hl'].
  destruct Hc as [[_ ->]|[[Hb ->]|(Hlo & Hhi & Hsub)]].
  - constructor.
  - apply Forall_singleton. split; [exact Hcc|].
    split; [exact Hcc|]. left. rewrite Hcc. exact Hb.
  - eapply Forall_impl; [exact Hsub|]. intros s Hs. destruct Hs.
    split; [assumption|]. split; [assumption|]. right. eauto.
Qed.

End CodeFacts.




(** C2 (as stated) fails: on the empty string [process] returns a failed
    result without data. *)
Lemma process_empty_content_counterexample :
  ~ Spec.empty_success
      (process sample_uuid4 no_code_strategy "" default_config
         (text_input "")).
Proof. intros [Hs _]. vm_compute in Hs. discriminate Hs. Qed.

(** C2 (as amended). With empty content (or none) [process] does not
    raise; it returns a failed result, without data, whose message is
    "No content provided for chunking". *)
Theorem process_empty_content :
  forall (uuid4 : nat -> string)
         (_chunk_code : string -> option string -> option string ->
                       gmap string value -> M (list ChunkedDocument))
         (validation_text : string) (config : ChunkingAgentConfig)
         (input_data : InputData),
    get_default (in_content input_data) "" = "" ->
    process uuid4 _chunk_code validation_text config input_data
    = {| success := false; data := None;
         error_message := Some "No content provided for chunking" |}.
Proof.
  intros uuid4 _chunk_code validation_text config input_data H.
  unfold process. rewrite H. reflexivity.
Qed.

Lemma process_empty_content_witness :
  process sample_uuid4 no_code_strategy "" default_config (text_input "")
  = {| success := false; data := None;
       error_message := Some "No content provided for chunking" |}.
Proof.
  apply (process_empty_content sample_uuid4 no_code_strategy ""
           default_config (text_input "")).
  reflexivity.
Defined.

(** ** Language detection *)

Lemma first_language_spec (table : list (string * list regex))
    (content language : string) :
  first_language table content = Some language <->
  exists before patterns after,
    table = before ++ (language, patterns) :: after
    /\ found patterns content = true
    /\ Forall (fun entry => found (snd entry) content = false) before.
Proof.
  induction table as [|[l ps] table IH]; simpl.
  - split; [discriminate|].
    intros (before & patterns & after & H & _).
    destruct before; discriminate H.
  - fold (found ps content). destruct (found ps content) eqn:Hps.
    + split.
      * intros [= <-]. exists [], ps, table. auto.
      * intros (before & patterns & after & H & Hf & Hb).
        destruct before as [|e before]; simpl in H.
        -- injection H as -> _ _. reflexivity.
        -- injection H as <- _. inversion Hb as [|? ? He _]; subst.
           simpl in He. congruence.
    + rewrite IH. split.
      * intros (before & patterns & after & -> & Hf & Hb).
        exists ((l, ps) :: before), patterns, after. auto.
      * intros (before & patterns & after & H & Hf & Hb).
        destruct before as [|e before]; simpl in H.
        -- injection H as -> -> _. congruence.
        -- injection H as _ ->. inversion Hb; subst.
           exists before, patterns, after. auto.
Qed.

Lemma first_language_none (table : list (string * list regex))
    (content : string) :
  first_language table content = None <->
  Forall (fun entry => found (snd entry) content = false) table.
Proof.
  induction table as [|[l ps] table IH]; simpl.
  - split; [constructor|reflexivity].
  - fold (found ps content). destruct (found ps content) eqn:Hps.
    + split; [discriminate|]. intros H. inversion H; subst.
      simpl in *. congruence.
    + rewrite IH. split.
      * intros H. constructor; assumption.
      * intros H. inversion H; assumption.
Qed.

(** C3 (as amended). [_detect_language] computes no score: on code it
    returns the first language, in the order of the table, one of whose
    patterns is found in the content -- the languages before it have no
    pattern found, whatever the later ones have -- and [None] when no
    pattern of any language is found; on other content it returns
    [None]. *)
Theorem detect_language_first_match :
  forall content : string,
    (forall language,
        _detect_language content "code" = Some language <->
        exists before patterns after,
          language_patterns = before ++ (language, patterns) :: after
          /\ found patterns content = true
          /\ Forall (fun entry => found (snd entry) content = false) before)
    /\ (_detect_language content "code" = None <->
        Forall (fun entry => found (snd entry) content = false)
               language_patterns)
    /\ (forall content_type,
           content_type <> "code" ->
           _detect_language content content_type = None).
Proof.
  intros content. split; [|split].
  - intros language. apply first_language_spec.
  - apply first_language_none.
  - intros content_type H. unfold _detect_language.
    destruct (String.eqb_spec content_type "code"); [contradiction|].
    reflexivity.
Qed.

(** C3 (as stated) fails: a content with one match for [python] and two
    for [javascript], which the scoring of the specification classifies
    as [javascript], is classified as [python]. *)
Lemma detect_language_score_counterexample :
  Spec.score_of "python" mixed_code = 1%nat
  /\ Spec.score_of "javascript" mixed_code = 2%nat
  /\ Spec.highest_score_language mixed_code = Some "javascript"
  /\ _detect_language mixed_code "code" = Some "python"
  /\ _detect_language mixed_code "code"
     <> Spec.highest_score_language mixed_code.
Proof.
  assert (H1 : Spec.score_of "python" mixed_code = 1%nat)
    by (vm_compute; reflexivity).
  assert (H2 : Spec.score_of "javascript" mixed_code = 2%nat)
    by (vm_compute; reflexivity).
  assert (H3 : Spec.highest_score_language mixed_code = Some "javascript")
    by (vm_compute; reflexivity).
  assert (H4 : _detect_language mixed_code "code" = Some "python")
    by (vm_compute; reflexivity).
  repeat split; try assumption.
  rewrite H3, H4. discriminate.
Qed.

(** ** The markdown strategy *)

Lemma matches_Void (s : string) : matches Void s = false.
Proof. induction s; simpl; auto. Qed.

Lemma deriv_Cat_Void (c : ascii) (r1 r2 : regex) :
  deriv c r1 = Void -> nullable r1 = false ->
  deriv c (Cat r1 r2) = Void /\ nullable (Cat r1 r2) = false.
Proof. intros Hd Hn. simpl. rewrite Hd, Hn. split; reflexivity. Qed.

Lemma deriv_upto_other (n : nat) (a c : ascii) :
  Ascii.eqb a c = false ->
  deriv c (upto n (chr a)) = Void /\ nullable (upto n (chr a)) = false.
Proof.
  intros H.
  assert (H0 : deriv c (chr a) = Void)
    by (change (deriv c (chr a)) with (if Ascii.eqb a c then Eps else Void);
        rewrite H; reflexivity).
  destruct n as [|n]; [split; [exact H0|reflexivity]|].
  apply deriv_Cat_Void; [exact H0|reflexivity].
Qed.

(** A line that the header pattern matches starts with [#], so that the
    text before its first [#] is empty: the level is always [0]. *)
Lemma header_level_zero (line : string) :
  re_match_dollar header_pattern line = true ->
  header_level (Some line) = 0.
Proof.
  destruct line as [|c line]; [discriminate|].
  destruct (Ascii.eqb_spec "#" c) as [<-|Hc]; [reflexivity|].
  intros H. exfalso. apply Ascii.eqb_neq in Hc.
  unfold re_match_dollar in H.
  change (matches (Cat header_pattern dollar) (String c line))
    with (matches (deriv c (Cat header_pattern dollar)) line) in H.
  destruct (deriv_upto_other 5 "#" c Hc) as [Hd Hn].
  destruct (deriv_Cat_Void c _ (Cat sp (plus dot)) Hd Hn) as [Hd' Hn'].
  destruct (deriv_Cat_Void c _ dollar Hd' Hn') as [Hd'' _].
  unfold header_pattern, seq_re in H. rewrite Hd'', matches_Void in H.
  discriminate H.
Qed.

(** C5, the scenario of the specification: two chunks, with headers
    ["# Title"] and ["## Sub"]; the header level of both is [0], not the
    number of [#] characters (1 and 2). *)
Theorem chunk_markdown_scenario :
  forall (uuid4 : nat -> string) (doc : string) (meta : gmap string value)
         (n : nat),
    _chunk_markdown uuid4 scenario_markdown (Some doc) meta n
    = Ok ([section_chunk (uuid4 n) doc meta 0
             ["# Title"; "Body text."; ""] "# Title" 0 4;
           section_chunk (uuid4 (S n)) doc meta 1
             ["## Sub"; "More text."] "## Sub" 0 4],
          S (S n)).
Proof. intros uuid4 doc meta n. reflexivity. Qed.

End ChunkingFacts.

(** * Facts about the evaluation utilities *)

Module EvaluationFacts.
Import PyStr PyList Evaluation EvaluationProps PyStrFacts.

#[local] Open Scope R_scope.

(** ** Rounding *)

Lemma Int_part_bounds (x : R) : IZR (Int_part x) <= x < IZR (Int_part x) + 1.
Proof. destruct (base_Int_part x). lra. Qed.

Lemma round_half_even_near (x : R) (n : Z) :
  IZR n - 1 / 2 < x < IZR n + 1 / 2 -> round_half_even x = n.
Proof.
  intros [Hlo Hhi]. unfold round_half_even.
  destruct (Int_part_bounds x) as [Hf1 Hf2].
  set (f := Int_part x) in *.
  assert (Hle : (f <= n)%Z).
  { apply Z.lt_succ_r, lt_IZR. rewrite succ_IZR. lra. }
  assert (Hge : (n - 1 <= f)%Z).
  { apply Z.lt_succ_r, lt_IZR. rewrite succ_IZR, minus_IZR. lra. }
  destruct (Z.eq_dec f n) as [->|Hne].
  - destruct (Rlt_dec _ _); [reflexivity|lra].
  - assert (Hf : f = (n - 1)%Z) by lia. rewrite Hf in *.
    rewrite minus_IZR in *.
    destruct (Rlt_dec _ _); [lra|].
    destruct (Rlt_dec _ _); [lia|lra].
Qed.

Lemma round_half_even_IZR (n : Z) : round_half_even (IZR n) = n.
Proof. apply round_half_even_near. lra. Qed.

Lemma round_half_even_cases (x : R) :
  round_half_even x = Int_part x
  \/ (round_half_even x = (Int_part x + 1)%Z /\ IZR (Int_part x) < x).
Proof.
  unfold round_half_even.
  destruct (Rlt_dec _ _); [auto|].
  destruct (Rlt_dec _ _); [right; split; [reflexivity|lra]|].
  destruct (Z.even _); [auto|right; split; [reflexivity|lra]].
Qed.

Lemma round_half_even_ge (x : R) (n : Z) :
  IZR n <= x -> (n <= round_half_even x)%Z.
Proof.
  intros H. destruct (Int_part_bounds x) as [Hf1 Hf2].
  assert (Hf : (n <= Int_part x)%Z).
  { apply Z.lt_succ_r, lt_IZR. rewrite succ_IZR. lra. }
  destruct (round_half_even_cases x) as [->|[-> _]]; lia.
Qed.

Lemma round_half_even_le (x : R) (n : Z) :
  x <= IZR n -> (round_half_even x <= n)%Z.
Proof.
  intros H. destruct (Int_part_bounds x) as [Hf1 Hf2].
  destruct (round_half_even_cases x) as [->|[-> Hlt]].
  - apply le_IZR. lra.
  - assert (Hf : (Int_part x < n)%Z) by (apply lt_IZR; lra). lia.
Qed.

Lemma round4_exact (n : Z) : round4 (IZR n / 10000) = IZR n / 10000.
Proof.
  unfold round4. replace (IZR n / 10000 * 10000) with (IZR n) by lra.
  rewrite round_half_even_IZR. reflexivity.
Qed.

Lemma round4_0 : round4 0 = 0.
Proof.
  replace 0 with (IZR 0 / 10000) at 1 by lra. rewrite round4_exact. lra.
Qed.

Lemma round4_1 : round4 1 = 1.
Proof.
  replace 1 with (IZR 10000 / 10000) at 1 by lra. rewrite round4_exact. lra.
Qed.

Lemma round4_four_decimals (x : R) : four_decimals (round4 x).
Proof. eexists. reflexivity. Qed.

Lemma round4_ge (x : R) (n : Z) :
  IZR n / 10000 <= x -> IZR n / 10000 <= round4 x.
Proof.
  intros H. unfold round4.
  assert (Hn : (n <= round_half_even (x * 10000))%Z)
    by (apply round_half_even_ge; lra).
  apply IZR_le in Hn. lra.
Qed.

Lemma round4_le (x : R) (n : Z) :
  x <= IZR n / 10000 -> round4 x <= IZR n / 10000.
Proof.
  intros H. unfold round4.
  assert (Hn : (round_half_even (x * 10000) <= n)%Z)
    by (apply round_half_even_le; lra).
  apply IZR_le in Hn. lra.
Qed.

Lemma round4_unit (x : R) : 0 <= x <= 1 -> 0 <= round4 x <= 1.
Proof.
  intros [H0 H1]. split.
  - replace 0 with (IZR 0 / 10000) by lra. apply round4_ge. lra.
  - replace 1 with (IZR 10000 / 10000) by lra. apply round4_le. lra.
Qed.

(** ** Logarithms and discounts *)

Lemma ln_2_pos : 0 < ln 2.
Proof. pose proof ln_lt_2. lra. Qed.

Lemma log2_2 : log2 2 = 1.
Proof. unfold log2. pose proof ln_2_pos. field. lra. Qed.

Lemma log2_pos (x : R) : 1 < x -> 0 < log2 x.
Proof.
  intros H. unfold log2. apply Rdiv_lt_0_compat; [|apply ln_2_pos].
  rewrite <- ln_1. apply ln_increasing; lra.
Qed.

Lemma log2_le (x y : R) : 0 < x -> x <= y -> log2 x <= log2 y.
Proof.
  intros Hx [Hlt| ->]; [|lra]. unfold log2.
  pose proof ln_2_pos. pose proof (ln_increasing x y Hx Hlt).
  apply Rmult_le_compat_r; [|lra].
  apply Rlt_le, Rinv_0_lt_compat. lra.
Qed.

Lemma discount_pos (p : nat) : 0 < discount p.
Proof.
  unfold discount. pose proof (pos_INR p).
  apply Rdiv_lt_0_compat; [lra|]. apply log2_pos. lra.
Qed.

Lemma discount_0 : discount 0 = 1.
Proof.
  unfold discount. simpl INR. replace (0 + 2) with 2 by lra.
  rewrite log2_2. lra.
Qed.

(** A later rank has a smaller discount. *)
Lemma discount_anti (p q : nat) : (p <= q)%nat -> discount q <= discount p.
Proof.
  intros H. unfold discount. apply le_INR in H.
  pose proof (pos_INR p).
  assert (Hp : 0 < log2 (INR p + 2)) by (apply log2_pos; lra).
  assert (Hpq : log2 (INR p + 2) <= log2 (INR q + 2))
    by (apply log2_le; lra).
  unfold Rdiv. rewrite !Rmult_1_l. apply Rinv_le_contravar; assumption.
Qed.

(** ** The two loops of [_calculate_ndcg] as sums *)

Lemma slice_to_take {A} (l : list A) (k : Z) :
  slice_to l k = take (clamp (length l) k) l.
Proof.
  unfold slice_to, slice. change (clamp (length l) 0) with 0%nat.
  rewrite Nat.sub_0_r. reflexivity.
Qed.

Lemma clamp_le (len : nat) (k : Z) : (clamp len k <= len)%nat.
Proof. unfold clamp. destruct (Z.ltb_spec k 0); lia. Qed.

Lemma dcg_fold (ids : gset (option string)) (l : list doc)
    (off c : nat) (a : R) :
  fold_left (fun acc p => acc + relevance ids (snd p)
                                / log2 (INR (fst p) + 2))
            (combine (seq off (length (take c l))) (take c l)) a
  = a + discounted_gain ids l off c.
Proof.
  revert off c a. induction l as [|d l IH]; intros off c a.
  - destruct c; simpl; lra.
  - destruct c as [|c]; simpl; [lra|].
    rewrite IH. unfold discount. lra.
Qed.

Lemma dcg_gain (l : list doc) (ids : gset (option string)) (k : Z) :
  dcg l ids k = discounted_gain ids l 0 (clamp (length l) k).
Proof.
  unfold dcg, enumerate. rewrite slice_to_take, dcg_fold. lra.
Qed.

Lemma idcg_fold (off m : nat) (a : R) :
  fold_left (fun acc i => acc + 1 / log2 (INR i + 2)) (seq off m) a
  = a + ideal_gain off m.
Proof.
  revert off a. induction m as [|m IH]; intros off a; simpl; [lra|].
  rewrite IH. unfold discount. lra.
Qed.

Lemma idcg_gain (ids : gset (option string)) (k : Z) :
  idcg ids k = ideal_gain 0 (Z.to_nat (Z.min (Z.of_nat (size ids)) k)).
Proof. unfold idcg. rewrite idcg_fold. lra. Qed.

Lemma relevance_in (ids : gset (option string)) (d : doc) :
  get_id d ∈ ids -> relevance ids d = 1.
Proof. intros H. unfold relevance. rewrite bool_decide_eq_true_2; auto. Qed.

Lemma relevance_out (ids : gset (option string)) (d : doc) :
  get_id d ∉ ids -> relevance ids d = 0.
Proof. intros H. unfold relevance. rewrite bool_decide_eq_false_2; auto. Qed.

Lemma relevance_unit (ids : gset (option string)) (d : doc) :
  0 <= relevance ids d <= 1.
Proof. unfold relevance. destruct (bool_decide _); lra. Qed.

Lemma discounted_gain_nonneg (ids : gset (option string)) (l : list doc)
    (off c : nat) :
  0 <= discounted_gain ids l off c.
Proof.
  revert off c. induction l as [|d l IH]; intros off c; simpl.
  - destruct c; lra.
  - destruct c as [|c]; [lra|].
    pose proof (IH (S off) c). pose proof (relevance_unit ids d).
    pose proof (discount_pos off). nra.
Qed.

(** ** Moving a relevant document to a later rank *)

(** Putting any document in the place of one that is not relevant gains
    at most the discount of that rank. *)
Lemma gain_insert (ids : gset (option string)) (j : nat) :
  forall (l : list doc) (off c : nat) (d dj : doc),
    l !! j = Some dj -> get_id dj ∉ ids ->
    discounted_gain ids (<[j := d]> l) off c
    <= discounted_gain ids l off c + discount (off + j).
Proof.
  induction j as [|j IH]; intros l off c d dj Hj Hout.
  - destruct l as [|x l]; [discriminate|]. injection Hj as ->.
    pose proof (discount_pos (off + 0)).
    destruct c as [|c]; simpl; [lra|].
    rewrite (relevance_out ids dj Hout).
    pose proof (relevance_unit ids d). pose proof (discount_pos off).
    rewrite Nat.add_0_r in *. nra.
  - destruct l as [|x l]; [discriminate|]. simpl in Hj.
    pose proof (discount_pos (off + S j)).
    destruct c as [|c]; simpl; [lra|].
    pose proof (IH l (S off) c d dj Hj Hout) as H1.
    replace (S off + j)%nat with (off + S j)%nat in H1 by lia. lra.
Qed.

(** Exchanging a relevant document with a later one that is not relevant
    does not raise the discounted gain. *)
Lemma gain_swap (ids : gset (option string)) (i : nat) :
  forall (j : nat) (l : list doc) (off c : nat) (di dj : doc),
    (i < j)%nat -> l !! i = Some di -> l !! j = Some dj ->
    get_id di ∈ ids -> get_id dj ∉ ids ->
    discounted_gain ids (<[i := dj]> (<[j := di]> l)) off c
    <= discounted_gain ids l off c.
Proof.
  induction i as [|i IH]; intros j l off c di dj Hij Hi Hj Hin Hout.
  - destruct l as [|x l]; [discriminate|]. injection Hi as ->.
    destruct j as [|j]; [lia|]. simpl in Hj.
    destruct c as [|c]; simpl; [lra|].
    rewrite (relevance_out ids dj Hout), (relevance_in ids di Hin).
    pose proof (gain_insert ids j l (S off) c di dj Hj Hout) as H1.
    pose proof (discount_anti off (S off + j) ltac:(lia)). lra.
  - destruct l as [|x l]; [discriminate|]. simpl in Hi.
    destruct j as [|j]; [lia|]. simpl in Hj.
    destruct c as [|c]; simpl; [lra|].
    pose proof (IH j l (S off) c di dj ltac:(lia) Hi Hj Hin Hout). lra.
Qed.

(** C7. For a fixed relevant set and a fixed [k], exchanging a relevant
    document at position [i] with a document at a later position [j]
    that is not relevant does not raise the value of [_calculate_ndcg]
    (floats read as real numbers). *)
Theorem ndcg_swap_later :
  forall (retrieved_docs : list doc) (relevant_ids : gset (option string))
         (k : Z) (i j : nat) (di dj : doc),
    (i < j)%nat ->
    retrieved_docs !! i = Some di -> retrieved_docs !! j = Some dj ->
    get_id di ∈ relevant_ids -> get_id dj ∉ relevant_ids ->
    _calculate_ndcg (swap retrieved_docs i j) relevant_ids k
    <= _calculate_ndcg retrieved_docs relevant_ids k.
Proof.
  intros l ids k i j di dj Hij Hi Hj Hin Hout.
  unfold _calculate_ndcg, swap. rewrite Hi, Hj.
  destruct (Rlt_dec 0 (idcg ids k)) as [Hpos|_]; [|lra].
  rewrite !dcg_gain, !length_insert.
  apply Rmult_le_compat_r.
  - apply Rlt_le, Rinv_0_lt_compat, Hpos.
  - eapply gain_swap; eauto.
Qed.

Lemma ndcg_swap_later_witness :
  _calculate_ndcg (swap [doc_with_id "a"; doc_with_id "b"] 0 1)
    {[ Some "a" ]} 2
  <= _calculate_ndcg [doc_with_id "a"; doc_with_id "b"] {[ Some "a" ]} 2.
Proof.
  apply (ndcg_swap_later [doc_with_id "a"; doc_with_id "b"] {[ Some "a" ]}
           2 0 1 (doc_with_id "a") (doc_with_id "b")).
  - lia.
  - reflexivity.
  - reflexivity.
  - apply elem_of_singleton. vm_compute. reflexivity.
  - intros H. apply elem_of_singleton in H. vm_compute in H. discriminate H.
Defined.

(** ** [calculate_retrieval_metrics], field by field *)

Lemma retrieval_metrics_fields (query : string)
    (retrieved_docs relevant_docs : list doc) (k : Z) :
  retrieved_docs <> [] ->
  calculate_retrieval_metrics query retrieved_docs relevant_docs k
  = {| precision := round4 (precision_at retrieved_docs relevant_docs k);
       recall := round4 (recall_at retrieved_docs relevant_docs k);
       f1_score :=
         round4 (f1_of (precision_at retrieved_docs relevant_docs k)
                       (recall_at retrieved_docs relevant_docs k));
       mrr := round4 (_calculate_mrr retrieved_docs (ids_of relevant_docs));
       ndcg := round4 (_calculate_ndcg retrieved_docs
                         (ids_of relevant_docs) k) |}.
Proof.
  intros H. destruct retrieved_docs as [|d l]; [contradiction|].
  reflexivity.
Qed.

Lemma calculate_mrr_from_spec (l : list doc) (ids : gset (option string))
    (i : nat) :
  calculate_mrr_from i l ids
  = match first_relevant l ids with
    | Some j => 1 / INR (i + j + 1)
    | None => 0
    end.
Proof.
  revert i. unfold first_relevant.
  induction l as [|d l IH]; intros i; simpl; [reflexivity|].
  destruct (decide (get_id d ∈ ids)) as [Hin|Hout].
  - rewrite bool_decide_eq_true_2 by exact Hin.
    simpl. rewrite Nat.add_0_r. reflexivity.
  - rewrite bool_decide_eq_false_2 by exact Hout.
    rewrite IH. destruct (list_find _ l) as [[j x]|]; simpl; [|reflexivity].
    replace (i + S j + 1)%nat with (S i + j + 1)%nat by lia. reflexivity.
Qed.

(** [_calculate_mrr] is the reciprocal rank of the specification. *)
Lemma calculate_mrr_spec (l : list doc) (ids : gset (option string)) :
  _calculate_mrr l ids = reciprocal_rank l ids.
Proof.
  unfold _calculate_mrr, reciprocal_rank. rewrite calculate_mrr_from_spec.
  destruct (first_relevant l ids); reflexivity.
Qed.

Lemma mrr_of_metrics (query : string) (retrieved_docs relevant_docs : list doc)
    (k : Z) :
  mrr (calculate_retrieval_metrics query retrieved_docs relevant_docs k)
  = round4 (reciprocal_rank retrieved_docs (ids_of relevant_docs)).
Proof.
  destruct retrieved_docs as [|d l].
  - simpl. unfold reciprocal_rank, first_relevant. simpl.
    rewrite round4_0. reflexivity.
  - rewrite retrieval_metrics_fields by discriminate. simpl mrr.
    rewrite calculate_mrr_spec. reflexivity.
Qed.

Lemma slice_to_0 {A} (l : list A) : slice_to l 0 = [].
Proof. rewrite slice_to_take. reflexivity. Qed.

Lemma hits_0 (retrieved_docs relevant_docs : list doc) :
  hits retrieved_docs relevant_docs 0 = 0%nat.
Proof.
  unfold hits. rewrite slice_to_0. unfold ids_of at 1. simpl.
  rewrite intersection_empty_l_L. apply size_empty.
Qed.

Lemma metrics_at_0 (query : string) (retrieved_docs relevant_docs : list doc) :
  let m := calculate_retrieval_metrics query retrieved_docs relevant_docs 0 in
  precision m = 0 /\ recall m = 0 /\ f1_score m = 0 /\ ndcg m = 0.
Proof.
  destruct retrieved_docs as [|d l]; [simpl; auto|].
  rewrite retrieval_metrics_fields by discriminate. simpl.
  assert (Hp : precision_at (d :: l) relevant_docs 0 = 0).
  { unfold precision_at. rewrite slice_to_0. reflexivity. }
  assert (Hr : recall_at (d :: l) relevant_docs 0 = 0).
  { unfold recall_at. rewrite hits_0. destruct (_ =? _)%nat; simpl; lra. }
  assert (Hn : _calculate_ndcg (d :: l) (ids_of relevant_docs) 0 = 0).
  { unfold _calculate_ndcg. rewrite idcg_gain.
    replace (Z.to_nat _) with 0%nat by lia. simpl.
    destruct (Rlt_dec 0 0); [lra|reflexivity]. }
  rewrite Hp, Hr, Hn. unfold f1_of.
  destruct (Rlt_dec 0 (0 + 0)); [lra|]. rewrite round4_0. auto.
Qed.

Lemma round_half_even_close (x : R) :
  Rabs (IZR (round_half_even x) - x) <= 1 / 2.
Proof.
  unfold round_half_even. destruct (Int_part_bounds x) as [H1 H2].
  set (n := Int_part x) in *.
  destruct (Rlt_dec (x - IZR n) (1 / 2)) as [Hlo|Hlo].
  - apply Rabs_le. lra.
  - destruct (Rlt_dec (1 / 2) (x - IZR n)) as [Hhi|Hhi].
    + rewrite plus_IZR. apply Rabs_le. lra.
    + destruct (Z.even n); [|rewrite plus_IZR]; apply Rabs_le; lra.
Qed.

(** A number and its rounding to 4 decimal places differ by at most
    half a unit of the fourth place. *)
Lemma round4_close (x : R) : Rabs (round4 x - x) <= 1 / 20000.
Proof.
  unfold round4. pose proof (round_half_even_close (x * 10000)) as H.
  unfold Rabs in H.
  destruct (Rcase_abs (IZR (round_half_even (x * 10000)) - x * 10000));
    apply Rabs_le; lra.
Qed.

(** C10 (as amended). The [mrr] that [calculate_retrieval_metrics]
    returns does not depend on [k]: it is the same for every two values
    of [k], and it lies within [1/20000] of the reciprocal of the 1-based
    position of the first document of the full retrieved list whose id is
    relevant, being that reciprocal rounded to 4 decimal places; it is
    [0] when no retrieved document is relevant and [1] when the first one
    is. With [k = 0] it can be [1] while [precision], [recall] and [ndcg]
    are [0]. *)
Theorem mrr_independent_of_k :
  (forall (query : string) (retrieved_docs relevant_docs : list doc)
          (k1 k2 : Z),
      mrr (calculate_retrieval_metrics query retrieved_docs relevant_docs k1)
      = mrr (calculate_retrieval_metrics query retrieved_docs relevant_docs
               k2))
  /\ (forall (query : string) (retrieved_docs relevant_docs : list doc)
             (k : Z),
         let value :=
           mrr (calculate_retrieval_metrics query retrieved_docs
                  relevant_docs k) in
         Rabs (value - reciprocal_rank retrieved_docs (ids_of relevant_docs))
         <= 1 / 20000
         /\ four_decimals value
         /\ (first_relevant retrieved_docs (ids_of relevant_docs) = None ->
             value = 0)
         /\ (first_relevant retrieved_docs (ids_of relevant_docs)
             = Some 0%nat -> value = 1))
  /\ (forall (query : string) (retrieved_docs relevant_docs : list doc),
         let m := calculate_retrieval_metrics query retrieved_docs
                    relevant_docs 0 in
         precision m = 0 /\ recall m = 0 /\ ndcg m = 0)
  /\ mrr (calculate_retrieval_metrics "q" [doc_with_id "a"]
            [doc_with_id "a"] 0) = 1.
Proof.
  split; [|split; [|split]].
  - intros query l rel k1 k2. rewrite !mrr_of_metrics. reflexivity.
  - intros query l rel k. simpl. rewrite mrr_of_metrics.
    split; [apply round4_close|]. split; [apply round4_four_decimals|].
    unfold reciprocal_rank. split; intros ->.
    + apply round4_0.
    + simpl. replace (1 / 1) with 1 by lra. apply round4_1.
  - intros query l rel.
    destruct (metrics_at_0 query l rel) as (Hp & Hr & _ & Hn). auto.
  - rewrite mrr_of_metrics. unfold reciprocal_rank.
    replace (first_relevant _ _) with (Some 0%nat)
      by (vm_compute; reflexivity).
    simpl. replace (1 / 1) with 1 by lra. apply round4_1.
Qed.

(** C10 (as stated) fails: with the first relevant document at position
    3 the value returned is [0.3333], not [1/3]. *)
Lemma mrr_rounding_counterexample :
  reciprocal_rank [doc_with_id "x"; doc_with_id "y"; doc_with_id "a"]
    (ids_of [doc_with_id "a"]) = 1 / 3
  /\ mrr (calculate_retrieval_metrics "q"
            [doc_with_id "x"; doc_with_id "y"; doc_with_id "a"]
            [doc_with_id "a"] 10) = 3333 / 10000
  /\ mrr (calculate_retrieval_metrics "q"
            [doc_with_id "x"; doc_with_id "y"; doc_with_id "a"]
            [doc_with_id "a"] 10)
     <> reciprocal_rank [doc_with_id "x"; doc_with_id "y"; doc_with_id "a"]
          (ids_of [doc_with_id "a"]).
Proof.
  assert (H1 : reciprocal_rank
                 [doc_with_id "x"; doc_with_id "y"; doc_with_id "a"]
                 (ids_of [doc_with_id "a"]) = 1 / 3).
  { unfold reciprocal_rank.
    replace (first_relevant _ _) with (Some 2%nat)
      by (vm_compute; reflexivity).
    simpl. f_equal. lra. }
  assert (H2 : mrr (calculate_retrieval_metrics "q"
                      [doc_with_id "x"; doc_with_id "y"; doc_with_id "a"]
                      [doc_with_id "a"] 10) = 3333 / 10000).
  { rewrite mrr_of_metrics, H1. unfold round4.
    rewrite (round_half_even_near _ 3333); [reflexivity|lra]. }
  split; [exact H1|]. split; [exact H2|]. rewrite H1, H2. lra.
Qed.

(** ** A perfect retrieval *)

Lemma slice_to_all {A} (l : list A) : slice_to l (Z.of_nat (length l)) = l.
Proof.
  rewrite slice_to_take. apply take_ge. unfold clamp.
  destruct (Z.ltb_spec (Z.of_nat (length l)) 0); lia.
Qed.

Lemma ideal_gain_nonneg (off m : nat) : 0 <= ideal_gain off m.
Proof.
  revert off. induction m as [|m IH]; intros off; simpl; [lra|].
  pose proof (IH (S off)). pose proof (discount_pos off). lra.
Qed.

Lemma ideal_gain_pos (off m : nat) : (0 < m)%nat -> 0 < ideal_gain off m.
Proof.
  destruct m as [|m]; [lia|]. intros _. simpl.
  pose proof (ideal_gain_nonneg (S off) m). pose proof (discount_pos off).
  lra.
Qed.

(** When every document is relevant the gain is the ideal one. *)
Lemma gain_all_relevant (ids : gset (option string)) (l : list doc)
    (off : nat) :
  Forall (fun d => get_id d ∈ ids) l ->
  discounted_gain ids l off (length l) = ideal_gain off (length l).
Proof.
  intros H. revert off.
  induction H as [|d l Hd _ IH]; intros off; simpl; [reflexivity|].
  rewrite (relevance_in ids d Hd), IH. lra.
Qed.

Lemma ids_of_size (l : list doc) :
  NoDup (map get_id l) -> size (ids_of l) = length l.
Proof.
  intros H. unfold ids_of. rewrite size_list_to_set by exact H.
  apply length_map.
Qed.

Lemma elem_of_ids_of (l : list doc) (d : doc) :
  d ∈ l -> get_id d ∈ ids_of l.
Proof.
  intros H. unfold ids_of. apply elem_of_list_to_set.
  apply list_elem_of_In, in_map, list_elem_of_In, H.
Qed.

(** C6 (as amended). For a retrieved list that is not empty and whose
    ids are pairwise distinct, with the relevant ids exactly the
    retrieved ones and [k] the length of the list, all five values are
    [1]. *)
Theorem perfect_retrieval_metrics :
  forall (query : string) (retrieved_docs relevant_docs : list doc),
    retrieved_docs <> [] ->
    NoDup (map get_id retrieved_docs) ->
    ids_of relevant_docs = ids_of retrieved_docs ->
    calculate_retrieval_metrics query retrieved_docs relevant_docs
      (Z.of_nat (length retrieved_docs))
    = {| precision := 1; recall := 1; f1_score := 1; mrr := 1; ndcg := 1 |}.
Proof.
  intros query l rel Hne Hnd Hids.
  rewrite retrieval_metrics_fields by exact Hne.
  assert (Hn : (0 < length l)%nat).
  { destruct l; [contradiction|simpl; lia]. }
  assert (Hinr : INR (length l) <> 0).
  { apply not_0_INR. lia. }
  assert (Hhits : hits l rel (Z.of_nat (length l)) = length l).
  { unfold hits. rewrite slice_to_all, Hids.
    rewrite (idemp_L (∩) (ids_of l)). apply ids_of_size, Hnd. }
  assert (Hp : precision_at l rel (Z.of_nat (length l)) = 1).
  { unfold precision_at. rewrite Hhits, slice_to_all, length_map.
    destruct l; [contradiction|]. simpl is_nil. cbv iota.
    field. exact Hinr. }
  assert (Hr : recall_at l rel (Z.of_nat (length l)) = 1).
  { unfold recall_at. rewrite Hhits, Hids, (ids_of_size l Hnd).
    destruct (Nat.eqb_spec (length l) 0); [lia|]. field. exact Hinr. }
  assert (Hf : f1_of 1 1 = 1).
  { unfold f1_of. destruct (Rlt_dec 0 (1 + 1)); lra. }
  assert (Hall : Forall (fun d => get_id d ∈ ids_of rel) l).
  { apply Forall_forall. intros d Hd. rewrite Hids.
    apply elem_of_ids_of, Hd. }
  assert (Hm : _calculate_mrr l (ids_of rel) = 1).
  { destruct l as [|d l']; [contradiction|].
    unfold _calculate_mrr. simpl.
    inversion Hall as [|? ? Hd _]; subst.
    rewrite bool_decide_eq_true_2 by exact Hd. lra. }
  assert (Hg : _calculate_ndcg l (ids_of rel) (Z.of_nat (length l)) = 1).
  { unfold _calculate_ndcg. rewrite dcg_gain, idcg_gain.
    rewrite Hids, (ids_of_size l Hnd), Z.min_id, Nat2Z.id.
    rewrite <- Hids.
    replace (clamp (length l) (Z.of_nat (length l))) with (length l)
      by (unfold clamp;
          destruct (Z.ltb_spec (Z.of_nat (length l)) 0); lia).
    rewrite (gain_all_relevant _ l 0 Hall).
    pose proof (ideal_gain_pos 0 (length l) Hn).
    destruct (Rlt_dec 0 (ideal_gain 0 (length l))); [|lra].
    field. lra. }
  rewrite Hp, Hr, Hf, Hm, Hg, round4_1. reflexivity.
Qed.

Lemma perfect_retrieval_metrics_witness :
  calculate_retrieval_metrics "q"
    [doc_with_id "a"; doc_with_id "b"; doc_with_id "c"]
    [doc_with_id "c"; doc_with_id "a"; doc_with_id "b"] 3
  = {| precision := 1; recall := 1; f1_score := 1; mrr := 1; ndcg := 1 |}.
Proof.
  apply (perfect_retrieval_metrics "q"
           [doc_with_id "a"; doc_with_id "b"; doc_with_id "c"]
           [doc_with_id "c"; doc_with_id "a"; doc_with_id "b"]).
  - discriminate.
  - refine (bool_decide_unpack _ _). vm_compute. exact I.
  - refine (bool_decide_unpack _ _). vm_compute. exact I.
Defined.

(** ** Retrieved lists with a repeated id *)

Lemma round4_half : round4 (1 / 2) = 1 / 2.
Proof.
  replace (1 / 2) with (IZR 5000 / 10000) by lra. apply round4_exact.
Qed.

(** C6 (as stated) fails: for a retrieved list that holds the same id
    twice, with that id relevant and [k = 2], the precision is [0.5]. *)
Lemma duplicate_ids_precision_counterexample :
  ids_of [doc_with_id "a"] = ids_of [doc_with_id "a"; doc_with_id "a"]
  /\ precision (calculate_retrieval_metrics "q"
                  [doc_with_id "a"; doc_with_id "a"] [doc_with_id "a"] 2)
     = 1 / 2
  /\ precision (calculate_retrieval_metrics "q"
                  [doc_with_id "a"; doc_with_id "a"] [doc_with_id "a"] 2)
     <> 1.
Proof.
  assert (H : precision (calculate_retrieval_metrics "q"
                           [doc_with_id "a"; doc_with_id "a"]
                           [doc_with_id "a"] 2) = 1 / 2).
  { rewrite retrieval_metrics_fields by discriminate. simpl precision.
    unfold precision_at.
    replace (hits _ _ 2) with 1%nat by (vm_compute; reflexivity).
    replace (map get_id (slice_to [doc_with_id "a"; doc_with_id "a"] 2))
      with [get_id (doc_with_id "a"); get_id (doc_with_id "a")]
      by reflexivity.
    simpl. replace (1 / (1 + 1)) with (1 / 2) by lra. apply round4_half. }
  split; [|split].
  - refine (bool_decide_unpack _ _). vm_compute. exact I.
  - exact H.
  - rewrite H. lra.
Qed.

Lemma log2_3_le_2 : log2 3 <= 2.
Proof.
  assert (H4 : log2 4 = 2).
  { unfold log2. replace 4 with (2 * 2) by lra.
    rewrite ln_mult by lra. pose proof ln_2_pos. field. lra. }
  rewrite <- H4. apply log2_le; lra.
Qed.

(** C4, at a retrieved list that holds a relevant id twice: the gain
    counts the id at both ranks, the ideal gain counts it once, and the
    [ndcg] returned is above [1.5]. *)
Theorem duplicate_ids_ndcg_above_one :
  3 / 2 <= ndcg (calculate_retrieval_metrics "q"
                   [doc_with_id "a"; doc_with_id "a"] [doc_with_id "a"] 2)
  /\ ~ (0 <= ndcg (calculate_retrieval_metrics "q"
                     [doc_with_id "a"; doc_with_id "a"]
                     [doc_with_id "a"] 2) <= 1).
Proof.
  assert (H : 3 / 2 <= ndcg (calculate_retrieval_metrics "q"
                               [doc_with_id "a"; doc_with_id "a"]
                               [doc_with_id "a"] 2)).
  { rewrite retrieval_metrics_fields by discriminate. simpl ndcg.
    replace (3 / 2) with (IZR 15000 / 10000) by lra. apply round4_ge.
    unfold _calculate_ndcg. rewrite dcg_gain, idcg_gain.
    replace (size (ids_of [doc_with_id "a"])) with 1%nat
      by (vm_compute; reflexivity).
    replace (clamp _ 2) with 2%nat by reflexivity.
    replace (Z.to_nat _) with 1%nat by reflexivity.
    assert (Hin : get_id (doc_with_id "a") ∈ ids_of [doc_with_id "a"]).
    { apply elem_of_ids_of, list_elem_of_singleton. reflexivity. }
    simpl. rewrite (relevance_in _ _ Hin), discount_0.
    assert (Hd : 1 / 2 <= discount 1).
    { unfold discount. simpl INR. replace (1 + 2) with 3 by lra.
      pose proof log2_3_le_2. pose proof (log2_pos 3 ltac:(lra)).
      unfold Rdiv. rewrite !Rmult_1_l. apply Rinv_le_contravar; lra. }
    destruct (Rlt_dec 0 (1 + 0)); [|lra].
    replace ((1 * 1 + (1 * discount 1 + 0)) / (1 + 0))
      with (1 + discount 1) by field. lra. }
  split; [exact H|]. lra.
Qed.

(** ** Generation metrics *)

Lemma filter_all {A} (P : A -> Prop) `{forall x, Decision (P x)}
    (l : list A) :
  Forall P l -> filter P l = l.
Proof.
  induction 1 as [|x l Hx _ IH]; [reflexivity|].
  rewrite filter_cons_True by exact Hx. rewrite IH. reflexivity.
Qed.

Lemma filter_none {A} (P : A -> Prop) `{forall x, Decision (P x)}
    (l : list A) :
  Forall (fun x => ~ P x) l -> filter P l = [].
Proof.
  induction 1 as [|x l Hx _ IH]; [reflexivity|].
  rewrite filter_cons_False by exact Hx. exact IH.
Qed.

Lemma existsb_self (l : list string) :
  Forall (fun g => existsb (String.eqb g) l = true) l.
Proof.
  apply Forall_forall. intros g Hg. apply existsb_exists.
  exists g. split; [apply list_elem_of_In, Hg|apply String.eqb_refl].
Qed.

Lemma bleu_identical (answer : string) :
  split (lower answer) <> [] -> _calculate_bleu_score answer answer = 1.
Proof.
  intros H. unfold _calculate_bleu_score.
  destruct (split (lower answer)) as [|w ws] eqn:E; [contradiction|].
  cbv beta iota zeta delta [is_nil].
  rewrite (filter_all _ _ (existsb_self (w :: ws))).
  rewrite Nat.leb_refl.
  assert (Hn : INR (length (w :: ws)) <> 0) by (apply not_0_INR; discriminate).
  field. exact Hn.
Qed.

Lemma rouge_identical (answer : string) :
  split (lower answer) <> [] -> _calculate_rouge_score answer answer = 1.
Proof.
  intros H. unfold _calculate_rouge_score.
  set (S := list_to_set (split (lower answer)) : gset string).
  rewrite (idemp_L (∩) S).
  assert (Hs : size S <> 0%nat).
  { apply size_non_empty_iff. intros Hempty.
    destruct (split (lower answer)) as [|w ws]; [contradiction|].
    assert (Hw : w ∈ S) by (apply elem_of_list_to_set; left).
    rewrite Hempty in Hw. apply elem_of_empty in Hw. exact Hw. }
  destruct (Nat.eqb_spec (size S) 0); [contradiction|].
  field. apply not_0_INR, Hs.
Qed.

Lemma bleu_rouge_no_token (answer : string) :
  split (lower answer) = [] ->
  _calculate_bleu_score answer answer = 0
  /\ _calculate_rouge_score answer answer = 0.
Proof.
  intros H. unfold _calculate_bleu_score, _calculate_rouge_score.
  rewrite H. split; [reflexivity|].
  rewrite list_to_set_nil, size_empty. reflexivity.
Qed.

(** C8 (as amended). For every answer that holds at least one token and
    every context, [calculate_generation_metrics] with the answer as its
    own reference returns [bleu_score = 1] and [rouge_score = 1]. *)
Theorem identical_answer_scores :
  forall (answer : string) (context : list doc),
    split (lower answer) <> [] ->
    bleu_score (calculate_generation_metrics answer answer context) = 1
    /\ rouge_score (calculate_generation_metrics answer answer context) = 1.
Proof.
  intros answer context H. simpl.
  rewrite (bleu_identical answer H), (rouge_identical answer H), round4_1.
  auto.
Qed.

Lemma identical_answer_scores_witness :
  bleu_score (calculate_generation_metrics "Paris is the capital"
                "Paris is the capital" []) = 1
  /\ rouge_score (calculate_generation_metrics "Paris is the capital"
                    "Paris is the capital" []) = 1.
Proof.
  apply (identical_answer_scores "Paris is the capital" []).
  vm_compute. discriminate.
Defined.

(** C8 (as stated) fails: for the empty answer (no token) both scores
    are [0]. *)
Lemma empty_answer_scores_counterexample :
  bleu_score (calculate_generation_metrics "" "" []) = 0
  /\ rouge_score (calculate_generation_metrics "" "" []) = 0
  /\ bleu_score (calculate_generation_metrics "" "" []) <> 1.
Proof.
  destruct (bleu_rouge_no_token "" eq_refl) as [Hb Hr].
  simpl. rewrite Hb, Hr, round4_0. repeat split; lra.
Qed.

Lemma is_contradictory_false (fact : string) (context_facts : list string) :
  _is_contradictory fact context_facts = false.
Proof.
  induction context_facts as [|cf l IH]; simpl; [reflexivity|].
  destruct (_ && _); [reflexivity|exact IH].
Qed.

Lemma factual_consistency_one (answer : string) (context : list doc) :
  context <> [] -> _calculate_factual_consistency answer context = 1.
Proof.
  intros H. unfold _calculate_factual_consistency.
  destruct context as [|d context]; [contradiction|].
  cbv beta iota zeta delta [is_nil].
  destruct (_extract_facts (context_text (d :: context))) as [|f fs];
    [reflexivity|].
  rewrite filter_none.
  2:{ apply Forall_forall. intros x _.
      rewrite is_contradictory_false. discriminate. }
  destruct (_extract_facts answer); simpl; [apply Rmax_left; lra|].
  unfold Rdiv. rewrite Rmult_0_l, Rminus_0_r. apply Rmax_left. lra.
Qed.

(** C9. [_is_contradictory] returns [False] whatever it is given, so for
    every answer and every context that is not empty and yields at least
    one fact, [_calculate_factual_consistency] returns [1], and so does
    the [consistency_score] of [calculate_generation_metrics]. *)
Theorem factual_consistency_vacuous :
  forall (answer reference : string) (context : list doc),
    context <> [] ->
    _extract_facts (context_text context) <> [] ->
    (forall fact context_facts,
        _is_contradictory fact context_facts = false)
    /\ _calculate_factual_consistency answer context = 1
    /\ consistency_score
         (calculate_generation_metrics answer reference context) = 1.
Proof.
  intros answer reference context Hc _.
  split; [apply is_contradictory_false|].
  pose proof (factual_consistency_one answer context Hc) as H.
  split; [exact H|]. simpl. rewrite H. apply round4_1.
Qed.

Lemma factual_consistency_vacuous_witness :
  (forall fact context_facts, _is_contradictory fact context_facts = false)
  /\ _calculate_factual_consistency "It was 1999"
       [doc_with_content "Released in 2024"] = 1
  /\ consistency_score
       (calculate_generation_metrics "It was 1999" "Released in 2024"
          [doc_with_content "Released in 2024"]) = 1.
Proof.
  apply (factual_consistency_vacuous "It was 1999" "Released in 2024"
           [doc_with_content "Released in 2024"]).
  - discriminate.
  - vm_compute. discriminate.
Defined.

(** ** The range of the retrieval metrics *)

Lemma size_list_to_set_le (l : list (option string)) :
  (size (list_to_set l : gset (option string)) <= length l)%nat.
Proof.
  induction l as [|x l IH].
  - rewrite list_to_set_nil, size_empty. simpl. lia.
  - rewrite list_to_set_cons, size_union_alt, size_singleton.
    assert (H : (size ((list_to_set l : gset (option string)) ∖ {[x]})
                 <= size (list_to_set l : gset (option string)))%nat)
      by (apply subseteq_size, subseteq_difference_l; reflexivity).
    simpl length. lia.
Qed.

Lemma hits_le_length (l rel : list doc) (k : Z) :
  (hits l rel k <= length (map get_id (slice_to l k)))%nat.
Proof.
  unfold hits. etransitivity; [|apply size_list_to_set_le].
  apply subseteq_size, intersection_subseteq_l.
Qed.

Lemma hits_le_relevant (l rel : list doc) (k : Z) :
  (hits l rel k <= size (ids_of rel))%nat.
Proof. unfold hits. apply subseteq_size, intersection_subseteq_r. Qed.

Lemma unit_ratio (a b : nat) :
  (a <= b)%nat -> (0 < b)%nat -> 0 <= INR a / INR b <= 1.
Proof.
  intros Hab Hb. apply le_INR in Hab. apply lt_INR in Hb. simpl in Hb.
  pose proof (pos_INR a). split.
  - apply Rmult_le_pos; [assumption|]. apply Rlt_le, Rinv_0_lt_compat, Hb.
  - apply (Rmult_le_reg_r (INR b)); [exact Hb|]. field_simplify; lra.
Qed.

Lemma precision_at_unit (l rel : list doc) (k : Z) :
  0 <= precision_at l rel k <= 1.
Proof.
  unfold precision_at. pose proof (hits_le_length l rel k) as H.
  destruct (map get_id (slice_to l k)) as [|x ids]; simpl is_nil; cbv iota.
  - lra.
  - apply unit_ratio; [exact H|simpl; lia].
Qed.

Lemma recall_at_unit (l rel : list doc) (k : Z) :
  0 <= recall_at l rel k <= 1.
Proof.
  unfold recall_at. pose proof (hits_le_relevant l rel k) as H.
  destruct (Nat.eqb_spec (size (ids_of rel)) 0); [lra|].
  apply unit_ratio; [exact H|lia].
Qed.

Lemma f1_of_unit (p r : R) :
  0 <= p <= 1 -> 0 <= r <= 1 -> 0 <= f1_of p r <= 1.
Proof.
  intros Hp Hr. unfold f1_of.
  destruct (Rlt_dec 0 (p + r)) as [Hpos|_]; [|lra]. split.
  - apply Rmult_le_pos; [nra|]. apply Rlt_le, Rinv_0_lt_compat, Hpos.
  - apply (Rmult_le_reg_r (p + r)); [exact Hpos|].
    replace (2 * (p * r) / (p + r) * (p + r)) with (2 * (p * r))
      by (field; lra).
    nra.
Qed.

Lemma reciprocal_rank_unit (l : list doc) (ids : gset (option string)) :
  0 <= reciprocal_rank l ids <= 1.
Proof.
  unfold reciprocal_rank. destruct (first_relevant l ids) as [i|]; [|lra].
  replace (1 / INR (i + 1)) with (INR 1 / INR (i + 1)) by reflexivity.
  apply unit_ratio; lia.
Qed.

Lemma ideal_gain_shift (off m : nat) :
  ideal_gain (S off) m <= ideal_gain off m.
Proof.
  revert off. induction m as [|m IH]; intros off; simpl; [lra|].
  pose proof (IH (S off)).
  assert (discount (S off) <= discount off) by (apply discount_anti; lia).
  lra.
Qed.

Lemma ideal_gain_mono (off m1 m2 : nat) :
  (m1 <= m2)%nat -> ideal_gain off m1 <= ideal_gain off m2.
Proof.
  revert off m2. induction m1 as [|m1 IH]; intros off m2 H.
  - apply ideal_gain_nonneg.
  - destruct m2 as [|m2]; [lia|]. simpl.
    pose proof (IH (S off) m2 ltac:(lia)). lra.
Qed.

(** The gain of a list is at most the ideal gain of as many documents as
    it has relevant ones among those counted. *)
Lemma gain_le_ideal (ids : gset (option string)) (l : list doc) :
  forall off c,
    discounted_gain ids l off c
    <= ideal_gain off
         (length (filter (fun d => get_id d ∈ ids) (take c l))).
Proof.
  induction l as [|d l IH]; intros off c.
  - destruct c; simpl; lra.
  - destruct c as [|c]; [simpl; lra|]. simpl take. simpl discounted_gain.
    pose proof (IH (S off) c) as H.
    destruct (decide (get_id d ∈ ids)) as [Hin|Hout].
    + rewrite filter_cons_True by exact Hin.
      rewrite (relevance_in ids d Hin). simpl. lra.
    + rewrite filter_cons_False by exact Hout.
      rewrite (relevance_out ids d Hout).
      pose proof (ideal_gain_shift off
                    (length (filter (fun d => get_id d ∈ ids) (take c l)))).
      lra.
Qed.

(** Among documents of distinct ids there are at most as many relevant
    ones as there are relevant ids. *)
Lemma relevant_count_le (ids : gset (option string)) (l : list doc) :
  NoDup (map get_id l) ->
  (length (filter (fun d => get_id d ∈ ids) l) <= size ids)%nat.
Proof.
  intros Hnd.
  set (r := filter (fun d => get_id d ∈ ids) l).
  assert (Hr : NoDup (map get_id r)).
  { eapply sublist_NoDup; [exact Hnd|].
    apply (fmap_sublist get_id), sublist_filter. }
  rewrite <- (length_map get_id r).
  rewrite <- (size_list_to_set (C := gset (option string)) _ Hr).
  apply subseteq_size. intros x Hx.
  apply elem_of_list_to_set, list_elem_of_In, in_map_iff in Hx
    as (d & <- & Hd).
  apply list_elem_of_In, list_elem_of_filter in Hd as [Hd _]. exact Hd.
Qed.

Lemma ndcg_nonneg (l : list doc) (ids : gset (option string)) (k : Z) :
  0 <= _calculate_ndcg l ids k.
Proof.
  unfold _calculate_ndcg. destruct (Rlt_dec 0 (idcg ids k)) as [H|_]; [|lra].
  rewrite dcg_gain. apply Rmult_le_pos.
  - apply discounted_gain_nonneg.
  - apply Rlt_le, Rinv_0_lt_compat, H.
Qed.

(** With distinct ids among the first [k] documents the gain does not
    exceed the ideal gain. *)
Lemma ndcg_unit (l : list doc) (ids : gset (option string)) (k : Z) :
  NoDup (map get_id (slice_to l k)) ->
  0 <= _calculate_ndcg l ids k <= 1.
Proof.
  intros Hnd. split; [apply ndcg_nonneg|].
  unfold _calculate_ndcg. destruct (Rlt_dec 0 (idcg ids k)) as [H|_]; [|lra].
  apply (Rmult_le_reg_r (idcg ids k)); [exact H|].
  replace (dcg l ids k / idcg ids k * idcg ids k) with (dcg l ids k)
    by (field; lra).
  rewrite Rmult_1_l. rewrite idcg_gain in *. rewrite dcg_gain.
  etransitivity; [apply gain_le_ideal|]. apply ideal_gain_mono.
  rewrite slice_to_take in Hnd.
  pose proof (relevant_count_le ids _ Hnd) as H1.
  pose proof (length_filter (fun d => get_id d ∈ ids)
                (take (clamp (length l) k) l)) as H2.
  rewrite length_take in H2.
  assert (Hc : (0 <= k)%Z -> (clamp (length l) k <= Z.to_nat k)%nat).
  { intros Hk. unfold clamp. destruct (Z.ltb_spec k 0); lia. }
  destruct (Z.ltb_spec k 0) as [Hk|Hk].
  - exfalso. replace (Z.to_nat _) with 0%nat in H by lia. simpl in H. lra.
  - specialize (Hc Hk). lia.
Qed.

(** Apart from [ndcg] on a list that repeats an id, the five values lie
    in [[0, 1]]; all of them are numbers of 4 decimal places, and
    [ndcg] is never negative. *)
Lemma retrieval_metrics_range (query : string) (l rel : list doc) (k : Z) :
  let m := calculate_retrieval_metrics query l rel k in
  (0 <= precision m <= 1 /\ 0 <= recall m <= 1 /\ 0 <= f1_score m <= 1
   /\ 0 <= mrr m <= 1 /\ 0 <= ndcg m)
  /\ (NoDup (map get_id (slice_to l k)) -> ndcg m <= 1)
  /\ (four_decimals (precision m) /\ four_decimals (recall m)
      /\ four_decimals (f1_score m) /\ four_decimals (mrr m)
      /\ four_decimals (ndcg m)).
Proof.
  destruct l as [|d l].
  - simpl. assert (H0 : four_decimals 0) by (exists 0%Z; lra).
    repeat split; try lra; exact H0.
  - rewrite retrieval_metrics_fields by discriminate. simpl.
    pose proof (precision_at_unit (d :: l) rel k) as Hp.
    pose proof (recall_at_unit (d :: l) rel k) as Hr.
    pose proof (f1_of_unit _ _ Hp Hr) as Hf.
    pose proof (reciprocal_rank_unit (d :: l) (ids_of rel)) as Hm.
    rewrite <- calculate_mrr_spec in Hm.
    pose proof (ndcg_nonneg (d :: l) (ids_of rel) k) as Hn.
    split; [|split].
    + repeat split; try (apply round4_unit; assumption).
      replace 0 with (IZR 0 / 10000) by lra. apply round4_ge. lra.
    + intros Hnd. apply round4_unit, ndcg_unit, Hnd.
    + repeat split; apply round4_four_decimals.
Qed.

End EvaluationFacts.

(** * Further facts about the retrieval metrics *)

Module RetrievalFacts.
Import PyStr PyList Evaluation EvaluationProps EvaluationFacts.

#[local] Open Scope R_scope.

(** Rounding keeps the order. *)
Lemma round_half_even_mono (x y : R) :
  x <= y -> (round_half_even x <= round_half_even y)%Z.
Proof.
  intros Hxy.
  destruct (Rle_dec (IZR (round_half_even x)) y) as [Hle|Hgt].
  { apply round_half_even_ge, Hle. }
  apply Rnot_le_lt in Hgt.
  destruct (Int_part_bounds x) as [Hx1 Hx2].
  destruct (Int_part_bounds y) as [Hy1 Hy2].
  destruct (round_half_even_cases x) as [Hx|[Hx Hlt]].
  { rewrite Hx in Hgt. lra. }
  assert (Hf : Int_part y = Int_part x).
  { rewrite Hx, plus_IZR in Hgt.
    assert (H1 : (Int_part y < Int_part x + 1)%Z).
    { apply lt_IZR. rewrite plus_IZR. lra. }
    assert (H2 : (Int_part x < Int_part y + 1)%Z).
    { apply lt_IZR. rewrite plus_IZR. lra. }
    lia. }
  assert (Hxe : round_half_even x = (Int_part x + 1)%Z) by exact Hx.
  unfold round_half_even in Hx |- *. rewrite Hf.
  destruct (Rlt_dec (x - IZR (Int_part x)) (1 / 2)) as [H1|H1]; [lia|].
  destruct (Rlt_dec (y - IZR (Int_part x)) (1 / 2)) as [H2|H2]; [lra|].
  destruct (Rlt_dec (1 / 2) (x - IZR (Int_part x))) as [H3|H3].
  - destruct (Rlt_dec (1 / 2) (y - IZR (Int_part x))); [lia|lra].
  - destruct (Rlt_dec (1 / 2) (y - IZR (Int_part x))) as [H4|H4];
      [destruct (Z.even (Int_part x)); lia|reflexivity].
Qed.

Lemma round4_mono (x y : R) : x <= y -> round4 x <= round4 y.
Proof.
  intros H. unfold round4.
  assert (Hm : (round_half_even (x * 10000)
                <= round_half_even (y * 10000))%Z)
    by (apply round_half_even_mono; lra).
  apply IZR_le in Hm. lra.
Qed.

Lemma mrr_from_none (l : list doc) (ids : gset (option string)) (i : nat) :
  Forall (fun d => get_id d ∉ ids) l -> calculate_mrr_from i l ids = 0.
Proof.
  intros H. revert i. induction H as [|d l Hd _ IH]; intros i; simpl.
  - reflexivity.
  - rewrite bool_decide_eq_false_2 by exact Hd. apply IH.
Qed.

Lemma gain_none (l : list doc) (ids : gset (option string)) (off c : nat) :
  Forall (fun d => get_id d ∉ ids) l -> discounted_gain ids l off c = 0.
Proof.
  intros H. revert off c. induction H as [|d l Hd _ IH]; intros off c.
  - destruct c; reflexivity.
  - destruct c as [|c]; [reflexivity|]. simpl.
    rewrite (relevance_out ids d Hd), IH. lra.
Qed.

Lemma elem_of_take_list {A} (x : A) (n : nat) (l : list A) :
  x ∈ take n l -> x ∈ l.
Proof.
  intros H. apply elem_of_take in H as (i & Hi & _).
  apply list_elem_of_lookup. eauto.
Qed.

Lemma hits_none (l rel : list doc) (k : Z) :
  Forall (fun d => get_id d ∉ ids_of rel) l -> hits l rel k = 0%nat.
Proof.
  intros H. unfold hits. apply size_empty_iff.
  apply elem_of_equiv_empty. intros x Hx.
  apply elem_of_intersection in Hx as [Hx1 Hx2].
  unfold ids_of in Hx1. apply elem_of_list_to_set in Hx1.
  apply list_elem_of_In, in_map_iff in Hx1 as (d & <- & Hd).
  rewrite slice_to_take in Hd. apply list_elem_of_In in Hd.
  assert (Hd' : d ∈ l) by (eapply elem_of_take_list; eauto).
  rewrite Forall_forall in H. exact (H d Hd' Hx2).
Qed.

(** When none of the retrieved documents has a relevant id -- in
    particular when there is no relevant document -- the five values are
    [0], for every [k]. *)
Theorem no_relevant_retrieved_all_zero :
  forall (query : string) (retrieved_docs relevant_docs : list doc) (k : Z),
    Forall (fun d => get_id d ∉ ids_of relevant_docs) retrieved_docs ->
    calculate_retrieval_metrics query retrieved_docs relevant_docs k
    = {| precision := 0; recall := 0; f1_score := 0; mrr := 0; ndcg := 0 |}.
Proof.
  intros query l rel k H.
  destruct l as [|d0 l0] eqn:El; [reflexivity|]. rewrite <- El in *.
  rewrite retrieval_metrics_fields by (rewrite El; discriminate).
  assert (Hp : precision_at l rel k = 0).
  { unfold precision_at. rewrite (hits_none l rel k H).
    destruct (Evaluation.is_nil _); [reflexivity|]. simpl. lra. }
  assert (Hr : recall_at l rel k = 0).
  { unfold recall_at. rewrite (hits_none l rel k H).
    destruct (_ =? _)%nat; [reflexivity|]. simpl. lra. }
  assert (Hm : _calculate_mrr l (ids_of rel) = 0).
  { apply mrr_from_none, H. }
  assert (Hn : _calculate_ndcg l (ids_of rel) k = 0).
  { unfold _calculate_ndcg. rewrite dcg_gain, (gain_none _ _ _ _ H).
    destruct (Rlt_dec _ _); lra. }
  rewrite Hp, Hr, Hm, Hn. unfold f1_of.
  destruct (Rlt_dec 0 (0 + 0)); [lra|]. rewrite round4_0. reflexivity.
Qed.

Lemma no_relevant_retrieved_all_zero_witness :
  calculate_retrieval_metrics "q" [doc_with_id "a"; doc_with_id "b"]
    [doc_with_id "c"] 2
  = {| precision := 0; recall := 0; f1_score := 0; mrr := 0; ndcg := 0 |}.
Proof.
  apply (no_relevant_retrieved_all_zero "q"
           [doc_with_id "a"; doc_with_id "b"] [doc_with_id "c"] 2).
  refine (bool_decide_unpack _ _). vm_compute. exact I.
Defined.

Lemma clamp_mono (len : nat) (k1 k2 : Z) :
  (0 <= k1 <= k2)%Z -> (clamp len k1 <= clamp len k2)%nat.
Proof.
  intros H. unfold clamp.
  destruct (Z.ltb_spec k1 0); [lia|]. destruct (Z.ltb_spec k2 0); lia.
Qed.

Lemma hits_mono (l rel : list doc) (k1 k2 : Z) :
  (0 <= k1 <= k2)%Z -> (hits l rel k1 <= hits l rel k2)%nat.
Proof.
  intros H. unfold hits. apply subseteq_size, intersection_mono_r.
  intros x Hx. unfold ids_of in *.
  apply elem_of_list_to_set in Hx. apply elem_of_list_to_set.
  apply list_elem_of_In, in_map_iff in Hx as (d & <- & Hd).
  apply list_elem_of_In, in_map, list_elem_of_In.
  rewrite slice_to_take in *. apply list_elem_of_In in Hd.
  pose proof (clamp_mono (length l) k1 k2 H) as Hc.
  replace (clamp (length l) k1)
    with (Nat.min (clamp (length l) k1) (clamp (length l) k2)) in Hd by lia.
  rewrite <- take_take in Hd. eapply elem_of_take_list; eauto.
Qed.

(** The recall returned does not fall when [k] grows (from [k >= 0]). *)
Theorem recall_monotone_in_k :
  forall (query : string) (retrieved_docs relevant_docs : list doc)
         (k1 k2 : Z),
    (0 <= k1 <= k2)%Z ->
    recall (calculate_retrieval_metrics query retrieved_docs relevant_docs k1)
    <= recall (calculate_retrieval_metrics query retrieved_docs
                 relevant_docs k2).
Proof.
  intros query l rel k1 k2 H.
  destruct l as [|d0 l0] eqn:El; [simpl; lra|]. rewrite <- El.
  rewrite !retrieval_metrics_fields by (rewrite El; discriminate).
  simpl recall. apply round4_mono. unfold recall_at.
  destruct (Nat.eqb_spec (size (ids_of rel)) 0) as [|Hs]; [lra|].
  pose proof (hits_mono l rel k1 k2 H) as Hh. apply le_INR in Hh.
  apply Rmult_le_compat_r; [|exact Hh].
  apply Rlt_le, Rinv_0_lt_compat. apply lt_0_INR. lia.
Qed.

Lemma recall_monotone_in_k_witness :
  recall (calculate_retrieval_metrics "q"
            [doc_with_id "a"; doc_with_id "b"] [doc_with_id "b"] 1)
  <= recall (calculate_retrieval_metrics "q"
               [doc_with_id "a"; doc_with_id "b"] [doc_with_id "b"] 2).
Proof.
  apply (recall_monotone_in_k "q" [doc_with_id "a"; doc_with_id "b"]
           [doc_with_id "b"] 1 2).
  lia.
Defined.

(** ** The range of the retrieval metrics *)

(** Precision, recall, F1 and MRR lie in [[0, 1]] for every input and
    every [k]; NDCG is never negative, and it is at most [1] when the
    first [k] retrieved documents have distinct ids. The five values are
    numbers of 4 decimal places. *)
Theorem retrieval_metrics_bounds :
  forall (query : string) (retrieved_docs relevant_docs : list doc) (k : Z),
    let m := calculate_retrieval_metrics query retrieved_docs relevant_docs
               k in
    (0 <= precision m <= 1 /\ 0 <= recall m <= 1 /\ 0 <= f1_score m <= 1
     /\ 0 <= mrr m <= 1 /\ 0 <= ndcg m)
    /\ (NoDup (map get_id (slice_to retrieved_docs k)) -> ndcg m <= 1)
    /\ (four_decimals (precision m) /\ four_decimals (recall m)
        /\ four_decimals (f1_score m) /\ four_decimals (mrr m)
        /\ four_decimals (ndcg m)).
Proof.
  intros query l rel k. apply retrieval_metrics_range.
Qed.

Lemma retrieval_metrics_bounds_witness :
  ndcg (calculate_retrieval_metrics "q"
          [doc_with_id "b"; doc_with_id "a"] [doc_with_id "a"] 10) <= 1.
Proof.
  destruct (retrieval_metrics_bounds "q"
              [doc_with_id "b"; doc_with_id "a"] [doc_with_id "a"] 10)
    as (_ & H & _).
  apply H. refine (bool_decide_unpack _ _). vm_compute. exact I.
Defined.

End RetrievalFacts.

(** * Further facts about the generation metrics *)

Module GenerationFacts.
Import PyStr PyList Evaluation EvaluationProps EvaluationFacts.

#[local] Open Scope R_scope.

Lemma bleu_unit (generated reference : string) :
  0 <= _calculate_bleu_score generated reference <= 1.
Proof.
  unfold _calculate_bleu_score.
  set (gen := split (lower generated)). set (ref := split (lower reference)).
  destruct gen as [|g gen'] eqn:Eg; [simpl; lra|]. rewrite <- Eg.
  assert (Hlen : (0 < length gen)%nat) by (rewrite Eg; simpl; lia).
  replace (Evaluation.is_nil gen) with false by (rewrite Eg; reflexivity).
  pose proof (length_filter
                (fun g => existsb (String.eqb g) ref = true) gen) as Hf.
  pose proof (unit_ratio _ _ Hf Hlen) as [Hp0 Hp1].
  destruct (Nat.leb_spec (length ref) (length gen)) as [Hle|Hlt]; [lra|].
  set (e := exp _).
  assert (He : 0 < e <= 1).
  { split; [apply exp_pos|]. rewrite <- exp_0. apply Rlt_le.
    apply exp_increasing.
    apply lt_INR in Hlt. apply lt_INR in Hlen. simpl in Hlen.
    assert (1 < INR (length ref) / INR (length gen)).
    { apply (Rmult_lt_reg_r (INR (length gen))); [exact Hlen|].
      replace (INR (length ref) / INR (length gen) * INR (length gen))
        with (INR (length ref)) by (field; lra).
      lra. }
    lra. }
  nra.
Qed.

Lemma rouge_unit (generated reference : string) :
  0 <= _calculate_rouge_score generated reference <= 1.
Proof.
  unfold _calculate_rouge_score.
  destruct (Nat.eqb_spec (size (list_to_set (split (lower reference))
                                 : gset string)) 0) as [|Hs]; [lra|].
  apply unit_ratio; [|lia].
  apply subseteq_size, intersection_subseteq_r.
Qed.

Lemma relevance_unit_interval (answer : string) (context : list doc) :
  0 <= _calculate_answer_relevance answer context <= 1.
Proof.
  unfold _calculate_answer_relevance.
  destruct (Evaluation.is_nil context); [lra|].
  destruct (Nat.eqb_spec (size (list_to_set
                                  (_extract_key_terms (context_text context))
                                 : gset string)) 0) as [|Hs]; [lra|].
  split; [|apply Rmin_r].
  apply Rmin_glb; [|lra].
  apply unit_ratio; [|lia].
  apply subseteq_size, intersection_subseteq_r.
Qed.

Lemma consistency_unit (answer : string) (context : list doc) :
  0 <= _calculate_factual_consistency answer context <= 1.
Proof.
  destruct context as [|d context].
  - unfold _calculate_factual_consistency. simpl. lra.
  - rewrite factual_consistency_one by discriminate. lra.
Qed.

Lemma completeness_unit (generated reference : string) :
  0 <= _calculate_answer_completeness generated reference <= 1.
Proof.
  unfold _calculate_answer_completeness.
  destruct (is_empty reference); [lra|].
  destruct (Nat.eqb_spec (size (_extract_key_information reference)) 0)
    as [|Hs]; [lra|].
  apply unit_ratio; [|lia].
  apply subseteq_size, intersection_subseteq_l.
Qed.

(** The five values of [calculate_generation_metrics] lie in [[0, 1]]
    and are numbers of 4 decimal places, whatever the two answers and
    the context. *)
Theorem generation_metrics_range :
  forall (generated_answer reference_answer : string) (context : list doc),
    let m := calculate_generation_metrics generated_answer reference_answer
               context in
    (0 <= bleu_score m <= 1 /\ 0 <= rouge_score m <= 1
     /\ 0 <= relevance_score m <= 1 /\ 0 <= consistency_score m <= 1
     /\ 0 <= completeness_score m <= 1)
    /\ (four_decimals (bleu_score m) /\ four_decimals (rouge_score m)
        /\ four_decimals (relevance_score m)
        /\ four_decimals (consistency_score m)
        /\ four_decimals (completeness_score m)).
Proof.
  intros g r ctx. simpl. split.
  - repeat split; apply round4_unit.
    + apply bleu_unit.
    + apply bleu_unit.
    + apply rouge_unit.
    + apply rouge_unit.
    + apply relevance_unit_interval.
    + apply relevance_unit_interval.
    + apply consistency_unit.
    + apply consistency_unit.
    + apply completeness_unit.
    + apply completeness_unit.
  - repeat split; apply round4_four_decimals.
Qed.

(** The tokens that the two scores compare. *)
Lemma ratio_one (a b : nat) : (0 < b)%nat -> INR a / INR b = 1 -> a = b.
Proof.
  intros Hb H. apply lt_INR in Hb. simpl in Hb. apply INR_eq.
  apply (Rmult_eq_compat_r (INR b)) in H.
  replace (INR a / INR b * INR b) with (INR a) in H by (field; lra). lra.
Qed.

(** The ROUGE score is [1] exactly when every token of the reference
    occurs among the tokens of the generated text (lower case on both
    sides), for a reference that holds a token. *)
Theorem rouge_one_iff_reference_covered :
  forall generated reference : string,
    split (lower reference) <> [] ->
    (_calculate_rouge_score generated reference = 1 <->
     forall w, w ∈ split (lower reference) -> w ∈ split (lower generated)).
Proof.
  intros g r Hr. unfold _calculate_rouge_score.
  set (G := list_to_set (split (lower g)) : gset string).
  set (Rf := list_to_set (split (lower r)) : gset string).
  assert (Hs : size Rf <> 0%nat).
  { apply size_non_empty_iff. intros Hempty.
    destruct (split (lower r)) as [|w ws]; [contradiction|].
    assert (Hw : w ∈ Rf) by (apply elem_of_list_to_set; left).
    rewrite Hempty in Hw. apply elem_of_empty in Hw. exact Hw. }
  destruct (Nat.eqb_spec (size Rf) 0) as [|_]; [contradiction|].
  split.
  - intros H w Hw. apply ratio_one in H; [|lia].
    assert (Heq : G ∩ Rf ≡ Rf).
    { apply set_subseteq_size_equiv; [apply intersection_subseteq_r|lia]. }
    assert (Hw' : w ∈ Rf) by (apply elem_of_list_to_set, Hw).
    apply Heq, elem_of_intersection in Hw' as [Hw' _].
    apply elem_of_list_to_set in Hw'. exact Hw'.
  - intros H.
    assert (Heq : G ∩ Rf = Rf).
    { apply leibniz_equiv. apply set_equiv_subseteq.
      split; [apply intersection_subseteq_r|].
      intros w Hw. apply elem_of_intersection. split; [|exact Hw].
      apply elem_of_list_to_set, H. apply elem_of_list_to_set in Hw.
      exact Hw. }
    rewrite Heq. field. apply not_0_INR, Hs.
Qed.

Lemma rouge_one_iff_reference_covered_witness :
  _calculate_rouge_score "The Cat sat" "the cat" = 1 <->
  forall w, w ∈ split (lower "the cat") -> w ∈ split (lower "The Cat sat").
Proof.
  apply (rouge_one_iff_reference_covered "The Cat sat" "the cat").
  vm_compute. discriminate.
Defined.

Lemma ratio_zero (a b : nat) : (0 < b)%nat -> INR a / INR b = 0 -> a = 0%nat.
Proof.
  intros Hb H. apply lt_INR in Hb. simpl in Hb. apply INR_eq.
  apply (Rmult_eq_compat_r (INR b)) in H.
  replace (INR a / INR b * INR b) with (INR a) in H by (field; lra).
  simpl. lra.
Qed.

Lemma existsb_eqb_elem (w : string) (l : list string) :
  existsb (String.eqb w) l = true <-> w ∈ l.
Proof.
  rewrite existsb_exists. split.
  - intros (x & Hx & He). apply String.eqb_eq in He as ->.
    apply list_elem_of_In, Hx.
  - intros H. exists w. split; [apply list_elem_of_In, H|].
    apply String.eqb_refl.
Qed.

(** Having no token in common, as both scores see it. *)
Lemma bleu_zero_no_shared (generated reference : string) :
  (forall w, w ∈ split (lower generated) -> w ∉ split (lower reference)) ->
  _calculate_bleu_score generated reference = 0.
Proof.
  unfold _calculate_bleu_score. intros H.
  destruct (split (lower generated)) as [|g gen'] eqn:Eg; [reflexivity|].
  cbn [Evaluation.is_nil]. rewrite filter_none.
  - change (INR (length (@nil string))) with 0. unfold Rdiv.
    rewrite Rmult_0_l, Rmult_0_r. reflexivity.
  - apply Forall_forall. intros w Hw Hp.
    apply existsb_eqb_elem in Hp. exact (H w Hw Hp).
Qed.

Lemma rouge_zero_iff (generated reference : string) :
  _calculate_rouge_score generated reference = 0 <->
  forall w, w ∈ split (lower generated) -> w ∉ split (lower reference).
Proof.
  unfold _calculate_rouge_score.
  set (G := list_to_set (split (lower generated)) : gset string).
  set (Rf := list_to_set (split (lower reference)) : gset string).
  assert (Hdisj : size (G ∩ Rf) = 0%nat <->
                  forall w, w ∈ split (lower generated) ->
                            w ∉ split (lower reference)).
  { rewrite size_empty_iff, elem_of_equiv_empty. split.
    - intros H w Hg Hr. apply (H w), elem_of_intersection.
      split; apply elem_of_list_to_set; assumption.
    - intros H w Hw. apply elem_of_intersection in Hw as [Hg Hr].
      apply elem_of_list_to_set in Hg, Hr. exact (H w Hg Hr). }
  destruct (Nat.eqb_spec (size Rf) 0) as [Hz|Hs].
  - split; [|reflexivity]. intros _ w _ Hr.
    apply size_empty_iff in Hz.
    assert (Hw : w ∈ Rf) by (apply elem_of_list_to_set, Hr).
    apply Hz in Hw. apply elem_of_empty in Hw. exact Hw.
  - rewrite <- Hdisj. split.
    + intros H. apply ratio_zero in H; [exact H|lia].
    + intros ->. simpl. lra.
Qed.

(** The ROUGE score is [0] exactly when no token of the generated
    text, in lower case, is a token of the reference; the BLEU score is
    [0] then, too, and so are the two values that
    [calculate_generation_metrics] returns for them. *)
Theorem no_shared_token_scores :
  forall generated reference : string,
    (_calculate_rouge_score generated reference = 0 <->
     forall w, w ∈ split (lower generated) -> w ∉ split (lower reference))
    /\ ((forall w, w ∈ split (lower generated) ->
                   w ∉ split (lower reference)) ->
        _calculate_bleu_score generated reference = 0
        /\ forall context : list doc,
             let m := calculate_generation_metrics generated reference
                        context in
             bleu_score m = 0 /\ rouge_score m = 0).
Proof.
  intros g r. split; [apply rouge_zero_iff|].
  intros H. pose proof (bleu_zero_no_shared g r H) as Hb.
  split; [exact Hb|]. intros ctx. simpl.
  rewrite Hb, (proj2 (rouge_zero_iff g r) H), round4_0. auto.
Qed.

Lemma no_shared_token_scores_witness :
  _calculate_bleu_score "The cat" "a dog barks" = 0
  /\ _calculate_rouge_score "The cat" "a dog barks" = 0.
Proof.
  destruct (no_shared_token_scores "The cat" "a dog barks") as [Hr Hb].
  assert (H : forall w, w ∈ split (lower "The cat") ->
                        w ∉ split (lower "a dog barks")).
  { intros w Hw Hin.
    change (split (lower "The cat")) with ["the"; "cat"] in Hw.
    change (split (lower "a dog barks")) with ["a"; "dog"; "barks"] in Hin.
    repeat (apply elem_of_cons in Hw as [->|Hw]);
      repeat (apply elem_of_cons in Hin as [Hin|Hin]);
      try discriminate Hin;
      solve [apply elem_of_nil in Hw; contradiction
            |apply elem_of_nil in Hin; contradiction]. }
  split; [apply Hb, H|apply Hr, H].
Defined.

End GenerationFacts.

(** * Facts about the combined score, the quality scores and the report *)

Module EvaluationReportFacts.
Import PyStr PyList Evaluation EvaluationProps EvaluationFacts.
Import EvaluationReport EvaluationReportProps RetrievalFacts GenerationFacts.

#[local] Open Scope R_scope.

(** ** The combined score *)

Lemma retrieval_score_value (m : RetrievalMetrics) :
  weighted_sum (retrieval_dict m) retrieval_weights 0
  = Returned (0 + precision m * (2 / 10) + recall m * (2 / 10)
              + f1_score m * (3 / 10) + mrr m * (15 / 100)
              + ndcg m * (15 / 100)).
Proof. reflexivity. Qed.

Lemma generation_score_value (m : GenerationMetrics) :
  weighted_sum (generation_dict m) generation_weights 0
  = Returned (0 + bleu_score m * (2 / 10) + rouge_score m * (2 / 10)
              + relevance_score m * (25 / 100)
              + consistency_score m * (2 / 10)
              + completeness_score m * (15 / 100)).
Proof. reflexivity. Qed.

Lemma generation_fields_unit (g r : string) (ctx : list doc) :
  let m := calculate_generation_metrics g r ctx in
  0 <= bleu_score m <= 1 /\ 0 <= rouge_score m <= 1
  /\ 0 <= relevance_score m <= 1 /\ 0 <= consistency_score m <= 1
  /\ 0 <= completeness_score m <= 1.
Proof.
  simpl. repeat split; apply round4_unit;
    first [apply bleu_unit | apply rouge_unit | apply relevance_unit_interval
          | apply consistency_unit | apply completeness_unit].
Qed.

(** [calculate_rag_metrics] never raises: the two dictionaries it builds
    hold every key that the weights name. Its overall score is a number
    of 4 decimal places that is never negative, and it is at most [1]
    when the first 10 retrieved documents have distinct ids. *)
Theorem rag_metrics_overall_score :
  forall (query : string) (retrieved_docs : list doc)
         (generated_answer reference_answer : string)
         (relevant_docs context : list doc),
  exists m,
    calculate_rag_metrics query retrieved_docs generated_answer
      reference_answer relevant_docs context = Returned m
    /\ rag_retrieval m
       = calculate_retrieval_metrics query retrieved_docs relevant_docs 10
    /\ rag_generation m
       = calculate_generation_metrics generated_answer reference_answer
           context
    /\ four_decimals (rag_overall_score m)
    /\ 0 <= rag_overall_score m
    /\ (NoDup (map get_id (slice_to retrieved_docs 10)) ->
        rag_overall_score m <= 1).
Proof.
  intros query l g r rel ctx. unfold calculate_rag_metrics.
  unfold _calculate_overall_score.
  rewrite retrieval_score_value, generation_score_value.
  eexists. split; [reflexivity|]. simpl.
  split; [reflexivity|]. split; [reflexivity|].
  split; [apply round4_four_decimals|].
  destruct (retrieval_metrics_range query l rel 10)
    as ((Hp & Hr & Hf & Hm & Hn) & Hn1 & _).
  destruct (generation_fields_unit g r ctx) as (Hb & Ho & Hv & Hc & Hk).
  simpl in Hb, Ho, Hv, Hc, Hk.
  split.
  - replace 0 with (IZR 0 / 10000) at 1 by lra. apply round4_ge. lra.
  - intros Hnd. specialize (Hn1 Hnd).
    replace 1 with (IZR 10000 / 10000) by lra. apply round4_le. lra.
Qed.

Lemma rag_metrics_overall_score_witness :
  exists m,
    calculate_rag_metrics "q" [doc_with_id "b"; doc_with_id "a"] "a b"
      "a b" [doc_with_id "a"] [] = Returned m
    /\ rag_overall_score m <= 1.
Proof.
  destruct (rag_metrics_overall_score "q"
              [doc_with_id "b"; doc_with_id "a"] "a b" "a b"
              [doc_with_id "a"] [])
    as (m & H & _ & _ & _ & _ & Hle).
  exists m. split; [exact H|].
  apply Hle. refine (bool_decide_unpack _ _). vm_compute. exact I.
Defined.

(** ** Response quality *)

Lemma clarity_unit (response : string) : 0 <= _evaluate_clarity response <= 1.
Proof.
  unfold _evaluate_clarity. destruct (is_empty response); [lra|].
  split; [|apply Rmin_r]. apply Rmin_glb; [apply Rmax_l|lra].
Qed.

Lemma conciseness_unit (response : string) :
  0 <= _evaluate_conciseness response <= 1.
Proof.
  unfold _evaluate_conciseness. destruct (is_empty response); [lra|].
  destruct (_ && _) eqn:Hmid; [lra|].
  destruct (Nat.ltb_spec (word_count response) 50) as [Hlt|Hge].
  - pose proof (pos_INR (word_count response)).
    apply lt_INR in Hlt. replace (INR 50) with 50 in Hlt by (simpl; lra).
    lra.
  - split; [apply Rmax_l|]. apply Rmax_lub; [lra|].
    assert (Hgt : (100 < word_count response)%nat).
    { apply andb_false_iff in Hmid as [Hmid|Hmid].
      - apply Nat.leb_gt in Hmid. lia.
      - apply Nat.leb_gt in Hmid. exact Hmid. }
    apply lt_INR in Hgt. replace (INR 100) with 100 in Hgt by (simpl; lra).
    lra.
Qed.

Lemma helpfulness_unit (response : string) :
  0 <= _evaluate_helpfulness response <= 1.
Proof.
  unfold _evaluate_helpfulness. destruct (is_empty response); [lra|].
  split; [|apply Rmin_r]. apply Rmin_glb; [|lra].
  pose proof (pos_INR (length (filter
    (fun indicator => contains indicator (lower response) = true)
    helpful_indicators))). lra.
Qed.

Lemma criterion_score_unit (response criterion : string) :
  0 <= criterion_score response criterion <= 1.
Proof.
  unfold criterion_score.
  destruct (String.eqb _ _); [apply clarity_unit|].
  destruct (String.eqb _ _); [apply conciseness_unit|].
  destruct (String.eqb _ _); [unfold _evaluate_accuracy; lra|].
  destruct (String.eqb _ _); [apply helpfulness_unit|lra].
Qed.

Lemma quality_step_insert (response : string) (scores : gmap string R)
    (criterion : string) :
  quality_step response scores criterion
  = <[criterion := criterion_score response criterion]> scores.
Proof.
  unfold quality_step, criterion_score.
  repeat (destruct (String.eqb _ _); [reflexivity|]). reflexivity.
Qed.

Lemma quality_fold_lookup (response : string) (criteria : list string)
    (scores : gmap string R) (c : string) :
  fold_left (quality_step response) criteria scores !! c
  = if decide (c ∈ criteria) then Some (criterion_score response c)
    else scores !! c.
Proof.
  revert scores. induction criteria as [|x l IH]; intros scores; simpl.
  - destruct (decide (c ∈ [])) as [H|_]; [|reflexivity].
    apply elem_of_nil in H. contradiction.
  - rewrite IH, quality_step_insert.
    destruct (decide (c ∈ l)) as [Hl|Hl].
    + rewrite decide_True by (right; exact Hl). reflexivity.
    + destruct (decide (c = x)) as [->|Hne].
      * rewrite decide_True by left. apply lookup_insert_eq.
      * rewrite decide_False.
        -- apply lookup_insert_ne. congruence.
        -- intros H. apply elem_of_cons in H as [H|H]; contradiction.
Qed.

(** [evaluate_response_quality] returns a score for each criterion asked
    for and for nothing else; every score lies in [[0, 1]]; a criterion
    that is not one of the four known ones scores [0]. *)
Theorem response_quality_scores :
  forall (response : string) (criteria : list string),
    let scores := evaluate_response_quality response criteria in
    (forall c, is_Some (scores !! c) <-> c ∈ criteria)
    /\ (forall c v, scores !! c = Some v -> 0 <= v <= 1)
    /\ (forall c, c ∈ criteria -> c ∉ known_criteria -> scores !! c = Some 0).
Proof.
  intros response criteria scores. subst scores.
  unfold evaluate_response_quality. split; [|split].
  - intros c. rewrite quality_fold_lookup.
    destruct (decide (c ∈ criteria)) as [H|H].
    + split; [intros _; exact H|intros _; eauto].
    + rewrite lookup_empty.
      split; [intros [? H']; discriminate H'|intros H'; contradiction].
  - intros c v. rewrite quality_fold_lookup.
    destruct (decide (c ∈ criteria)); [|rewrite lookup_empty; discriminate].
    intros [= <-]. apply criterion_score_unit.
  - intros c Hc Hk. rewrite quality_fold_lookup, decide_True by exact Hc.
    f_equal. unfold criterion_score, known_criteria in *.
    destruct (String.eqb_spec c "clarity") as [->|_].
    { exfalso. apply Hk. set_solver. }
    destruct (String.eqb_spec c "conciseness") as [->|_].
    { exfalso. apply Hk. set_solver. }
    destruct (String.eqb_spec c "accuracy") as [->|_].
    { exfalso. apply Hk. set_solver. }
    destruct (String.eqb_spec c "helpfulness") as [->|_].
    { exfalso. apply Hk. set_solver. }
    reflexivity.
Qed.

(** ** The report: values that are no dictionaries *)

Lemma collect_result_raise (result : eval_result)
    (acc : gmap string (gmap string (list mvalue))) (e : pyexn) :
  collect_result acc result = Raised e ->
  exists category type_name,
    (category, NotDict type_name) ∈ result /\ e = AttributeError type_name.
Proof.
  revert acc. induction result as [|[c [ms|t]] result IH]; intros acc H.
  - discriminate H.
  - simpl in H. apply IH in H as (c' & t' & Hin & ->).
    exists c', t'. split; [right; exact Hin|reflexivity].
  - simpl in H. injection H as <-. exists c, t. split; [left|reflexivity].
Qed.

Lemma collect_result_non_dict (result : eval_result)
    (acc : gmap string (gmap string (list mvalue))) :
  has_non_dict result ->
  exists type_name, collect_result acc result
                    = Raised (AttributeError type_name).
Proof.
  intros (c & t & Hin). revert acc.
  induction result as [|[c' [ms|t']] result IH]; intros acc.
  - apply elem_of_nil in Hin. contradiction.
  - apply elem_of_cons in Hin as [Hin|Hin]; [discriminate Hin|].
    simpl. apply IH, Hin.
  - simpl. eauto.
Qed.

Lemma collect_raise (results : list eval_result)
    (acc : gmap string (gmap string (list mvalue))) (e : pyexn) :
  collect acc results = Raised e ->
  exists type_name, e = AttributeError type_name
    /\ exists result, result ∈ results /\ has_non_dict result.
Proof.
  revert acc. induction results as [|r results IH]; intros acc H;
    simpl in H; [discriminate H|].
  destruct (collect_result acc r) as [acc'|e'] eqn:Hr.
  - apply IH in H as (t & -> & r' & Hin & Hnd).
    exists t. split; [reflexivity|]. exists r'. split; [right|]; assumption.
  - injection H as <-. apply collect_result_raise in Hr as (c & t & Hin & ->).
    exists t. split; [reflexivity|]. exists r. split; [left|].
    exists c, t. exact Hin.
Qed.

Lemma collect_non_dict (results : list eval_result)
    (acc : gmap string (gmap string (list mvalue))) :
  (exists result, result ∈ results /\ has_non_dict result) ->
  exists type_name, collect acc results = Raised (AttributeError type_name).
Proof.
  intros (r & Hin & Hnd). revert acc.
  induction results as [|r' results IH]; intros acc.
  - apply elem_of_nil in Hin. contradiction.
  - simpl. destruct (collect_result acc r') as [acc'|e] eqn:Hr.
    + apply elem_of_cons in Hin as [->|Hin].
      * destruct (collect_result_non_dict r' acc Hnd) as [t Ht].
        rewrite Ht in Hr. discriminate Hr.
      * apply IH, Hin.
    + apply collect_result_raise in Hr as (c & t & _ & ->). eauto.
Qed.

(** [generate_evaluation_report] raises [AttributeError] exactly when
    one of the results holds, under some key, a value that is no
    dictionary (a string, a number, [None]): it calls [items] on every
    value of every result. *)
Theorem report_attribute_error_iff :
  forall evaluation_results : list eval_result,
    (exists type_name,
        generate_evaluation_report evaluation_results
        = Raised (AttributeError type_name))
    <-> exists result, result ∈ evaluation_results /\ has_non_dict result.
Proof.
  intros results. unfold generate_evaluation_report. split.
  - intros [t H]. destruct results as [|r results]; [discriminate H|].
    cbn [Evaluation.is_nil] in H.
    destruct (collect ∅ (r :: results)) as [avg|e] eqn:Hc.
    + unfold summarize in H. destruct (decide _); discriminate H.
    + apply collect_raise in Hc as (t' & _ & Hex). exact Hex.
  - intros Hex. destruct results as [|r results].
    { destruct Hex as (r & Hin & _). apply elem_of_nil in Hin.
      contradiction. }
    cbn [Evaluation.is_nil].
    destruct (collect_non_dict (r :: results) ∅ Hex) as [t Ht].
    exists t. rewrite Ht. reflexivity.
Qed.

Lemma rag_metrics_returned (query : string) (retrieved_docs : list doc)
    (generated_answer reference_answer : string)
    (relevant_docs context : list doc) :
  exists m,
    calculate_rag_metrics query retrieved_docs generated_answer
      reference_answer relevant_docs context = Returned m.
Proof.
  unfold calculate_rag_metrics, _calculate_overall_score.
  rewrite retrieval_score_value, generation_score_value.
  eexists. reflexivity.
Qed.

(** The two functions do not compose. The dictionary that
    [calculate_rag_metrics] returns holds the number [overall_score]
    beside the two dictionaries of metrics, so a list that starts with
    such a dictionary makes [generate_evaluation_report] raise the
    [AttributeError] that names the type of that number, whatever the
    type is and whatever follows in the list. *)
Theorem report_rejects_rag_metrics :
  forall (query : string) (retrieved_docs : list doc)
         (generated_answer reference_answer : string)
         (relevant_docs context : list doc) (m : RagMetrics)
         (score_type : string) (rest : list eval_result),
    calculate_rag_metrics query retrieved_docs generated_answer
      reference_answer relevant_docs context = Returned m ->
    generate_evaluation_report (rag_result score_type m :: rest)
    = Raised (AttributeError score_type).
Proof.
  intros query l g r rel ctx m t rest _.
  unfold generate_evaluation_report. cbn [Evaluation.is_nil collect].
  assert (Hr : forall acc, collect_result acc (rag_result t m)
                           = Raised (AttributeError t)).
  { intros acc. reflexivity. }
  rewrite Hr. reflexivity.
Qed.

Lemma report_rejects_rag_metrics_witness :
  exists m,
    calculate_rag_metrics "q" [doc_with_id "a"] "a b" "a b"
      [doc_with_id "a"] [] = Returned m
    /\ generate_evaluation_report [rag_result "numpy.float64" m]
       = Raised (AttributeError "numpy.float64").
Proof.
  destruct (rag_metrics_returned "q" [doc_with_id "a"] "a b" "a b"
              [doc_with_id "a"] []) as [m Hm].
  exists m. split; [exact Hm|].
  apply (report_rejects_rag_metrics "q" [doc_with_id "a"] "a b" "a b"
           [doc_with_id "a"] [] m "numpy.float64" [] Hm).
Defined.

(** ** The report: what is collected *)

Lemma collected_append_value
    (avg : gmap string (gmap string (list mvalue)))
    (c m c' m' : string) (v : mvalue) :
  collected (append_value avg c m v) c' m'
  = if decide (c = c' /\ m = m')
    then Some (collected_list avg c m ++ [v])
    else collected avg c' m'.
Proof.
  unfold collected, collected_list, collected, append_value.
  destruct (decide (c = c')) as [<-|Hc].
  - rewrite lookup_insert_eq. destruct (decide (m = m')) as [<-|Hm].
    + rewrite decide_True by auto. rewrite lookup_insert_eq.
      destruct (avg !! c); reflexivity.
    + rewrite decide_False by (intros [_ ?]; contradiction).
      rewrite lookup_insert_ne by exact Hm.
      destruct (avg !! c); [reflexivity|apply lookup_empty].
  - rewrite decide_False by (intros [? _]; contradiction).
    rewrite lookup_insert_ne by exact Hc. reflexivity.
Qed.

Lemma collected_list_append_value
    (avg : gmap string (gmap string (list mvalue)))
    (c m c' m' : string) (v : mvalue) :
  collected_list (append_value avg c m v) c' m'
  = collected_list avg c' m'
    ++ (if decide (c = c' /\ m = m') then [v] else []).
Proof.
  unfold collected_list at 1. rewrite collected_append_value.
  destruct (decide (c = c' /\ m = m')) as [[<- <-]|_]; simpl.
  - reflexivity.
  - rewrite app_nil_r. reflexivity.
Qed.

Lemma lists_nonempty_append_value
    (avg : gmap string (gmap string (list mvalue)))
    (c m : string) (v : mvalue) :
  lists_nonempty avg -> lists_nonempty (append_value avg c m v).
Proof.
  intros H c' m' vs. rewrite collected_append_value.
  destruct (decide _); [|apply H].
  intros [= <-]. destruct (collected_list avg c m); discriminate.
Qed.

Lemma collected_new_category
    (avg : gmap string (gmap string (list mvalue))) (c c' m' : string) :
  avg !! c = None ->
  collected (<[c := ∅]> avg) c' m' = collected avg c' m'.
Proof.
  intros H. unfold collected. destruct (decide (c = c')) as [<-|Hc].
  - rewrite lookup_insert_eq, H. apply lookup_empty.
  - rewrite lookup_insert_ne by exact Hc. reflexivity.
Qed.

(** The values of the metric [m'] among the items of a dictionary of
    metrics. *)
Lemma fold_append_values (metrics : list (string * mvalue)) (c c' m' : string) :
  forall avg : gmap string (gmap string (list mvalue)),
    lists_nonempty avg ->
    let avg' := fold_left (fun acc p => append_value acc c (fst p) (snd p))
                  metrics avg in
    lists_nonempty avg'
    /\ collected_list avg' c' m'
       = collected_list avg c' m'
         ++ (if String.eqb c c'
             then map snd (filter (fun p => fst p = m') metrics)
             else []).
Proof.
  induction metrics as [|[m v] metrics IH]; intros avg Hne; simpl.
  - split; [exact Hne|]. destruct (String.eqb c c'); rewrite app_nil_r;
      reflexivity.
  - destruct (IH (append_value avg c m v)
                (lists_nonempty_append_value avg c m v Hne)) as [H1 H2].
    split; [exact H1|]. rewrite H2, collected_list_append_value.
    rewrite <- app_assoc. f_equal.
    destruct (String.eqb_spec c c') as [<-|Hc].
    + destruct (decide (m = m')) as [<-|Hm].
      * rewrite decide_True by auto.
        rewrite filter_cons_True by reflexivity. reflexivity.
      * rewrite decide_False by (intros [_ ?]; contradiction).
        rewrite filter_cons_False by exact Hm. reflexivity.
    + rewrite decide_False by (intros [? _]; contradiction). reflexivity.
Qed.

Lemma collect_result_values (result : eval_result) (c m : string) :
  forall avg avg' : gmap string (gmap string (list mvalue)),
    lists_nonempty avg ->
    collect_result avg result = Returned avg' ->
    lists_nonempty avg'
    /\ collected_list avg' c m
       = collected_list avg c m ++ flat_map (entry_values c m) result.
Proof.
  induction result as [|[c0 [ms|t]] result IH]; intros avg avg' Hne H;
    simpl in H.
  - injection H as <-. split; [exact Hne|]. simpl. rewrite app_nil_r.
    reflexivity.
  - set (avg0 := match avg !! c0 with
                 | Some _ => avg
                 | None => <[c0 := ∅]> avg
                 end) in *.
    assert (H0 : forall c' m', collected avg0 c' m' = collected avg c' m').
    { intros c' m'. unfold avg0. destruct (avg !! c0) eqn:E; [reflexivity|].
      apply collected_new_category, E. }
    assert (Hne0 : lists_nonempty avg0).
    { intros c' m' vs. rewrite H0. apply Hne. }
    destruct (fold_append_values ms c0 c m avg0 Hne0) as [Hne1 Hl1].
    destruct (IH _ _ Hne1 H) as [Hne' Hl'].
    split; [exact Hne'|]. rewrite Hl', Hl1.
    unfold collected_list at 1. rewrite H0. fold (collected_list avg c m).
    rewrite <- app_assoc. reflexivity.
  - discriminate H.
Qed.

Lemma collect_values (results : list eval_result) (c m : string) :
  forall avg avg' : gmap string (gmap string (list mvalue)),
    lists_nonempty avg ->
    collect avg results = Returned avg' ->
    lists_nonempty avg'
    /\ collected_list avg' c m = collected_list avg c m ++ values_of results c m.
Proof.
  induction results as [|r results IH]; intros avg avg' Hne H; simpl in H.
  - injection H as <-. split; [exact Hne|].
    unfold values_of. simpl. rewrite app_nil_r. reflexivity.
  - destruct (collect_result avg r) as [avg1|e] eqn:Hr; [|discriminate H].
    destruct (collect_result_values r c m avg avg1 Hne Hr) as [Hne1 Hl1].
    destruct (IH _ _ Hne1 H) as [Hne' Hl'].
    split; [exact Hne'|]. rewrite Hl', Hl1. unfold values_of. simpl.
    rewrite <- app_assoc. reflexivity.
Qed.

(** ** The report: what it holds *)

(** A report that is returned counts the results, holds statistics for
    exactly the metrics for which some result holds a value, under the
    category of that value, and gives the recommendations of
    [_generate_recommendations] on these statistics. *)
Theorem report_contents :
  forall (evaluation_results : list eval_result) (report : Report),
    generate_evaluation_report evaluation_results
    = Returned (Reported report) ->
    total_queries report = length evaluation_results
    /\ recommendations report = _generate_recommendations (metrics report)
    /\ forall category metric,
         is_Some (stat_of (metrics report) category metric)
         <-> values_of evaluation_results category metric <> [].
Proof.
  intros results report H. unfold generate_evaluation_report in H.
  destruct (Evaluation.is_nil results); [discriminate H|].
  destruct (collect ∅ results) as [avg|e] eqn:Hc; [|discriminate H].
  unfold summarize in H.
  destruct (decide (all_numbers avg)) as [Hnum|_]; [|discriminate H].
  injection H as <-. simpl.
  split; [reflexivity|]. split; [reflexivity|].
  intros c m.
  assert (Hempty : lists_nonempty ∅).
  { intros c' m' vs. unfold collected. rewrite lookup_empty. discriminate. }
  destruct (collect_values results c m ∅ avg Hempty Hc) as [Hne Hl].
  replace (collected_list ∅ c m) with (@nil mvalue) in Hl
    by (unfold collected_list, collected; rewrite lookup_empty; reflexivity).
  simpl in Hl. rewrite <- Hl.
  unfold stat_of. rewrite lookup_fmap.
  unfold collected_list, collected in *.
  destruct (avg !! c) as [inner|] eqn:Ec; simpl.
  - rewrite lookup_fmap.
    destruct (inner !! m) as [vs|] eqn:Em; simpl.
    + split; [|eauto]. intros _. apply (Hne c m).
      unfold collected. rewrite Ec. exact Em.
    + split; [intros [x Hx]; discriminate Hx|intros Hx; contradiction].
  - split; [intros [x Hx]; discriminate Hx|intros Hx; contradiction].
Qed.

(** ** The report: when it is returned *)

Lemma numbers_is_Some (values : list mvalue) :
  is_Some (numbers values) <-> forallb is_num values = true.
Proof.
  induction values as [|[x|] values IH]; simpl.
  - split; [reflexivity|eauto].
  - rewrite <- IH. destruct (numbers values); split; intros H; eauto;
      destruct H as [? H]; discriminate H.
  - split; [intros [? H]|intros H]; discriminate H.
Qed.

Lemma forallb_app_true {A : Type} (f : A -> bool) (l1 l2 : list A) :
  forallb f (l1 ++ l2) = true <->
  forallb f l1 = true /\ forallb f l2 = true.
Proof.
  rewrite forallb_app. apply andb_true_iff.
Qed.

Lemma filter_values_numeric (metrics : list (string * mvalue)) (m : string) :
  forallb (fun p => is_num (snd p)) metrics = true ->
  forallb is_num (map snd (filter (fun p => fst p = m) metrics)) = true.
Proof.
  induction metrics as [|[m' v] metrics IH]; simpl; [reflexivity|].
  intros H. apply andb_true_iff in H as [Hv H].
  destruct (decide (m' = m)) as [Heq|Hne].
  - rewrite filter_cons_True by exact Heq. simpl. rewrite Hv. apply IH, H.
  - rewrite filter_cons_False by exact Hne. apply IH, H.
Qed.

Lemma values_of_numeric (results : list eval_result) (c m : string) :
  numeric_results results = true ->
  forallb is_num (values_of results c m) = true.
Proof.
  unfold numeric_results, values_of.
  induction results as [|r results IH]; simpl; [reflexivity|].
  intros H. apply andb_true_iff in H as [Hr H].
  apply forallb_app_true. split; [|apply IH, H]. clear IH H.
  induction r as [|[c' e] r IH]; simpl; [reflexivity|].
  simpl in Hr. apply andb_true_iff in Hr as [He Hr].
  apply forallb_app_true. split; [|apply IH, Hr].
  unfold entry_values, numeric_entry in *. simpl in *.
  destruct e as [ms|t]; [|reflexivity].
  destruct (String.eqb c' c); [|reflexivity].
  apply filter_values_numeric, He.
Qed.

Lemma numeric_results_no_non_dict (results : list eval_result) :
  numeric_results results = true ->
  ~ exists result, result ∈ results /\ has_non_dict result.
Proof.
  intros H (r & Hin & c & t & Hit).
  unfold numeric_results in H. rewrite forallb_forall in H.
  apply list_elem_of_In in Hin. specialize (H r Hin).
  rewrite forallb_forall in H. apply list_elem_of_In in Hit.
  specialize (H _ Hit). discriminate H.
Qed.

(** A metric whose value is no number is among the values of its
    name. *)
Lemma not_numeric_value (results : list eval_result) :
  (forall c m, forallb is_num (values_of results c m) = true) ->
  (forall r, r ∈ results -> ~ has_non_dict r) ->
  numeric_results results = true.
Proof.
  intros Hnum Hnd. unfold numeric_results.
  apply forallb_forall. intros r Hr. apply forallb_forall.
  intros [c e] Hit. unfold numeric_entry. simpl.
  destruct e as [ms|t].
  - apply forallb_forall. intros [m v] Hp. simpl.
    specialize (Hnum c m). rewrite forallb_forall in Hnum. apply Hnum.
    unfold values_of. apply in_flat_map. exists r. split; [exact Hr|].
    apply in_flat_map. exists (c, Metrics ms). split; [exact Hit|].
    unfold entry_values. simpl. rewrite String.eqb_refl.
    apply in_map_iff. exists (m, v). split; [reflexivity|].
    apply list_elem_of_In, list_elem_of_filter. split; [reflexivity|].
    apply list_elem_of_In, Hp.
  - exfalso. apply (Hnd r); [apply list_elem_of_In, Hr|].
    exists c, t. apply list_elem_of_In, Hit.
Qed.

Lemma lists_nonempty_empty : lists_nonempty ∅.
Proof.
  intros c m vs. unfold collected. rewrite lookup_empty. discriminate.
Qed.

Lemma collect_from_empty (results : list eval_result)
    (avg : gmap string (gmap string (list mvalue))) :
  collect ∅ results = Returned avg ->
  lists_nonempty avg
  /\ forall c m, collected_list avg c m = values_of results c m.
Proof.
  intros Hc. split.
  - apply (collect_values results "" "" ∅ avg lists_nonempty_empty Hc).
  - intros c m.
    destruct (collect_values results c m ∅ avg lists_nonempty_empty Hc)
      as [_ Hl].
    rewrite Hl. unfold collected_list, collected. rewrite lookup_empty.
    reflexivity.
Qed.

Lemma all_numbers_iff (results : list eval_result)
    (avg : gmap string (gmap string (list mvalue))) :
  collect ∅ results = Returned avg ->
  all_numbers avg
  <-> forall c m, forallb is_num (values_of results c m) = true.
Proof.
  intros Hc. destruct (collect_from_empty results avg Hc) as [Hne Hl].
  split.
  - intros Hnum c m. rewrite <- Hl. unfold collected_list, collected.
    destruct (avg !! c) as [inner|] eqn:Ec; [|reflexivity].
    destruct (inner !! m) as [vs|] eqn:Em; [|reflexivity].
    simpl. apply numbers_is_Some. exact (Hnum c inner Ec m vs Em).
  - intros Hnum c inner Ec m vs Em. apply numbers_is_Some.
    specialize (Hnum c m). rewrite <- Hl in Hnum.
    unfold collected_list, collected in Hnum. rewrite Ec, Em in Hnum.
    exact Hnum.
Qed.

Lemma report_returned (results : list eval_result) :
  results <> [] ->
  numeric_results results = true ->
  exists report, generate_evaluation_report results
                 = Returned (Reported report).
Proof.
  intros Hnil Hnum. unfold generate_evaluation_report.
  destruct results as [|r results]; [contradiction|].
  cbn [Evaluation.is_nil].
  destruct (collect ∅ (r :: results)) as [avg|e] eqn:Hc.
  - unfold summarize. destruct (decide (all_numbers avg)) as [_|Hn].
    + eauto.
    + exfalso. apply Hn. apply (all_numbers_iff _ _ Hc).
      intros c m. apply values_of_numeric, Hnum.
  - exfalso. apply collect_raise in Hc as (t & _ & Hex).
    exact (numeric_results_no_non_dict _ Hnum Hex).
Qed.

(** [generate_evaluation_report] returns the dictionary of the error
    exactly when there is no result. It returns a report only when every
    value of every result is a dictionary whose values are numbers, and
    it raises [TypeError] only when some value of a dictionary is no
    number while every value of every result is a dictionary. *)
Theorem report_outcome_conditions :
  forall evaluation_results : list eval_result,
    (generate_evaluation_report evaluation_results = Returned NoResults
     <-> evaluation_results = [])
    /\ (forall report,
           generate_evaluation_report evaluation_results
           = Returned (Reported report) ->
           evaluation_results <> []
           /\ numeric_results evaluation_results = true)
    /\ (generate_evaluation_report evaluation_results = Raised TypeError ->
        numeric_results evaluation_results = false
        /\ forall result, result ∈ evaluation_results ->
                          ~ has_non_dict result).
Proof.
  intros results. split; [|split].
  - unfold generate_evaluation_report. destruct results as [|r results].
    + split; reflexivity.
    + cbn [Evaluation.is_nil]. split; [|discriminate].
      destruct (collect ∅ (r :: results)) as [avg|e]; [|discriminate].
      destruct (summarize avg); discriminate.
  - intros report H. unfold generate_evaluation_report in H.
    destruct results as [|r results]; [discriminate H|].
    cbn [Evaluation.is_nil] in H. split; [discriminate|].
    destruct (collect ∅ (r :: results)) as [avg|e] eqn:Hc; [|discriminate H].
    unfold summarize in H.
    destruct (decide (all_numbers avg)) as [Hnum|_]; [|discriminate H].
    apply not_numeric_value.
    + apply (all_numbers_iff _ _ Hc), Hnum.
    + intros r' Hin Hnd.
      destruct (collect_non_dict (r :: results) ∅) as [t Ht]; [eauto|].
      rewrite Ht in Hc. discriminate Hc.
  - unfold generate_evaluation_report. destruct results as [|r results].
    { discriminate. }
    cbn [Evaluation.is_nil].
    destruct (collect ∅ (r :: results)) as [avg|e] eqn:Hc.
    + assert (Hnd : forall r', r' ∈ r :: results -> ~ has_non_dict r').
      { intros r' Hin Hnd.
        destruct (collect_non_dict (r :: results) ∅) as [t Ht]; [eauto|].
        rewrite Ht in Hc. discriminate Hc. }
      unfold summarize. destruct (decide (all_numbers avg)) as [Hnum|Hnum].
      * discriminate.
      * intros _. split; [|exact Hnd].
        destruct (numeric_results (r :: results)) eqn:E; [|reflexivity].
        exfalso. apply Hnum, (all_numbers_iff _ _ Hc).
        intros c m. apply values_of_numeric, E.
    + apply collect_raise in Hc as (t & -> & Hex). discriminate.
Qed.

Lemma report_contents_witness :
  exists report,
    generate_evaluation_report sample_results = Returned (Reported report)
    /\ total_queries report = 3%nat
    /\ is_Some (stat_of (metrics report) "retrieval" "precision")
    /\ stat_of (metrics report) "retrieval" "bleu_score" = None.
Proof.
  destruct (report_returned sample_results) as [report E];
    [discriminate|reflexivity|].
  exists report. split; [exact E|].
  destruct (report_contents sample_results report E) as (Hn & _ & Hs).
  split; [exact Hn|]. split.
  - apply Hs. discriminate.
  - destruct (stat_of (metrics report) "retrieval" "bleu_score") eqn:Hb;
      [|reflexivity].
    exfalso. apply (proj1 (Hs "retrieval" "bleu_score")); [eauto|].
    reflexivity.
Defined.

(** ** The recommendations *)

Lemma recommendation_names_distinct :
  NoDup [improve_precision; improve_recall; improve_consistency;
         improve_relevance; performance_good].
Proof.
  apply (bool_decide_unpack _). vm_compute. exact I.
Qed.

Lemma elem_of_optional (x a : string) (P : Prop) (d : {P} + {~ P}) :
  x ∈ (if d then [a] else []) <-> x = a /\ P.
Proof.
  destruct d as [H|H].
  - rewrite list_elem_of_singleton. tauto.
  - rewrite elem_of_nil. tauto.
Qed.

Lemma elem_of_category (x a b : string) (metrics : gmap string (gmap string Stats))
    (category ma mb : string) (ta tb : R) :
  x ∈ match metrics !! category with
      | Some d =>
          (if Rlt_dec (mean_or_0 d ma) ta then [a] else [])
          ++ (if Rlt_dec (mean_or_0 d mb) tb then [b] else [])
      | None => []
      end
  <-> (x = a /\ low_mean metrics category ma ta)
      \/ (x = b /\ low_mean metrics category mb tb).
Proof.
  unfold low_mean. destruct (metrics !! category) as [d|].
  - rewrite elem_of_app, !elem_of_optional. split.
    + intros [[-> H]|[-> H]]; [left|right]; eauto.
    + intros [[-> (d' & [= <-] & H)]|[-> (d' & [= <-] & H)]]; auto.
  - rewrite elem_of_nil. split; [tauto|].
    intros [[_ (d & H & _)]|[_ (d & H & _)]]; discriminate H.
Qed.

Lemma length_category (a b : string) (metrics : gmap string (gmap string Stats))
    (category ma mb : string) (ta tb : R) :
  (length match metrics !! category with
          | Some d =>
              (if Rlt_dec (mean_or_0 d ma) ta then [a] else [])
              ++ (if Rlt_dec (mean_or_0 d mb) tb then [b] else [])
          | None => []
          end <= 2)%nat.
Proof.
  destruct (metrics !! category) as [d|]; [|simpl; lia].
  repeat destruct (Rlt_dec _ _); simpl; lia.
Qed.

(** Each of the four recommendations is given exactly when the report
    holds its category and the mean of its metric, read as 0 when the
    metric is missing, is below its threshold; the remark that the
    performance is good is given exactly when none of the four is, and
    then alone; the list is never empty and holds at most four
    recommendations. *)
Theorem recommendations_spec :
  forall metrics : gmap string (gmap string Stats),
    let recs := _generate_recommendations metrics in
    (improve_precision ∈ recs
     <-> low_mean metrics "retrieval" "precision" (5 / 10))
    /\ (improve_recall ∈ recs
        <-> low_mean metrics "retrieval" "recall" (5 / 10))
    /\ (improve_consistency ∈ recs
        <-> low_mean metrics "generation" "consistency_score" (7 / 10))
    /\ (improve_relevance ∈ recs
        <-> low_mean metrics "generation" "relevance_score" (7 / 10))
    /\ (performance_good ∈ recs <-> recs = [performance_good])
    /\ (recs = [performance_good]
        <-> ~ low_mean metrics "retrieval" "precision" (5 / 10)
            /\ ~ low_mean metrics "retrieval" "recall" (5 / 10)
            /\ ~ low_mean metrics "generation" "consistency_score" (7 / 10)
            /\ ~ low_mean metrics "generation" "relevance_score" (7 / 10))
    /\ (1 <= length recs <= 4)%nat.
Proof.
  intros metrics recs.
  pose proof recommendation_names_distinct as Hd.
  apply NoDup_cons in Hd as [H1 Hd]. apply NoDup_cons in Hd as [H2 Hd].
  apply NoDup_cons in Hd as [H3 Hd]. apply NoDup_cons in Hd as [H4 _].
  rewrite !elem_of_cons in H1. rewrite !elem_of_cons in H2.
  rewrite !elem_of_cons in H3. rewrite !elem_of_cons in H4.
  assert (Hmem : forall x,
             x ∈ recs <->
             (x = improve_precision
              /\ low_mean metrics "retrieval" "precision" (5 / 10))
             \/ (x = improve_recall
                 /\ low_mean metrics "retrieval" "recall" (5 / 10))
             \/ (x = improve_consistency
                 /\ low_mean metrics "generation" "consistency_score" (7 / 10))
             \/ (x = improve_relevance
                 /\ low_mean metrics "generation" "relevance_score" (7 / 10))
             \/ (x = performance_good
                 /\ ~ low_mean metrics "retrieval" "precision" (5 / 10)
                 /\ ~ low_mean metrics "retrieval" "recall" (5 / 10)
                 /\ ~ low_mean metrics "generation" "consistency_score" (7 / 10)
                 /\ ~ low_mean metrics "generation" "relevance_score" (7 / 10))).
  { intros x. unfold recs, _generate_recommendations.
    match goal with
    | |- context [Evaluation.is_nil ?l] => set (l0 := l)
    end.
    assert (Hl : forall y,
               y ∈ l0 <->
               ((y = improve_precision
                 /\ low_mean metrics "retrieval" "precision" (5 / 10))
                \/ (y = improve_recall
                    /\ low_mean metrics "retrieval" "recall" (5 / 10)))
               \/ ((y = improve_consistency
                    /\ low_mean metrics "generation" "consistency_score"
                         (7 / 10))
                   \/ (y = improve_relevance
                       /\ low_mean metrics "generation" "relevance_score"
                            (7 / 10)))).
    { intros y. unfold l0. rewrite elem_of_app, !elem_of_category.
      reflexivity. }
    destruct l0 as [|z l0]; cbn [Evaluation.is_nil].
    - rewrite list_elem_of_singleton. split.
      + intros ->. do 4 right. split; [reflexivity|].
        repeat split; intros Hlow.
        * apply (elem_of_nil improve_precision), Hl. tauto.
        * apply (elem_of_nil improve_recall), Hl. tauto.
        * apply (elem_of_nil improve_consistency), Hl. tauto.
        * apply (elem_of_nil improve_relevance), Hl. tauto.
      + intros [[-> H]|[[-> H]|[[-> H]|[[-> H]|[-> _]]]]];
          try reflexivity; exfalso;
          [apply (elem_of_nil improve_precision)
          |apply (elem_of_nil improve_recall)
          |apply (elem_of_nil improve_consistency)
          |apply (elem_of_nil improve_relevance)]; apply Hl; tauto.
    - rewrite Hl. split; [tauto|].
      intros [H|[H|[H|[H|[-> (N1 & N2 & N3 & N4)]]]]]; try tauto.
      exfalso. assert (Hz : z ∈ z :: l0) by left.
      apply Hl in Hz. tauto. }
  assert (Hlen : (1 <= length recs <= 4)%nat).
  { unfold recs, _generate_recommendations.
    match goal with
    | |- context [Evaluation.is_nil ?l] => set (l0 := l)
    end.
    assert (Hl : (length l0 <= 4)%nat).
    { unfold l0. rewrite length_app.
      pose proof (length_category improve_precision improve_recall metrics
                    "retrieval" "precision" "recall" (5 / 10) (5 / 10)).
      pose proof (length_category improve_consistency improve_relevance
                    metrics "generation" "consistency_score"
                    "relevance_score" (7 / 10) (7 / 10)).
      lia. }
    destruct l0; cbn [Evaluation.is_nil]; simpl in *; lia. }
  assert (Hgood : recs = [performance_good]
                  <-> ~ low_mean metrics "retrieval" "precision" (5 / 10)
                      /\ ~ low_mean metrics "retrieval" "recall" (5 / 10)
                      /\ ~ low_mean metrics "generation" "consistency_score"
                             (7 / 10)
                      /\ ~ low_mean metrics "generation" "relevance_score"
                             (7 / 10)).
  { split.
    - intros Heq.
      assert (Hin : performance_good ∈ recs) by (rewrite Heq; left).
      apply Hmem in Hin.
      destruct Hin as [[E _]|[[E _]|[[E _]|[[E _]|[_ H]]]]];
        [exfalso; first [tauto|symmetry in E; tauto]..|exact H].
    - intros HN. unfold recs, _generate_recommendations.
      match goal with
      | |- context [Evaluation.is_nil ?l] => remember l as l0 eqn:El0
      end.
      destruct l0 as [|z l1]; cbn [Evaluation.is_nil]; [reflexivity|].
      exfalso. assert (Hz : z ∈ z :: l1) by left.
      rewrite El0, elem_of_app, !elem_of_category in Hz. tauto. }
  split; [|split; [|split; [|split; [|split; [|split]]]]].
  - rewrite Hmem. split; [|tauto].
    intros [[_ H]|[[E _]|[[E _]|[[E _]|[E _]]]]]; [exact H|exfalso; tauto..].
  - rewrite Hmem. split; [|tauto].
    intros [[E _]|[[_ H]|[[E _]|[[E _]|[E _]]]]];
      [|exact H|..]; exfalso;
      first [tauto|symmetry in E; tauto].
  - rewrite Hmem. split; [|tauto].
    intros [[E _]|[[E _]|[[_ H]|[[E _]|[E _]]]]];
      [| |exact H|..]; exfalso;
      first [tauto|symmetry in E; tauto].
  - rewrite Hmem. split; [|tauto].
    intros [[E _]|[[E _]|[[E _]|[[_ H]|[E _]]]]];
      [| | |exact H|]; exfalso;
      first [tauto|symmetry in E; tauto].
  - rewrite Hgood, Hmem. split; [|tauto].
    intros [[E _]|[[E _]|[[E _]|[[E _]|[_ H]]]]];
      [exfalso; first [tauto|symmetry in E; tauto]..|exact H].
  - exact Hgood.
  - exact Hlen.
Qed.
End EvaluationReportFacts.

(** * Further facts about the chunking agent *)

Module ChunkerFacts.
Import PyStr PyList Regex Chunking LineChunking PyStrFacts ChunkingProps
  StrategyProps StrategyInvariants ChunkingFacts.

#[local] Open Scope Z_scope.

(** ** The validation pass as a filter *)

Section ValidationFacts.

Variable uuid4 : nat -> string.
Variable config : ChunkingAgentConfig.

(** [range(0, len, step)] is empty for a negative step. *)
Lemma range_negative_step (len : nat) (step : Z) :
  step < 0 -> range 0 (Z.of_nat len) step = Some [].
Proof.
  intros Hs. unfold range, range_len.
  destruct (Z.eqb_spec step 0) as [|_]; [lia|].
  destruct (Z.ltb_spec 0 step) as [|_]; [lia|].
  replace (Z.to_nat ((0 - Z.of_nat len - step - 1) / - step)) with 0%nat;
    [reflexivity|].
  assert (Hq : (0 - Z.of_nat len - step - 1) / - step <= 0).
  { apply Z.lt_succ_r. apply Z.div_lt_upper_bound; lia. }
  lia.
Qed.

Lemma split_large_chunk_negative (chunk : ChunkedDocument) (n : nat) :
  chunk_size config < 0 ->
  _split_large_chunk uuid4 config chunk n = Ok ([], n).
Proof.
  intros Hs. unfold _split_large_chunk.
  rewrite (range_negative_step _ _ Hs). reflexivity.
Qed.

Lemma validate_fold_filter (l acc : list ChunkedDocument) (n : nat) :
  chunk_size config < 0
  \/ Forall (fun c => words_of c <= max_chunk_size config) l ->
  foldM (validate_step uuid4 config) l acc n
  = Ok (acc ++ List.filter (within_bounds config) l, n).
Proof.
  revert acc. induction l as [|c l IH]; intros acc H; simpl.
  - rewrite app_nil_r. reflexivity.
  - assert (Hl : chunk_size config < 0
                 \/ Forall (fun c => words_of c <= max_chunk_size config) l).
    { destruct H as [H|H]; [left; exact H|right].
      inversion H; assumption. }
    unfold bind, validate_step at 1, within_bounds. fold (words_of c).
    destruct (Z.ltb_spec (words_of c) (min_chunk_size config)) as [Hlo|Hlo].
    + replace (min_chunk_size config <=? words_of c) with false
        by (symmetry; apply Z.leb_gt; exact Hlo).
      simpl. apply IH, Hl.
    + replace (min_chunk_size config <=? words_of c) with true
        by (symmetry; apply Z.leb_le; exact Hlo).
      destruct (Z.ltb_spec (max_chunk_size config) (words_of c)) as [Hhi|Hhi].
      * destruct H as [H|H].
        -- unfold bind. rewrite (split_large_chunk_negative c n H).
           replace (words_of c <=? max_chunk_size config) with false
             by (symmetry; apply Z.leb_gt; exact Hhi).
           simpl. unfold ret. rewrite app_nil_r. apply IH, Hl.
        -- inversion H; subst. lia.
      * replace (words_of c <=? max_chunk_size config) with true
          by (symmetry; apply Z.leb_le; exact Hhi).
        simpl. unfold ret. rewrite IH by exact Hl.
        rewrite <- app_assoc. reflexivity.
Qed.

(** ** When the validation pass raises *)

Lemma validate_fold_raise (l acc : list ChunkedDocument) (n : nat)
    (e : exn) :
  foldM (validate_step uuid4 config) l acc n = Raise e <->
  e = ValueError /\ chunk_size config = 0
  /\ exists c, c ∈ l /\ oversized config c = true.
Proof.
  revert acc n. induction l as [|c l IH]; intros acc n; simpl.
  - split; [discriminate|].
    intros (_ & _ & c & Hc & _). apply elem_of_nil in Hc. contradiction.
  - unfold bind, validate_step at 1. fold (words_of c).
    destruct (Z.ltb_spec (words_of c) (min_chunk_size config)) as [Hlo|Hlo].
    + unfold ret. rewrite IH. split.
      * intros (He & Hcs & c' & Hin & Hov). repeat split; try assumption.
        exists c'. split; [right|]; assumption.
      * intros (He & Hcs & c' & Hin & Hov). repeat split; try assumption.
        exists c'. split; [|exact Hov].
        apply elem_of_cons in Hin as [->|Hin]; [|exact Hin].
        unfold oversized in Hov. apply andb_true_iff in Hov as [Hov _].
        apply Z.leb_le in Hov. lia.
    + destruct (Z.ltb_spec (max_chunk_size config) (words_of c)) as [Hhi|Hhi].
      * assert (Hov : oversized config c = true).
        { unfold oversized. apply andb_true_iff.
          split; [apply Z.leb_le|apply Z.ltb_lt]; assumption. }
        unfold bind.
        destruct (Z.eq_dec (chunk_size config) 0) as [Hcs|Hcs].
        -- rewrite (split_large_chunk_zero uuid4 config c n Hcs). split.
           ++ intros [= <-]. repeat split; try assumption.
              exists c. split; [left|exact Hov].
           ++ intros (-> & _). reflexivity.
        -- destruct (split_large_chunk_total uuid4 config c n Hcs)
             as (subs & n' & Hs).
           rewrite Hs. unfold ret. rewrite IH. split.
           ++ intros (_ & Hcs' & _). contradiction.
           ++ intros (_ & Hcs' & _). contradiction.
      * unfold ret. rewrite IH. split.
        -- intros (He & Hcs & c' & Hin & Hov). repeat split; try assumption.
           exists c'. split; [right|]; assumption.
        -- intros (He & Hcs & c' & Hin & Hov). repeat split; try assumption.
           exists c'. split; [|exact Hov].
           apply elem_of_cons in Hin as [->|Hin]; [|exact Hin].
           unfold oversized in Hov. apply andb_true_iff in Hov as [_ Hov].
           apply Z.ltb_lt in Hov. lia.
Qed.

End ValidationFacts.

(** When [chunk_size] is negative, or no chunk has more words than
    [max_chunk_size], the validation pass is a filter: it returns, in
    their order, the chunks whose number of words lies within the two
    bounds, and draws no identifier. A negative [chunk_size] makes every
    chunk over the upper bound vanish. *)
Theorem validate_chunks_filter :
  forall (uuid4 : nat -> string) (config : ChunkingAgentConfig)
         (l : list ChunkedDocument) (n : nat),
    chunk_size config < 0
    \/ Forall (fun c => words_of c <= max_chunk_size config) l ->
    _validate_chunks uuid4 config l n
    = Ok (List.filter (within_bounds config) l, n).
Proof.
  intros uuid4 config l n H. unfold _validate_chunks.
  rewrite validate_fold_filter by exact H. reflexivity.
Qed.

Lemma validate_chunks_filter_witness :
  _validate_chunks sample_uuid4 negative_config
    [sample_chunk "a b"; sample_chunk "a b c d e"; sample_chunk ""] 0%nat
  = Ok ([sample_chunk "a b"], 0%nat).
Proof.
  apply (validate_chunks_filter sample_uuid4 negative_config
           [sample_chunk "a b"; sample_chunk "a b c d e"; sample_chunk ""]
           0%nat).
  left. reflexivity.
Defined.

(** The validation pass raises exactly when [chunk_size] is 0 and some
    chunk has at least [min_chunk_size] and more than [max_chunk_size]
    words; what it raises is the [ValueError] of [range]. *)
Theorem validate_chunks_raises_iff :
  forall (uuid4 : nat -> string) (config : ChunkingAgentConfig)
         (l : list ChunkedDocument) (n : nat) (e : exn),
    _validate_chunks uuid4 config l n = Raise e <->
    e = ValueError /\ chunk_size config = 0
    /\ exists c, c ∈ l /\ oversized config c = true.
Proof.
  intros uuid4 config l n e. apply validate_fold_raise.
Qed.

(** ** The sub-chunks of a chunk *)

(** Windows of [size] elements, one after the other, cover a list. *)
Lemma windows_cover {A} (size : nat) :
  (0 < size)%nat ->
  forall (q : nat) (l : list A),
    (length l <= q * size)%nat ->
    concat (map (fun k => take size (drop (k * size) l)) (seq 0 q)) = l.
Proof.
  intros Hs. induction q as [|q IH]; intros l Hl.
  - destruct l; [reflexivity|simpl in Hl; lia].
  - rewrite <- cons_seq, <- fmap_S_seq. cbn [map concat].
    change (fmap S (seq 0 q)) with (map S (seq 0 q)).
    rewrite map_map. simpl drop at 1.
    rewrite (map_ext _ (fun k => take size (drop (k * size) (drop size l)))).
    + rewrite IH by (rewrite length_drop; lia). apply take_drop.
    + intros k. rewrite drop_drop. reflexivity.
Qed.

Section SubChunks.

Variable uuid4 : nat -> string.
Variable config : ChunkingAgentConfig.

Lemma slice_as_window {A} (l : list A) (k : nat) :
  0 < chunk_size config ->
  slice l (Z.of_nat k * chunk_size config)
        (Z.of_nat k * chunk_size config + chunk_size config)
  = take (Z.to_nat (chunk_size config))
         (drop (k * Z.to_nat (chunk_size config)) l).
Proof.
  intros Hcs. unfold slice, clamp.
  set (cs := chunk_size config) in *.
  destruct (Z.ltb_spec (Z.of_nat k * cs) 0) as [|_]; [nia|].
  destruct (Z.ltb_spec (Z.of_nat k * cs + cs) 0) as [|_]; [nia|].
  assert (Hk : Z.to_nat (Z.of_nat k * cs) = (k * Z.to_nat cs)%nat) by nia.
  assert (Hk' : Z.to_nat (Z.of_nat k * cs + cs)
                = (k * Z.to_nat cs + Z.to_nat cs)%nat) by nia.
  rewrite Hk, Hk'.
  destruct (Nat.le_gt_cases (length l) (k * Z.to_nat cs)) as [Hle|Hgt].
  - rewrite !drop_ge by lia. rewrite !take_nil. reflexivity.
  - rewrite (Nat.min_l (k * Z.to_nat cs)) by lia.
    destruct (Nat.le_gt_cases (k * Z.to_nat cs + Z.to_nat cs) (length l))
      as [Hin|Hout].
    + f_equal. lia.
    + rewrite !take_ge by (rewrite length_drop; lia). reflexivity.
Qed.

Lemma sub_chunks_fold (chunk : ChunkedDocument) (words : list string)
    (offsets : list Z) :
  forall (acc : list ChunkedDocument) (n : nat),
  exists subs,
    foldM (fun sub_chunks i =>
             c <- sub_chunk uuid4 config chunk words i ;;
             ret (sub_chunks ++ [c]))
          offsets acc n
    = Ok (acc ++ subs, (n + length subs)%nat)
    /\ map content subs
       = map (fun i => join " " (slice words i (i + chunk_size config)))
             offsets
    /\ forall (j : nat) (c : ChunkedDocument),
         subs !! j = Some c -> id c = uuid4 (n + j)%nat.
Proof.
  induction offsets as [|i offsets IH]; intros acc n.
  - exists []. simpl. unfold ret. rewrite app_nil_r, Nat.add_0_r.
    split; [reflexivity|]. split; [reflexivity|]. intros j c H.
    discriminate H.
  - set (c0 :=
           {| id := uuid4 n; document_id := document_id chunk;
              content := join " " (slice words i (i + chunk_size config));
              chunk_index := chunk_index chunk;
              chunk_type := chunk_type chunk +:+ "_sub";
              language := language chunk;
              metadata :=
                <["is_sub_chunk" := VBool true]>
                  (<["original_chunk_id" := VStr (id chunk)]>
                     (metadata chunk));
              start_line := start_line chunk;
              end_line := end_line chunk;
              token_count :=
                Z.of_nat
                  (word_count
                     (join " " (slice words i (i + chunk_size config)))) |}).
    destruct (IH (acc ++ [c0]) (S n)) as (subs & Hf & Hc & Hid).
    exists (c0 :: subs). split; [|split].
    + cbn [foldM]. apply bind_ok. exists (acc ++ [c0]), (S n).
      split; [reflexivity|]. rewrite Hf, <- app_assoc. simpl.
      repeat f_equal. lia.
    + simpl. rewrite Hc. reflexivity.
    + intros [|j] c H; simpl in H.
      * injection H as <-. simpl. f_equal. lia.
      * rewrite (Hid j c H). f_equal. lia.
Qed.

End SubChunks.

(** For a positive [chunk_size], [_split_large_chunk] cuts the words of
    a chunk into consecutive runs of [chunk_size] words: the words of the
    sub-chunks, in their order, are the words of the chunk, none lost
    and none repeated, whatever [chunk_overlap] is; there is one
    sub-chunk for every [chunk_size] words, rounded up, each with a
    fresh identifier. *)
Theorem split_large_chunk_words :
  forall (uuid4 : nat -> string) (config : ChunkingAgentConfig)
         (chunk : ChunkedDocument) (n : nat),
    0 < chunk_size config ->
    exists subs,
      _split_large_chunk uuid4 config chunk n
      = Ok (subs, (n + length subs)%nat)
      /\ flat_map (fun c => split (content c)) subs = split (content chunk)
      /\ Z.of_nat (length subs)
         = (words_of chunk + chunk_size config - 1) / chunk_size config
      /\ forall (j : nat) (c : ChunkedDocument),
           subs !! j = Some c -> id c = uuid4 (n + j)%nat.
Proof.
  intros uuid4 config chunk n Hcs. unfold _split_large_chunk, range.
  destruct (Z.eqb_spec (chunk_size config) 0) as [|_]; [lia|].
  set (words := split (content chunk)).
  set (cs := chunk_size config) in *.
  unfold range_len. destruct (Z.ltb_spec 0 cs) as [_|]; [|lia].
  replace (Z.of_nat (length words) - 0 + cs - 1)
    with (Z.of_nat (length words) + cs - 1) by lia.
  set (q := Z.to_nat ((Z.of_nat (length words) + cs - 1) / cs)).
  destruct (sub_chunks_fold uuid4 config chunk words
              (map (fun k => 0 + Z.of_nat k * cs) (seq 0 q)) [] n)
    as (subs & Hf & Hc & Hid).
  exists subs. split; [exact Hf|].
  assert (Hq0 : 0 <= (Z.of_nat (length words) + cs - 1) / cs)
    by (apply Z.div_pos; lia).
  assert (Hlen : length subs = q).
  { rewrite <- (length_map content), Hc, !length_map, length_seq.
    reflexivity. }
  split; [|split; [|exact Hid]].
  - rewrite flat_map_concat_map, <- (map_map content split), Hc.
    rewrite !map_map.
    rewrite (map_ext_in _ (fun k => take (Z.to_nat cs)
                                      (drop (k * Z.to_nat cs) words))).
    + apply windows_cover; [lia|].
      pose proof (Z.mul_succ_div_gt (Z.of_nat (length words) + cs - 1) cs Hcs).
      unfold q. nia.
    + intros k _. simpl.
      rewrite split_join_tokens
        by (apply slice_Forall, split_all_tokens).
      apply slice_as_window. exact Hcs.
  - rewrite Hlen. unfold q, words_of, word_count. fold words. lia.
Qed.

Lemma split_large_chunk_words_witness :
  exists subs,
    _split_large_chunk sample_uuid4 small_config
      (sample_chunk "a b c d e") 0%nat
    = Ok (subs, (0 + length subs)%nat)
    /\ flat_map (fun c => split (content c)) subs
       = split (content (sample_chunk "a b c d e"))
    /\ Z.of_nat (length subs)
       = (words_of (sample_chunk "a b c d e") + chunk_size small_config - 1)
         / chunk_size small_config
    /\ forall (j : nat) (c : ChunkedDocument),
         subs !! j = Some c -> id c = sample_uuid4 (0 + j)%nat.
Proof.
  apply (split_large_chunk_words sample_uuid4 small_config
           (sample_chunk "a b c d e") 0%nat).
  reflexivity.
Defined.

(** ** Lines and their joins *)

Lemma append_assoc (a b c : string) : (a +:+ b) +:+ c = a +:+ (b +:+ c).
Proof.
  induction a as [|x a IH]; [reflexivity|].
  change (String x ((a +:+ b) +:+ c) = String x (a +:+ (b +:+ c))).
  rewrite IH. reflexivity.
Qed.

Lemma split_on_nonempty (sep : ascii) (s : string) : split_on sep s <> [].
Proof.
  destruct s as [|c s]; simpl; [discriminate|].
  destruct (Ascii.eqb c sep); [discriminate|].
  destruct (split_on sep s); discriminate.
Qed.

Lemma join_cons_first (c : ascii) (sep : string) (l : list string) :
  l <> [] -> join sep (cons_first c l) = String c (join sep l).
Proof.
  destruct l as [|w [|w' ws]]; [congruence|reflexivity|reflexivity].
Qed.

(** Joining the lines of a text gives the text. *)
Lemma join_split_on (sep : ascii) (s : string) :
  join (String sep "") (split_on sep s) = s.
Proof.
  induction s as [|c s IH]; [reflexivity|]. simpl split_on.
  destruct (Ascii.eqb_spec c sep) as [->|_].
  - pose proof (split_on_nonempty sep s) as Hne.
    destruct (split_on sep s) as [|w ws]; [contradiction|].
    rewrite join_cons, IH. reflexivity.
  - rewrite join_cons_first by apply split_on_nonempty.
    rewrite IH. reflexivity.
Qed.

Lemma join_app (sep : string) (l1 l2 : list string) :
  l1 <> [] -> l2 <> [] ->
  join sep (l1 ++ l2) = join sep l1 +:+ sep +:+ join sep l2.
Proof.
  intros H1 H2. induction l1 as [|w l1 IH]; [contradiction|].
  destruct l1 as [|w' l1].
  - destruct l2 as [|v l2]; [contradiction|]. reflexivity.
  - change ((w :: w' :: l1) ++ l2) with (w :: w' :: (l1 ++ l2)).
    rewrite !join_cons. change (w' :: l1 ++ l2) with ((w' :: l1) ++ l2).
    rewrite IH by discriminate. rewrite !append_assoc. reflexivity.
Qed.

Lemma join_concat (sep : string) (groups : list (list string)) :
  Forall (fun g => g <> []) groups ->
  join sep (map (join sep) groups) = join sep (concat groups).
Proof.
  induction 1 as [|g groups Hg Hgs IH]; [reflexivity|].
  destruct groups as [|g' groups].
  - simpl. rewrite app_nil_r. reflexivity.
  - cbn [map concat]. rewrite join_app; [|exact Hg|].
    + cbn [map] in IH. rewrite join_cons, IH. reflexivity.
    + inversion Hgs as [|? ? Hg' _]; subst.
      destruct g'; [contradiction|discriminate].
Qed.

(** ** Identifiers and indices *)

Lemma emitted_nil (uuid4 : nat -> string) (d : string) (n : nat) :
  emitted uuid4 d n [].
Proof. intros i c H. discriminate H. Qed.

Lemma emitted_snoc (uuid4 : nat -> string) (d : string) (n : nat)
    (l : list ChunkedDocument) (c : ChunkedDocument) :
  emitted uuid4 d n l ->
  id c = uuid4 (n + length l)%nat ->
  chunk_index c = Z.of_nat (length l) ->
  document_id c = d ->
  emitted uuid4 d n (l ++ [c]).
Proof.
  intros Hl Hid Hidx Hd i c' H.
  destruct (Nat.lt_ge_cases i (length l)) as [Hlt|Hge].
  - rewrite lookup_app_l in H by exact Hlt. apply Hl, H.
  - rewrite lookup_app_r in H by exact Hge.
    destruct (i - length l)%nat as [|k] eqn:Hk; simpl in H; [|discriminate H].
    injection H as <-. replace i with (length l) by lia. auto.
Qed.

(** ** The markdown strategy: sections *)

Section Markdown.

Variable uuid4 : nat -> string.
Variable d : string.
Variable meta : gmap string value.

#[local] Abbreviation md_inv := (StrategyInvariants.md_inv uuid4 d).

Lemma markdown_chunk_some (index : Z) (current : list string)
    (header : option string) (n : nat) :
  exists c,
    markdown_chunk uuid4 (Some d) meta index current header n = Ok (c, S n)
    /\ id c = uuid4 n /\ chunk_index c = index /\ document_id c = d
    /\ content c = join (String nl "") current
    /\ chunk_type c = "markdown_section".
Proof. eexists. split; [reflexivity|]. simpl. auto. Qed.

Lemma section_lines_snoc (i : nat) (g : list string) (line : string) :
  g <> [] -> section_lines i g -> is_header line = false ->
  section_lines i (g ++ [line]).
Proof.
  destruct g as [|h t]; [contradiction|]. intros _ [H1 H2] Hl. simpl.
  split; [exact H1|]. apply Forall_app. split; [exact H2|].
  apply Forall_singleton, Hl.
Qed.

(** Closing the section collected so far. *)
Lemma md_inv_close (n : nat) (done : list string) (st : md_state)
    (n' : nat) (groups : list (list string)) (c : ChunkedDocument) :
  md_inv n done st n' groups ->
  md_current st <> [] ->
  id c = uuid4 n' -> chunk_index c = md_index st -> document_id c = d ->
  content c = join (String nl "") (md_current st) ->
  chunk_type c = "markdown_section" ->
  let chunks' := md_chunks st ++ [c] in
  let groups' := groups ++ [md_current st] in
  (S n' = n + length chunks')%nat
  /\ md_index st + 1 = Z.of_nat (length chunks')
  /\ emitted uuid4 d n chunks'
  /\ Forall (fun c => chunk_type c = "markdown_section") chunks'
  /\ map content chunks' = map (join (String nl "")) groups'
  /\ concat groups' = done
  /\ (forall i g, groups' !! i = Some g -> section_lines i g)
  /\ groups' <> [].
Proof.
  intros [Hn Hi He Ht Hc Hl Hs Hst Hcur] Hne Hid Hidx Hd Hcont Htype.
  simpl. rewrite length_app. simpl.
  split; [lia|]. split; [lia|]. split.
  { apply emitted_snoc; [exact He| | |exact Hd].
    - rewrite Hid, Hn. reflexivity.
    - rewrite Hidx. exact Hi. }
  split. { apply Forall_app. split; [exact Ht|]. apply Forall_singleton, Htype. }
  split. { rewrite !map_app, Hc. simpl. rewrite Hcont. reflexivity. }
  split. { rewrite concat_app. simpl. rewrite app_nil_r. exact Hl. }
  split.
  - intros i g H.
    destruct (Nat.lt_ge_cases i (length groups)) as [Hlt|Hge].
    + rewrite lookup_app_l in H by exact Hlt. apply Hs, H.
    + rewrite lookup_app_r in H by exact Hge.
      destruct (i - length groups)%nat as [|k] eqn:Hk; simpl in H;
        [|discriminate H].
      injection H as <-. replace i with (length groups) by lia.
      apply Hcur, Hne.
  - destruct groups; discriminate.
Qed.

Lemma md_fold (n : nat) (rest : list string) :
  forall (done : list string) (st : md_state) (n' : nat)
         (groups : list (list string)),
    md_inv n done st n' groups ->
    exists st' n'' groups',
      foldM (md_step uuid4 (Some d) meta) rest st n' = Ok (st', n'')
      /\ md_inv n (done ++ rest) st' n'' groups'.
Proof.
  induction rest as [|line rest IH]; intros done st n' groups Hinv.
  - exists st, n', groups. rewrite app_nil_r. split; [reflexivity|exact Hinv].
  - assert (Hstep : exists st1 n1 groups1,
               md_step uuid4 (Some d) meta st line n' = Ok (st1, n1)
               /\ md_inv n (done ++ [line]) st1 n1 groups1).
    { unfold md_step. fold (is_header line).
      destruct (is_header line) eqn:Hh.
      - destruct (md_current st) as [|x cur] eqn:Hcur.
        + cbn [is_nil]. eexists _, n', groups. split; [reflexivity|].
          destruct Hinv as [Hn Hi He Ht Hc Hl Hs Hst Hcurr].
          destruct (Hst Hcur) as [-> ->].
          constructor; simpl; try assumption.
          * reflexivity.
          * discriminate.
          * intros _. split; [intros _; exact Hh|constructor].
        + cbn [is_nil].
          destruct (markdown_chunk_some (md_index st) (x :: cur)
                      (md_header st) n')
            as (c & Hc & Hid & Hidx & Hd & Hcont & Htype).
          rewrite <- Hcur in Hcont.
          assert (Hne : md_current st <> []) by (rewrite Hcur; discriminate).
          destruct (md_inv_close n done st n' groups c Hinv Hne Hid Hidx Hd
                      Hcont Htype)
            as (H1 & H2 & H3 & H4 & H5 & H6 & H7 & H8).
          eexists _, (S n'), (groups ++ [md_current st]). split.
          * apply bind_ok. eexists _, _. split; [|reflexivity].
            apply bind_ok. eexists _, _. split; [exact Hc|reflexivity].
          * rewrite <- Hcur.
            constructor; simpl; try assumption.
            -- rewrite H6. reflexivity.
            -- discriminate.
            -- intros _. split; [intros _; exact Hh|constructor].
      - eexists _, n', groups. split; [reflexivity|].
        destruct Hinv as [Hn Hi He Ht Hc Hl Hs Hst Hcurr].
        constructor; simpl; try assumption.
        + rewrite app_assoc, Hl. reflexivity.
        + intros H. destruct (md_current st); discriminate H.
        + intros _. destruct (md_current st) as [|x cur] eqn:Hcur.
          * destruct (Hst eq_refl) as [-> _]. simpl.
            split; [intros H; contradiction|constructor].
          * apply section_lines_snoc; [discriminate| |exact Hh].
            apply Hcurr. discriminate. }
    destruct Hstep as (st1 & n1 & groups1 & Hs1 & Hinv1).
    destruct (IH _ _ _ _ Hinv1) as (st' & n'' & groups' & Hf & Hinv').
    exists st', n'', groups'. split.
    + cbn [foldM]. apply bind_ok. eauto.
    + rewrite <- app_assoc in Hinv'. exact Hinv'.
Qed.

End Markdown.

(** Without a document id the markdown strategy builds no chunk. *)
Lemma md_fold_none (uuid4 : nat -> string) (meta : gmap string value)
    (rest : list string) :
  forall (st : md_state) (n : nat),
    rest <> [] \/ md_current st <> [] ->
    foldM (md_step uuid4 None meta) rest st n = Raise ValidationError
    \/ exists st' n',
         foldM (md_step uuid4 None meta) rest st n = Ok (st', n')
         /\ md_current st' <> [].
Proof.
  induction rest as [|line rest IH]; intros st n H.
  - right. exists st, n. split; [reflexivity|].
    destruct H as [H|H]; [contradiction|exact H].
  - assert (Hstep : md_step uuid4 None meta st line n = Raise ValidationError
                    \/ exists st1 n1,
                         md_step uuid4 None meta st line n = Ok (st1, n1)
                         /\ md_current st1 <> []).
    { unfold md_step. destruct (re_match_dollar header_pattern line).
      - destruct (md_current st) as [|x cur] eqn:Hcur; cbn [is_nil].
        + right. eexists _, _. split; [reflexivity|]. discriminate.
        + left. reflexivity.
      - right. eexists _, _. split; [reflexivity|]. simpl.
        destruct (md_current st); discriminate. }
    cbn [foldM]. unfold bind.
    destruct Hstep as [Hs|(st1 & n1 & Hs & Hne)]; rewrite Hs.
    + left. reflexivity.
    + apply IH. right. exact Hne.
Qed.

Lemma chunk_markdown_some (uuid4 : nat -> string) (text d : string)
    (meta : gmap string value) (n : nat) :
  exists (l : list ChunkedDocument) (groups : list (list string)),
    _chunk_markdown uuid4 text (Some d) meta n
    = Ok (l, (n + length l)%nat)
    /\ l <> []
    /\ concat groups = split_on nl text
    /\ (forall i g, groups !! i = Some g -> section_lines i g)
    /\ map content l = map (join (String nl "")) groups
    /\ join (String nl "") (map content l) = text
    /\ emitted uuid4 d n l
    /\ Forall (fun c => chunk_type c = "markdown_section") l.
Proof.
  unfold _chunk_markdown.
  set (st0 := {| md_chunks := []; md_index := 0; md_current := [];
                 md_header := None |}).
  assert (Hinv0 : md_inv uuid4 d n [] st0 n []).
  { constructor; simpl.
    - lia.
    - reflexivity.
    - apply emitted_nil.
    - constructor.
    - reflexivity.
    - reflexivity.
    - intros i g H. discriminate H.
    - auto.
    - intros H. contradiction. }
  destruct (md_fold uuid4 d meta n (split_on nl text) [] st0 n [] Hinv0)
    as (st & n' & groups & Hf & Hinv).
  simpl app in Hinv.
  assert (Hne : md_current st <> []).
  { intros Hcur. destruct Hinv as [_ _ _ _ _ _ _ Hst _].
    destruct (Hst Hcur) as [_ Hnil].
    exact (split_on_nonempty nl text Hnil). }
  destruct (markdown_chunk_some uuid4 d meta (md_index st) (md_current st)
              (md_header st) n')
    as (c & Hc & Hid & Hidx & Hd & Hcont & Htype).
  destruct (md_inv_close uuid4 d n _ st n' groups c Hinv Hne Hid Hidx Hd
              Hcont Htype)
    as (H1 & H2 & H3 & H4 & H5 & H6 & H7 & H8).
  exists (md_chunks st ++ [c]), (groups ++ [md_current st]).
  split; [|split; [|split; [|split; [|split; [|split; [|split]]]]]];
    try assumption.
  - apply bind_ok. exists st, n'. split; [exact Hf|].
    destruct (md_current st) as [|x cur] eqn:Hcur; [contradiction|].
    cbn [is_nil]. apply bind_ok. exists c, (S n').
    split; [exact Hc|]. unfold ret. rewrite H1. reflexivity.
  - destruct (md_chunks st); discriminate.
  - rewrite H5, join_concat, H6; [apply join_split_on|].
    apply list.Forall_forall. intros g Hg Hnil. subst g.
    apply list_elem_of_lookup in Hg as [i Hi].
    exact (H7 i [] Hi).
Qed.

Lemma chunk_markdown_none (uuid4 : nat -> string) (text : string)
    (meta : gmap string value) (n : nat) :
  _chunk_markdown uuid4 text None meta n = Raise ValidationError.
Proof.
  unfold _chunk_markdown, bind.
  destruct (md_fold_none uuid4 meta (split_on nl text)
              {| md_chunks := []; md_index := 0; md_current := [];
                 md_header := None |} n) as [H|(st & n' & H & Hne)].
  - left. apply split_on_nonempty.
  - rewrite H. reflexivity.
  - rewrite H. destruct (md_current st); [contradiction|]. reflexivity.
Qed.

(** With a document id, [_chunk_markdown] returns at least one chunk and
    loses nothing: the lines of the text fall into sections, each
    starting at a header (the first one at the first line) and holding
    no other header; the chunks are these sections, their lines joined,
    so that joining the contents of the chunks with newlines gives back
    the text; the chunks carry fresh identifiers and the indices 0, 1,
    and so on. Without a document id it raises the validation error. *)
Theorem chunk_markdown_sections :
  forall (uuid4 : nat -> string) (text : string)
         (meta : gmap string value) (n : nat),
    (forall d : string,
        exists (l : list ChunkedDocument) (groups : list (list string)),
          _chunk_markdown uuid4 text (Some d) meta n
          = Ok (l, (n + length l)%nat)
          /\ l <> []
          /\ concat groups = split_on nl text
          /\ (forall i g, groups !! i = Some g -> section_lines i g)
          /\ map content l = map (join (String nl "")) groups
          /\ join (String nl "") (map content l) = text
          /\ emitted uuid4 d n l
          /\ Forall (fun c => chunk_type c = "markdown_section") l)
    /\ _chunk_markdown uuid4 text None meta n = Raise ValidationError.
Proof.
  intros uuid4 text meta n. split.
  - intros d. apply chunk_markdown_some.
  - apply chunk_markdown_none.
Qed.

(** ** The line strategy *)

Lemma last_cons_default {A} (l : list A) (x d : A) :
  List.last (x :: l) d = List.last l x.
Proof.
  revert x d. induction l as [|y l IH]; intros x d; [reflexivity|].
  change (List.last (x :: y :: l) d) with (List.last (y :: l) d).
  rewrite !IH. reflexivity.
Qed.

Lemma overlapped_snoc (previous : list string) (parts : list (list string))
    (p : list string) :
  overlapped previous (parts ++ [p])
  = overlapped previous parts
    ++ [overlap_lines (List.last (overlapped previous parts) previous) ++ p].
Proof.
  revert previous. induction parts as [|q parts IH]; intros previous.
  - reflexivity.
  - cbn [app overlapped]. rewrite IH. cbn [app].
    rewrite last_cons_default. reflexivity.
Qed.

Lemma sum_tokens_nonneg (l : list string) : 0 <= sum_tokens l.
Proof. induction l as [|x l IH]; simpl; lia. Qed.

Section Lines.

Variable uuid4 : nat -> string.
Variable config : ChunkingAgentConfig.
Variable d : string.
Variable lang : option string.
Variable meta : gmap string value.

#[local] Abbreviation ln_inv :=
  (StrategyInvariants.ln_inv uuid4 config d lang).
#[local] Abbreviation line_chunk_ok :=
  (StrategyInvariants.line_chunk_ok lang).

Lemma line_chunk_some (st : line_state) (n : nat) :
  line_chunk uuid4 (Some d) lang meta st n
  = Ok ({| id := uuid4 n; document_id := d;
           content := join (String nl "") (ln_current st);
           chunk_index := ln_index st; chunk_type := "code_lines";
           language := lang;
           metadata := <["boundary_type" := VStr "line"]> meta;
           start_line := None; end_line := None;
           token_count := ln_tokens st |}, S n).
Proof. reflexivity. Qed.

(** Closing the chunk collected so far. *)
Lemma ln_inv_close (n : nat) (done : list string) (st : line_state)
    (n' : nat) (parts : list (list string)) (fresh : list string)
    (c : ChunkedDocument) :
  ln_inv n done st n' parts fresh ->
  ln_current st <> [] ->
  line_chunk uuid4 (Some d) lang meta st n' = Ok (c, S n') ->
  let chunks' := ln_chunks st ++ [c] in
  let parts' := parts ++ [fresh] in
  fresh <> []
  /\ (S n' = n + length chunks')%nat
  /\ ln_index st + 1 = Z.of_nat (length chunks')
  /\ emitted uuid4 d n chunks'
  /\ Forall line_chunk_ok chunks'
  /\ map content chunks'
     = map (join (String nl "")) (overlapped [] parts')
  /\ concat parts' = done
  /\ Forall (fun p => p <> []) parts'
  /\ List.last (overlapped [] parts') [] = ln_current st.
Proof.
  intros [Hn Hi He Hok Hc Hl Hp Hcur Ht Hst Hsm] Hne Hchunk.
  rewrite line_chunk_some in Hchunk. injection Hchunk as <-.
  assert (Hfresh : fresh <> []).
  { intros Hf. destruct (Hst Hf) as [_ ->]. subst fresh.
    apply Hne. rewrite Hcur. reflexivity. }
  simpl. rewrite length_app. simpl.
  split; [exact Hfresh|]. split; [lia|]. split; [lia|]. split.
  { apply emitted_snoc; [exact He| | |reflexivity]; simpl.
    - rewrite Hn. reflexivity.
    - exact Hi. }
  split.
  { apply Forall_app. split; [exact Hok|]. apply Forall_singleton.
    unfold line_chunk_ok, counted, words_of. simpl.
    split; [reflexivity|]. split; [reflexivity|].
    rewrite word_count_join_lines. exact Ht. }
  split.
  { rewrite overlapped_snoc, !map_app, Hc. simpl. rewrite Hcur.
    reflexivity. }
  split. { rewrite concat_app. simpl. rewrite app_nil_r. exact Hl. }
  split. { apply Forall_app. split; [exact Hp|]. apply Forall_singleton, Hfresh. }
  rewrite overlapped_snoc, last_last. symmetry. exact Hcur.
Qed.

Lemma ln_fold (n : nat) (rest : list string) :
  forall (done : list string) (st : line_state) (n' : nat)
         (parts : list (list string)) (fresh : list string),
    ln_inv n done st n' parts fresh ->
    exists st' n'' parts' fresh',
      foldM (line_step uuid4 config (Some d) lang meta) rest st n'
      = Ok (st', n'')
      /\ ln_inv n (done ++ rest) st' n'' parts' fresh'.
Proof.
  induction rest as [|line rest IH]; intros done st n' parts fresh Hinv.
  - exists st, n', parts, fresh. rewrite app_nil_r.
    split; [reflexivity|exact Hinv].
  - assert (Hstep : exists st1 n1 parts1 fresh1,
               line_step uuid4 config (Some d) lang meta st line n'
               = Ok (st1, n1)
               /\ ln_inv n (done ++ [line]) st1 n1 parts1 fresh1).
    { unfold line_step.
      destruct ((chunk_size config
                 <? ln_tokens st + Z.of_nat (word_count line))
                && negb (is_nil (ln_current st))) eqn:Hcond.
      - apply andb_true_iff in Hcond as [Hbig Hne].
        apply Z.ltb_lt in Hbig.
        assert (Hne' : ln_current st <> []).
        { intros E. rewrite E in Hne. discriminate Hne. }
        destruct (ln_inv_close n done st n' parts fresh _ Hinv Hne'
                    (line_chunk_some st n'))
          as (H0 & H1 & H2 & H3 & H4 & H5 & H6 & H7 & H8).
        eexists _, (S n'), (parts ++ [fresh]), [line]. split.
        + apply bind_ok. eexists _, _.
          split; [apply line_chunk_some|reflexivity].
        + destruct Hinv as [Hn Hi He Hok Hc Hl Hp Hcur Ht Hst Hsm].
          constructor; simpl; try assumption.
          * rewrite H6. reflexivity.
          * rewrite H8. reflexivity.
          * reflexivity.
          * discriminate.
          * intros Hsmall. exfalso.
            assert (Hd : sum_tokens done <= chunk_size config).
            { rewrite sum_tokens_app in Hsmall.
              pose proof (Nat2Z.is_nonneg (word_count line)). lia. }
            destruct (Hsm Hd) as [_ ->]. simpl in Hl, Hcur.
            rewrite sum_tokens_app in Hsmall.
            rewrite Ht, Hcur in Hbig. simpl in Hbig.
            rewrite Hl in Hbig. lia.
      - eexists _, n', parts, (fresh ++ [line]). split; [reflexivity|].
        destruct Hinv as [Hn Hi He Hok Hc Hl Hp Hcur Ht Hst Hsm].
        constructor; simpl; try assumption.
        + rewrite app_assoc, Hl. reflexivity.
        + rewrite Hcur, app_assoc. reflexivity.
        + rewrite sum_tokens_app, Ht. reflexivity.
        + intros H. destruct fresh; discriminate H.
        + intros Hsmall. apply Hsm. rewrite sum_tokens_app in Hsmall.
          pose proof (Nat2Z.is_nonneg (word_count line)). lia. }
    destruct Hstep as (st1 & n1 & parts1 & fresh1 & Hs1 & Hinv1).
    destruct (IH _ _ _ _ _ Hinv1) as (st' & n'' & parts' & fresh' & Hf & Hinv').
    exists st', n'', parts', fresh'. split.
    + cbn [foldM]. apply bind_ok. eauto.
    + rewrite <- app_assoc in Hinv'. exact Hinv'.
Qed.

End Lines.

(** With a document id, [_chunk_by_lines] returns at least one chunk and
    loses no line: the lines of the text fall into consecutive runs, none
    empty, and the chunk of a run holds the last lines of the chunk
    before it (all of them, or the last five) followed by the run; the
    chunks carry fresh identifiers, the indices 0, 1, and so on, the type
    [code_lines], the language given and the number of their words. A
    text of at most [chunk_size] words gives one chunk, whose content is
    the text. *)
Theorem chunk_by_lines_chunks :
  forall (uuid4 : nat -> string) (config : ChunkingAgentConfig)
         (text d : string) (lang : option string)
         (meta : gmap string value) (n : nat),
  exists (l : list ChunkedDocument) (parts : list (list string)),
    _chunk_by_lines uuid4 config text (Some d) lang meta n
    = Ok (l, (n + length l)%nat)
    /\ l <> []
    /\ concat parts = split_on nl text
    /\ Forall (fun p => p <> []) parts
    /\ map content l = map (join (String nl "")) (overlapped [] parts)
    /\ emitted uuid4 d n l
    /\ Forall (fun c => chunk_type c = "code_lines" /\ language c = lang
                        /\ counted c) l
    /\ (Z.of_nat (word_count text) <= chunk_size config ->
        l = [whole_chunk (uuid4 n) d text lang meta]).
Proof.
  intros uuid4 config text d lang meta n. unfold _chunk_by_lines.
  set (st0 := {| ln_chunks := []; ln_index := 0; ln_current := [];
                 ln_tokens := 0 |}).
  assert (Hinv0 : ln_inv uuid4 config d lang n [] st0 n [] []).
  { constructor; simpl.
    - lia.
    - reflexivity.
    - apply emitted_nil.
    - constructor.
    - reflexivity.
    - reflexivity.
    - constructor.
    - reflexivity.
    - reflexivity.
    - auto.
    - auto. }
  destruct (ln_fold uuid4 config d lang meta n (split_on nl text) [] st0 n
              [] [] Hinv0)
    as (st & n' & parts & fresh & Hf & Hinv).
  simpl app in Hinv.
  assert (Hne : ln_current st <> []).
  { destruct Hinv as [_ _ _ _ _ _ _ Hcur _ Hst _].
    intros E. rewrite E in Hcur. symmetry in Hcur.
    apply app_eq_nil in Hcur as [_ Hfresh].
    destruct (Hst Hfresh) as [Hnil _].
    exact (split_on_nonempty nl text Hnil). }
  assert (Hex : exists c,
             line_chunk uuid4 (Some d) lang meta st n' = Ok (c, S n')
             /\ c = {| id := uuid4 n'; document_id := d;
                       content := join (String nl "") (ln_current st);
                       chunk_index := ln_index st;
                       chunk_type := "code_lines"; language := lang;
                       metadata := <["boundary_type" := VStr "line"]> meta;
                       start_line := None; end_line := None;
                       token_count := ln_tokens st |}).
  { eexists. split; [apply line_chunk_some|reflexivity]. }
  destruct Hex as (c & Hchunk & Hceq).
  destruct (ln_inv_close uuid4 config d lang meta n _ st n' parts fresh c
              Hinv Hne Hchunk)
    as (H0 & H1 & H2 & H3 & H4 & H5 & H6 & H7 & H8).
  assert (Hnil : is_nil (ln_current st) = false).
  { destruct (ln_current st); [contradiction|reflexivity]. }
  exists (ln_chunks st ++ [c]), (parts ++ [fresh]).
  split; [|split; [|split; [|split; [|split; [|split; [|split]]]]]].
  - apply bind_ok. exists st, n'. split; [exact Hf|].
    rewrite Hnil. apply bind_ok. exists c, (S n').
    split; [exact Hchunk|]. unfold ret. rewrite H1. reflexivity.
  - destruct (ln_chunks st); discriminate.
  - exact H6.
  - exact H7.
  - exact H5.
  - exact H3.
  - exact H4.
  - intros Hsmall.
    destruct Hinv as [Hn Hi He Hok Hc Hl Hp Hcur Ht Hst Hsm].
    assert (Hsum : sum_tokens (split_on nl text)
                   = Z.of_nat (word_count text)).
    { rewrite <- word_count_join_lines, join_split_on. reflexivity. }
    destruct Hsm as [Hchunks ->]; [lia|].
    simpl in Hl, Hcur. rewrite Hchunks in *. simpl in Hn, Hi.
    rewrite Hl in Hcur.
    rewrite Hceq. unfold whole_chunk. simpl.
    rewrite Ht, Hi, Hcur, join_split_on, Hsum.
    replace n' with n by lia. reflexivity.
Qed.

Lemma chunk_by_lines_chunks_witness :
  _chunk_by_lines sample_uuid4 small_config "a b" (Some "doc-1") None ∅
    0%nat
  = Ok ([whole_chunk (sample_uuid4 0) "doc-1" "a b" None ∅], 1%nat).
Proof.
  destruct (chunk_by_lines_chunks sample_uuid4 small_config "a b" "doc-1"
              None ∅ 0)
    as (l & parts & H & _ & _ & _ & _ & _ & _ & Hsmall).
  rewrite H, Hsmall by (vm_compute; discriminate). reflexivity.
Defined.

(** ** Stripping *)

Lemma lstrip_cases (s : string) :
  lstrip s = "" \/ starts_word (lstrip s) = true.
Proof.
  induction s as [|c s IH]; simpl; [left; reflexivity|].
  destruct (is_space c) eqn:Hc; [exact IH|].
  right. simpl. rewrite Hc. reflexivity.
Qed.

Lemma lstrip_starts_word (s : string) :
  starts_word s = true -> lstrip s = s.
Proof.
  destruct s as [|c s]; simpl; [discriminate|].
  intros H. apply negb_true_iff in H. rewrite H. reflexivity.
Qed.

Lemma rstrip_starts_word (s : string) :
  starts_word s = true -> starts_word (rstrip s) = true.
Proof.
  destruct s as [|c s]; simpl; [discriminate|].
  intros H. apply negb_true_iff in H. rewrite H. simpl. rewrite H.
  reflexivity.
Qed.

Lemma rstrip_idempotent (s : string) : rstrip (rstrip s) = rstrip s.
Proof.
  induction s as [|c s IH]; [reflexivity|]. simpl.
  destruct (is_space c && is_empty (rstrip s)) eqn:E; [reflexivity|].
  simpl. rewrite IH, E. reflexivity.
Qed.

Lemma strip_cases (s : string) :
  strip s = "" \/ starts_word (strip s) = true.
Proof.
  unfold strip. destruct (lstrip_cases s) as [H|H].
  - rewrite H. left. reflexivity.
  - right. apply rstrip_starts_word, H.
Qed.

Lemma strip_idempotent (s : string) : strip (strip s) = strip s.
Proof.
  destruct (strip_cases s) as [H|H].
  - rewrite H. reflexivity.
  - unfold strip at 1. rewrite (lstrip_starts_word _ H).
    unfold strip. apply rstrip_idempotent.
Qed.

Lemma starts_word_count (s : string) :
  starts_word s = true -> (1 <= word_count s)%nat.
Proof.
  intros H. unfold word_count. apply split_starts_word in H.
  destruct (split s); [contradiction|simpl; lia].
Qed.

Lemma strip_nonempty_count (s : string) :
  is_empty (strip s) = false -> (1 <= word_count (strip s))%nat.
Proof.
  intros H. destruct (strip_cases s) as [E|E].
  - rewrite E in H. discriminate H.
  - apply starts_word_count, E.
Qed.

Lemma lstrip_all_space (s : string) : all_space s = true -> lstrip s = "".
Proof.
  induction s as [|c s IH]; simpl; [reflexivity|].
  intros H. apply andb_true_iff in H as [Hc Hs]. rewrite Hc. apply IH, Hs.
Qed.

Lemma lstrip_empty_all_space (s : string) :
  lstrip s = "" -> all_space s = true.
Proof.
  induction s as [|c s IH]; simpl; [reflexivity|].
  destruct (is_space c); [exact IH|discriminate].
Qed.

Lemma rstrip_empty_all_space (s : string) :
  rstrip s = "" -> all_space s = true.
Proof.
  induction s as [|c s IH]; simpl; [reflexivity|].
  destruct (is_space c); simpl; [|discriminate].
  destruct (rstrip s); simpl; [|discriminate]. intros _. apply IH.
  reflexivity.
Qed.

Lemma all_space_lstrip (s : string) :
  all_space (lstrip s) = true -> all_space s = true.
Proof.
  induction s as [|c s IH]; simpl; [reflexivity|].
  destruct (is_space c) eqn:Hc; [exact IH|].
  simpl. rewrite Hc. discriminate.
Qed.

(** A string strips to the empty string exactly when it holds white
    space only. *)
Lemma strip_empty_iff (s : string) :
  is_empty (strip s) = true <-> all_space s = true.
Proof.
  split.
  - intros H. unfold strip in H.
    destruct (rstrip (lstrip s)) eqn:E; [|discriminate H].
    apply all_space_lstrip, rstrip_empty_all_space, E.
  - intros H. unfold strip. rewrite (lstrip_all_space s H). reflexivity.
Qed.

(** ** Sentences *)

Lemma no_sentence_end_cons_first (c : ascii) (l : list string) :
  is_sentence_end c = false ->
  Forall (fun s => no_sentence_end s = true) l ->
  Forall (fun s => no_sentence_end s = true) (cons_first c l).
Proof.
  intros Hc Hl. destruct l as [|w ws]; simpl.
  - apply Forall_singleton. simpl. rewrite Hc. reflexivity.
  - inversion Hl; subst. constructor; [|assumption].
    simpl. rewrite Hc. assumption.
Qed.

Lemma split_punct_no_sentence_end (s : string) :
  forall in_run : bool,
    Forall (fun p => no_sentence_end p = true) (split_punct in_run s).
Proof.
  induction s as [|c s IH]; intros b; simpl.
  - apply Forall_singleton. reflexivity.
  - destruct (is_sentence_end c) eqn:Hc.
    + destruct b; [apply IH|]. constructor; [reflexivity|apply IH].
    + apply no_sentence_end_cons_first; [exact Hc|apply IH].
Qed.

Lemma lstrip_no_sentence_end (s : string) :
  no_sentence_end s = true -> no_sentence_end (lstrip s) = true.
Proof.
  induction s as [|c s IH]; simpl; [reflexivity|].
  intros H. destruct (is_space c); [|exact H].
  apply andb_true_iff in H as [_ H]. apply IH, H.
Qed.

Lemma rstrip_no_sentence_end (s : string) :
  no_sentence_end s = true -> no_sentence_end (rstrip s) = true.
Proof.
  induction s as [|c s IH]; simpl; [reflexivity|].
  intros H. apply andb_true_iff in H as [Hc H].
  destruct (is_space c && is_empty (rstrip s)); [reflexivity|].
  simpl. rewrite Hc. apply IH, H.
Qed.

Lemma split_punct_whole (s : string) :
  no_sentence_end s = true -> split_punct false s = [s].
Proof.
  induction s as [|c s IH]; simpl; [reflexivity|].
  intros H. apply andb_true_iff in H as [Hc H].
  apply negb_true_iff in Hc. rewrite Hc, (IH H). reflexivity.
Qed.

Lemma split_sentences_forall (text : string) :
  Forall (fun s => strip s = s /\ no_sentence_end s = true
                   /\ (1 <= word_count s)%nat)
         (_split_sentences text).
Proof.
  unfold _split_sentences.
  apply List.Forall_map. apply list.Forall_forall. intros s Hs.
  apply list_elem_of_filter in Hs as [Hne Hin].
  split; [apply strip_idempotent|]. split.
  - pose proof (split_punct_no_sentence_end text false) as Hall.
    rewrite list.Forall_forall in Hall.
    apply rstrip_no_sentence_end, lstrip_no_sentence_end, Hall, Hin.
  - apply strip_nonempty_count, Hne.
Qed.

(** Every sentence that [_split_sentences] returns is stripped, holds at
    least one word and none of the characters that end a sentence; a
    text without these characters is one sentence, or none when it is
    blank. *)
Theorem split_sentences_spec :
  forall text : string,
    Forall (fun s => strip s = s /\ no_sentence_end s = true
                     /\ (1 <= word_count s)%nat)
           (_split_sentences text)
    /\ (no_sentence_end text = true ->
        _split_sentences text
        = if is_empty (strip text) then [] else [strip text]).
Proof.
  intros text. split; [apply split_sentences_forall|].
  unfold _split_sentences. intros H. rewrite (split_punct_whole text H).
  destruct (is_empty (strip text)) eqn:E.
  - rewrite filter_cons_False by (rewrite E; discriminate). reflexivity.
  - rewrite filter_cons_True by exact E. reflexivity.
Qed.

Lemma split_sentences_spec_witness :
  _split_sentences " one sentence " = ["one sentence"].
Proof.
  destruct (split_sentences_spec " one sentence ") as [_ H].
  rewrite H by reflexivity. reflexivity.
Defined.

(** ** The text strategy *)

(** A loop whose steps return and keep an invariant returns and keeps
    it. *)
Lemma foldM_run {A S} (I : S -> nat -> Prop) (P : A -> Prop)
    (f : S -> A -> M S) (l : list A) :
  (forall s x n, I s n -> P x ->
                 exists s' n', f s x n = Ok (s', n') /\ I s' n') ->
  Forall P l ->
  forall s n, I s n ->
              exists s' n', foldM f l s n = Ok (s', n') /\ I s' n'.
Proof.
  intros Hstep Hl. induction Hl as [|x l Hx _ IH]; intros s n Hs.
  - exists s, n. split; [reflexivity|exact Hs].
  - destruct (Hstep s x n Hs Hx) as (s1 & n1 & H1 & Hs1).
    destruct (IH s1 n1 Hs1) as (s2 & n2 & H2 & Hs2).
    exists s2, n2. split; [|exact Hs2]. cbn [foldM]. apply bind_ok. eauto.
Qed.

Lemma sum_tokens_pos (l : list string) :
  l <> [] -> Forall (fun s => (1 <= word_count s)%nat) l ->
  1 <= sum_tokens l.
Proof.
  intros Hne Hl. destruct Hl as [|x l Hx _]; [contradiction|].
  simpl. pose proof (sum_tokens_nonneg l). lia.
Qed.

Lemma all_space_cons_first (c : ascii) (l : list string) :
  is_space c = true ->
  Forall (fun p => all_space p = true) l ->
  Forall (fun p => all_space p = true) (cons_first c l).
Proof.
  intros Hc Hl. destruct l as [|w ws]; simpl.
  - apply Forall_singleton. simpl. rewrite Hc. reflexivity.
  - inversion Hl; subst. constructor; [|assumption].
    simpl. rewrite Hc. assumption.
Qed.

(** The paragraphs of a blank text are blank. *)
Lemma split_blank_all_space (s : string) :
  forall skip : nat,
    all_space s = true ->
    Forall (fun p => all_space p = true) (split_blank skip s).
Proof.
  induction s as [|c s IH]; intros k H; simpl.
  - apply Forall_singleton. reflexivity.
  - simpl in H. apply andb_true_iff in H as [Hc Hs].
    destruct k as [|k]; [|apply IH, Hs].
    destruct (Ascii.eqb c nl).
    + destruct (last_newline s).
      * constructor; [reflexivity|apply IH, Hs].
      * apply all_space_cons_first; [exact Hc|apply IH, Hs].
    + apply all_space_cons_first; [exact Hc|apply IH, Hs].
Qed.

Section Text.

Variable uuid4 : nat -> string.
Variable config : ChunkingAgentConfig.
Variable meta : gmap string value.

(** Blank paragraphs give no chunk, with or without a document id. *)
Lemma paragraphs_blank (doc : option string) (l : list string) :
  Forall (fun p => all_space p = true) l ->
  forall (acc : list ChunkedDocument * Z) (n : nat),
    foldM (paragraph_step uuid4 config doc meta) l acc n = Ok (acc, n).
Proof.
  induction 1 as [|p l Hp _ IH]; intros acc n; [reflexivity|].
  cbn [foldM]. apply bind_ok. exists acc, n. split; [|apply IH].
  unfold paragraph_step.
  replace (is_empty (strip p)) with true
    by (symmetry; apply strip_empty_iff, Hp).
  reflexivity.
Qed.

Variable d : string.

#[local] Abbreviation text_chunk_ok :=
  (StrategyInvariants.text_chunk_ok config).
#[local] Abbreviation paragraphs_inv :=
  (StrategyInvariants.paragraphs_inv uuid4 config d).
#[local] Abbreviation sentences_inv :=
  (StrategyInvariants.sentences_inv uuid4 config d).

Lemma semantic_chunk_some (st : text_state) (n : nat) :
  semantic_chunk uuid4 (Some d) meta st n
  = Ok ({| id := uuid4 n; document_id := d;
           content := join " " (tx_current st);
           chunk_index := tx_index st; chunk_type := "text_semantic";
           language := None;
           metadata := <["boundary_type" := VStr "sentence"]> meta;
           start_line := None; end_line := None;
           token_count := tx_tokens st |}, S n).
Proof. reflexivity. Qed.

Lemma paragraphs_inv_snoc (n : nat) (acc : list ChunkedDocument * Z)
    (n' : nat) (c : ChunkedDocument) :
  paragraphs_inv n acc n' ->
  id c = uuid4 n' -> chunk_index c = snd acc -> document_id c = d ->
  text_chunk_ok c ->
  paragraphs_inv n (fst acc ++ [c], snd acc + 1) (S n').
Proof.
  intros (Hn & Hi & He & Hok) Hid Hidx Hd Hc.
  unfold StrategyInvariants.paragraphs_inv. simpl.
  rewrite length_app. simpl.
  split; [lia|]. split; [lia|]. split.
  - apply emitted_snoc; [exact He| | |exact Hd].
    + rewrite Hid, Hn. reflexivity.
    + rewrite Hidx. exact Hi.
  - apply Forall_app. split; [exact Hok|]. apply Forall_singleton, Hc.
Qed.

Lemma sentences_close (n : nat) (st : text_state) (n' : nat) :
  sentences_inv n st n' ->
  tx_current st <> [] ->
  exists c,
    semantic_chunk uuid4 (Some d) meta st n' = Ok (c, S n')
    /\ paragraphs_inv n (tx_chunks st ++ [c], tx_index st + 1) (S n').
Proof.
  intros (Hp & Ht & Hs) Hne. eexists. split; [apply semantic_chunk_some|].
  apply (paragraphs_inv_snoc n (tx_chunks st, tx_index st) n');
    try reflexivity; [exact Hp|].
  unfold StrategyInvariants.text_chunk_ok, counted, words_of. simpl.
  split; [rewrite word_count_join; exact Ht|].
  split; [rewrite Ht; apply sum_tokens_pos; assumption|].
  split; [reflexivity|]. right. reflexivity.
Qed.

Lemma sentence_step_run (n : nat) (st : text_state) (sentence : string)
    (n' : nat) :
  sentences_inv n st n' ->
  (1 <= word_count sentence)%nat ->
  exists st' n'',
    sentence_step uuid4 config (Some d) meta st sentence n' = Ok (st', n'')
    /\ sentences_inv n st' n''.
Proof.
  intros Hinv Hw. unfold sentence_step.
  destruct ((chunk_size config
             <? tx_tokens st + Z.of_nat (word_count sentence))
            && negb (is_nil (tx_current st))) eqn:Hcond.
  - apply andb_true_iff in Hcond as [_ Hne].
    assert (Hne' : tx_current st <> []).
    { intros E. rewrite E in Hne. discriminate Hne. }
    destruct (sentences_close n st n' Hinv Hne') as (c & Hc & Hp).
    eexists _, (S n'). split.
    + apply bind_ok. eexists _, _. split; [exact Hc|reflexivity].
    + destruct Hinv as (_ & _ & Hs).
      split; [exact Hp|]. split; [reflexivity|]. simpl.
      apply Forall_app. split; [|apply Forall_singleton, Hw].
      match goal with
      | |- Forall _ (if ?b then _ else _) => destruct b
      end; [|exact Hs].
      unfold slice_from. apply slice_Forall, Hs.
  - eexists _, n'. split; [reflexivity|].
    destruct Hinv as (Hp & Ht & Hs).
    split; [exact Hp|]. simpl. split.
    + rewrite sum_tokens_app, Ht. reflexivity.
    + apply Forall_app. split; [exact Hs|apply Forall_singleton, Hw].
Qed.

Lemma paragraph_step_run (n : nat) (acc : list ChunkedDocument * Z)
    (paragraph : string) (n' : nat) :
  paragraphs_inv n acc n' ->
  exists acc' n'',
    paragraph_step uuid4 config (Some d) meta acc paragraph n'
    = Ok (acc', n'')
    /\ paragraphs_inv n acc' n''.
Proof.
  intros Hinv. unfold paragraph_step.
  destruct (is_empty (strip paragraph)) eqn:Hempty.
  { exists acc, n'. split; [reflexivity|exact Hinv]. }
  destruct (Z.ltb_spec (chunk_size config)
              (Z.of_nat (word_count (strip paragraph)))) as [Hlong|Hshort].
  - set (st0 := {| tx_chunks := fst acc; tx_index := snd acc;
                   tx_current := []; tx_tokens := 0 |}).
    assert (Hinv0 : sentences_inv n st0 n').
    { split; [|split; [reflexivity|constructor]].
      destruct acc. exact Hinv. }
    destruct (foldM_run (fun st m => sentences_inv n st m)
                (fun s => (1 <= word_count s)%nat)
                (sentence_step uuid4 config (Some d) meta)
                (_split_sentences (strip paragraph)))
      with (s := st0) (n := n') as (st & n1 & Hf & Hst).
    + intros s x m Hs Hx. apply sentence_step_run; assumption.
    + eapply Forall_impl; [apply split_sentences_forall|].
      intros s (_ & _ & H). exact H.
    + exact Hinv0.
    + destruct (tx_current st) as [|x cur] eqn:Hcur.
      * exists (tx_chunks st, tx_index st), n1. split.
        -- apply bind_ok. exists st, n1. split; [exact Hf|].
           rewrite Hcur. reflexivity.
        -- destruct Hst as (Hp & _). exact Hp.
      * assert (Hne : tx_current st <> []) by (rewrite Hcur; discriminate).
        destruct (sentences_close n st n1 Hst Hne) as (c & Hc & Hp).
        exists (tx_chunks st ++ [c], tx_index st + 1), (S n1). split.
        -- apply bind_ok. exists st, n1. split; [exact Hf|].
           rewrite Hcur. cbn [is_nil].
           apply bind_ok. exists c, (S n1). split; [exact Hc|reflexivity].
        -- exact Hp.
  - eexists _, (S n'). split.
    + apply bind_ok. eexists _, _. split; [reflexivity|].
      apply bind_ok. eexists _, _. split; reflexivity.
    + apply paragraphs_inv_snoc; try reflexivity; [exact Hinv|].
      unfold StrategyInvariants.text_chunk_ok, counted, words_of. simpl.
      split; [reflexivity|].
      pose proof (strip_nonempty_count paragraph Hempty).
      split; [lia|]. split; [reflexivity|]. left.
      split; [reflexivity|lia].
Qed.

End Text.

Lemma chunk_text_blank (uuid4 : nat -> string)
    (config : ChunkingAgentConfig) (text : string) (doc : option string)
    (meta : gmap string value) (n : nat) :
  is_empty (strip text) = true ->
  _chunk_text uuid4 config text doc meta n = Ok ([], n).
Proof.
  intros Hblank. unfold _chunk_text. apply bind_ok.
  exists ([], 0), n. split; [|reflexivity].
  apply paragraphs_blank, split_blank_all_space, strip_empty_iff, Hblank.
Qed.

Lemma chunk_text_some (uuid4 : nat -> string)
    (config : ChunkingAgentConfig) (text d : string)
    (meta : gmap string value) (n : nat) :
  exists l : list ChunkedDocument,
    _chunk_text uuid4 config text (Some d) meta n
    = Ok (l, (n + length l)%nat)
    /\ emitted uuid4 d n l
    /\ Forall (text_chunk_ok config) l.
Proof.
  unfold _chunk_text.
  destruct (foldM_run
              (fun acc m => paragraphs_inv uuid4 config d n acc m)
              (fun _ => True)
              (paragraph_step uuid4 config (Some d) meta)
              (split_blank 0 text))
    with (s := (@nil ChunkedDocument, 0)) (n := n)
    as (acc & n' & Hf & Hn & Hi & He & Hok).
  - intros s x m Hs _. apply paragraph_step_run, Hs.
  - apply list.Forall_forall. auto.
  - split; [simpl; lia|]. split; [reflexivity|].
    split; [apply emitted_nil|constructor].
  - exists (fst acc). split; [|split; [exact He|exact Hok]].
    apply bind_ok. exists acc, n'. split; [exact Hf|].
    unfold ret. rewrite Hn. reflexivity.
Qed.

(** With a document id, [_chunk_text] always returns; its chunks carry
    fresh identifiers, the indices 0, 1, and so on, and the number of
    their words, which is never 0: the text strategy builds no blank
    chunk. A chunk is a paragraph of at most [chunk_size] words or a run
    of sentences. A blank text gives no chunk, with or without a
    document id. *)
Theorem chunk_text_chunks :
  forall (uuid4 : nat -> string) (config : ChunkingAgentConfig)
         (text : string) (meta : gmap string value) (n : nat),
    (forall d : string,
        exists l : list ChunkedDocument,
          _chunk_text uuid4 config text (Some d) meta n
          = Ok (l, (n + length l)%nat)
          /\ emitted uuid4 d n l
          /\ Forall (fun c =>
                       counted c /\ 1 <= token_count c
                       /\ language c = None
                       /\ ((chunk_type c = "text_paragraph"
                            /\ token_count c <= chunk_size config)
                           \/ chunk_type c = "text_semantic")) l)
    /\ (forall doc : option string,
           is_empty (strip text) = true ->
           _chunk_text uuid4 config text doc meta n = Ok ([], n)).
Proof.
  intros uuid4 config text meta n. split.
  - intros d. apply chunk_text_some.
  - intros doc Hblank. apply chunk_text_blank, Hblank.
Qed.

Lemma chunk_text_chunks_witness :
  _chunk_text sample_uuid4 small_config "   " None ∅ 0%nat = Ok ([], 0%nat).
Proof.
  destruct (chunk_text_chunks sample_uuid4 small_config "   " ∅ 0)
    as [_ H].
  apply H. reflexivity.
Defined.

(** ** [process] and the source type *)

Lemma detect_content_type_plain (text source_type : string) :
  String.eqb source_type "github" || String.eqb source_type "branch" = false ->
  _detect_content_type text source_type = "markdown"
  \/ _detect_content_type text source_type = "text".
Proof.
  intros H. unfold _detect_content_type. rewrite H.
  destruct (String.eqb source_type "web"); [|right; reflexivity].
  destruct (_is_markdown_content text); [left|right]; reflexivity.
Qed.

Lemma source_type_plain (source_type : option string) :
  repository_source source_type = false ->
  String.eqb (get_default source_type "text") "github"
  || String.eqb (get_default source_type "text") "branch" = false.
Proof. destruct source_type as [s|]; [intros H; exact H|reflexivity]. Qed.

Lemma process_body_plain (uuid4 : nat -> string)
    (_chunk_code : string -> option string -> option string ->
                   gmap string value -> M (list ChunkedDocument))
    (config : ChunkingAgentConfig) (input_data : InputData) :
  repository_source (in_source_type input_data) = false ->
  let text := get_default (in_content input_data) "" in
  let type := _detect_content_type text
                (get_default (in_source_type input_data) "text") in
  (type = "markdown" \/ type = "text")
  /\ process_body uuid4 _chunk_code config input_data
     = (l <- (if String.eqb type "markdown"
              then _chunk_markdown uuid4 text (in_document_id input_data)
                     (get_default (in_metadata input_data) ∅)
              else _chunk_text uuid4 config text
                     (in_document_id input_data)
                     (get_default (in_metadata input_data) ∅)) ;;
        valid_chunks <- _validate_chunks uuid4 config l ;;
        ret {| chunks := valid_chunks;
               total_chunks := length valid_chunks;
               content_type := type;
               data_language := None;
               data_strategy := strategy_value (chunking_strategy config);
               data_chunk_size := chunk_size config;
               data_chunk_overlap := chunk_overlap config |}).
Proof.
  intros Hsrc text type.
  pose proof (detect_content_type_plain text _ (source_type_plain _ Hsrc))
    as Htype.
  fold type in Htype. split; [exact Htype|].
  unfold process_body. fold text. fold type.
  destruct Htype as [-> | ->]; destruct (language_detection config);
    reflexivity.
Qed.

(** The code strategy and the detection of the language are reached
    from the source types [github] and [branch] only: for every other
    source type, and without one, the result of [process] does not
    depend on the code strategy, the content type it reports is
    [markdown] or [text], and the language is [None], whatever the
    content is. *)
Theorem process_code_strategy_scope :
  forall (uuid4 : nat -> string)
         (code1 code2 : string -> option string -> option string ->
                        gmap string value -> M (list ChunkedDocument))
         (validation_text : string) (config : ChunkingAgentConfig)
         (input_data : InputData),
    repository_source (in_source_type input_data) = false ->
    process uuid4 code1 validation_text config input_data
    = process uuid4 code2 validation_text config input_data
    /\ forall d,
         data (process uuid4 code1 validation_text config input_data)
         = Some d ->
         (content_type d = "markdown" \/ content_type d = "text")
         /\ data_language d = None.
Proof.
  intros uuid4 code1 code2 vt config input Hsrc.
  destruct (process_body_plain uuid4 code1 config input Hsrc) as [Ht H1].
  destruct (process_body_plain uuid4 code2 config input Hsrc) as [_ H2].
  unfold process. rewrite H1, H2. split; [reflexivity|].
  intros d. destruct (is_empty _); [discriminate|].
  unfold bind.
  match goal with
  | |- context [(if ?b then ?x else ?y) 0%nat] =>
      destruct ((if b then x else y) 0%nat) as [[l n1]|e]
  end; [|discriminate].
  destruct (_validate_chunks uuid4 config l n1) as [[v n2]|e];
    [|discriminate].
  unfold ret. simpl. intros [= <-]. simpl. split; [exact Ht|reflexivity].
Qed.

Lemma process_code_strategy_scope_witness :
  process sample_uuid4 no_code_strategy "" small_config
    (text_input "def f(x): pass")
  = process sample_uuid4 (fun _ _ _ _ => raise (OtherError "code"))
      "" small_config (text_input "def f(x): pass").
Proof.
  apply (process_code_strategy_scope sample_uuid4 no_code_strategy
           (fun _ _ _ _ => raise (OtherError "code")) "" small_config
           (text_input "def f(x): pass")).
  reflexivity.
Defined.

(** A content that is not empty but blank is chunked with success into
    no chunk at all, with or without a document id, for every source
    type but [github], [branch] and [web]. *)
Theorem process_blank_content :
  forall (uuid4 : nat -> string)
         (_chunk_code : string -> option string -> option string ->
                        gmap string value -> M (list ChunkedDocument))
         (validation_text : string) (config : ChunkingAgentConfig)
         (input_data : InputData) (text : string),
    in_content input_data = Some text ->
    text <> "" ->
    is_empty (strip text) = true ->
    repository_source (in_source_type input_data) = false ->
    in_source_type input_data <> Some "web" ->
    process uuid4 _chunk_code validation_text config input_data
    = {| success := true;
         data := Some {| chunks := [];
                         total_chunks := 0;
                         content_type := "text";
                         data_language := None;
                         data_strategy :=
                           strategy_value (chunking_strategy config);
                         data_chunk_size := chunk_size config;
                         data_chunk_overlap := chunk_overlap config |};
         error_message := None |}.
Proof.
  intros uuid4 cc vt config input text Hc Hne Hblank Hsrc Hweb.
  destruct (process_body_plain uuid4 cc config input Hsrc) as [_ Hbody].
  unfold process. rewrite Hbody, Hc. simpl get_default.
  destruct text as [|c text]; [contradiction|]. cbn [is_empty].
  assert (Htype : _detect_content_type (String c text)
                    (get_default (in_source_type input) "text") = "text").
  { unfold _detect_content_type.
    rewrite (source_type_plain _ Hsrc).
    destruct (in_source_type input) as [s|]; [|reflexivity]. simpl.
    destruct (String.eqb_spec s "web") as [->|_]; [|reflexivity].
    contradiction. }
  rewrite Htype. cbn [String.eqb Ascii.eqb Bool.eqb].
  unfold bind.
  rewrite (chunk_text_blank uuid4 config (String c text) _ _ 0 Hblank).
  reflexivity.
Qed.

Lemma process_blank_content_witness :
  process sample_uuid4 no_code_strategy "" small_config
    {| in_document_id := None; in_content := Some "  ";
       in_source_type := None; in_metadata := None |}
  = {| success := true;
       data := Some {| chunks := [];
                       total_chunks := 0;
                       content_type := "text";
                       data_language := None;
                       data_strategy := "hybrid";
                       data_chunk_size := 2;
                       data_chunk_overlap := 0 |};
       error_message := None |}.
Proof.
  apply (process_blank_content sample_uuid4 no_code_strategy ""
           small_config
           {| in_document_id := None; in_content := Some "  ";
              in_source_type := None; in_metadata := None |} "  ").
  - reflexivity.
  - discriminate.
  - reflexivity.
  - reflexivity.
  - discriminate.
Defined.

(** ** [process] with and without a document id *)

(** With a document id and a content that is not empty, [process]
    succeeds for every source type but [github] and [branch], unless
    [chunk_size] is 0: the text and the markdown strategy and the
    validation pass never raise then. The result counts the chunks it
    holds. *)
Theorem process_succeeds :
  forall (uuid4 : nat -> string)
         (_chunk_code : string -> option string -> option string ->
                        gmap string value -> M (list ChunkedDocument))
         (validation_text : string) (config : ChunkingAgentConfig)
         (input_data : InputData) (d text : string),
    in_document_id input_data = Some d ->
    in_content input_data = Some text ->
    text <> "" ->
    repository_source (in_source_type input_data) = false ->
    chunk_size config <> 0 ->
    exists dt,
      process uuid4 _chunk_code validation_text config input_data
      = {| success := true; data := Some dt; error_message := None |}
      /\ total_chunks dt = length (chunks dt)
      /\ data_language dt = None
      /\ (content_type dt = "markdown" \/ content_type dt = "text").
Proof.
  intros uuid4 cc vt config input d text Hd Hc Hne Hsrc Hcs.
  destruct (process_body_plain uuid4 cc config input Hsrc) as [Ht Hbody].
  unfold process. rewrite Hbody, Hc, Hd in *. simpl get_default in *.
  destruct text as [|c text]; [contradiction|]. cbn [is_empty].
  set (type := _detect_content_type (String c text)
                 (get_default (in_source_type input) "text")) in *.
  assert (Hl : exists l n1,
             (if String.eqb type "markdown"
              then _chunk_markdown uuid4 (String c text) (Some d)
                     (get_default (in_metadata input) ∅)
              else _chunk_text uuid4 config (String c text) (Some d)
                     (get_default (in_metadata input) ∅)) 0%nat
             = Ok (l, n1)).
  { destruct (String.eqb type "markdown").
    - destruct (chunk_markdown_some uuid4 (String c text) d
                  (get_default (in_metadata input) ∅) 0)
        as (l & g & H & _).
      eauto.
    - destruct (chunk_text_some uuid4 config (String c text) d
                  (get_default (in_metadata input) ∅) 0)
        as (l & H & _).
      eauto. }
  destruct Hl as (l & n1 & Hl).
  destruct (validate_chunks_total uuid4 config l n1 Hcs) as (v & n2 & Hv).
  unfold bind. rewrite Hl, Hv. unfold ret.
  eexists. split; [reflexivity|]. simpl.
  split; [reflexivity|]. split; [reflexivity|exact Ht].
Qed.

Lemma process_succeeds_witness :
  exists dt,
    process sample_uuid4 no_code_strategy "" small_config
      (text_input "a b c d e")
    = {| success := true; data := Some dt; error_message := None |}
    /\ total_chunks dt = length (chunks dt)
    /\ data_language dt = None
    /\ (content_type dt = "markdown" \/ content_type dt = "text").
Proof.
  apply (process_succeeds sample_uuid4 no_code_strategy "" small_config
           (text_input "a b c d e") "doc-1" "a b c d e").
  - reflexivity.
  - reflexivity.
  - discriminate.
  - reflexivity.
  - discriminate.
Defined.

Section NoDocument.

Variable uuid4 : nat -> string.
Variable config : ChunkingAgentConfig.
Variable meta : gmap string value.

Lemma sentences_none (sentences : list string) :
  forall (st : text_state) (n : nat),
    foldM (sentence_step uuid4 config None meta) sentences st n
    = Raise ValidationError
    \/ exists st',
         foldM (sentence_step uuid4 config None meta) sentences st n
         = Ok (st', n)
         /\ tx_chunks st' = tx_chunks st /\ tx_index st' = tx_index st.
Proof.
  induction sentences as [|s sentences IH]; intros st n.
  - right. exists st. split; [reflexivity|]. split; reflexivity.
  - assert (Hstep : sentence_step uuid4 config None meta st s n
                    = Raise ValidationError
                    \/ exists st1,
                         sentence_step uuid4 config None meta st s n
                         = Ok (st1, n)
                         /\ tx_chunks st1 = tx_chunks st
                         /\ tx_index st1 = tx_index st).
    { unfold sentence_step. destruct (_ && _); [left; reflexivity|].
      right. eexists. split; [reflexivity|]. split; reflexivity. }
    cbn [foldM]. unfold bind.
    destruct Hstep as [Hs|(st1 & Hs & H1 & H2)]; rewrite Hs.
    + left. reflexivity.
    + destruct (IH st1 n) as [H|(st' & H & H3 & H4)].
      * left. exact H.
      * right. exists st'. split; [exact H|].
        split; [rewrite H3; exact H1|rewrite H4; exact H2].
Qed.

Lemma paragraph_step_none (acc : list ChunkedDocument * Z)
    (paragraph : string) (n : nat) :
  paragraph_step uuid4 config None meta acc paragraph n
  = Raise ValidationError
  \/ paragraph_step uuid4 config None meta acc paragraph n = Ok (acc, n).
Proof.
  unfold paragraph_step.
  destruct (is_empty (strip paragraph)); [right; reflexivity|].
  destruct (_ <? _); [|left; reflexivity].
  unfold bind.
  match goal with
  | |- context [foldM _ ?l ?st n] =>
      destruct (sentences_none l st n) as [H|(st' & H & H1 & H2)]
  end.
  - left. rewrite H. reflexivity.
  - rewrite H. destruct (tx_current st').
    + right. cbn [is_nil]. unfold ret. simpl in H1, H2.
      rewrite H1, H2. destruct acc. reflexivity.
    + left. reflexivity.
Qed.

Lemma paragraphs_none (paragraphs : list string) :
  forall (acc : list ChunkedDocument * Z) (n : nat),
    foldM (paragraph_step uuid4 config None meta) paragraphs acc n
    = Raise ValidationError
    \/ foldM (paragraph_step uuid4 config None meta) paragraphs acc n
       = Ok (acc, n).
Proof.
  induction paragraphs as [|p paragraphs IH]; intros acc n.
  - right. reflexivity.
  - cbn [foldM]. unfold bind.
    destruct (paragraph_step_none acc p n) as [H|H]; rewrite H.
    + left. reflexivity.
    + apply IH.
Qed.

Lemma chunk_text_none (text : string) (n : nat) :
  _chunk_text uuid4 config text None meta n = Raise ValidationError
  \/ _chunk_text uuid4 config text None meta n = Ok ([], n).
Proof.
  unfold _chunk_text, bind.
  destruct (paragraphs_none (split_blank 0 text) ([], 0) n) as [H|H];
    rewrite H; [left|right]; reflexivity.
Qed.

End NoDocument.

(** Without a document id [process] returns no chunk, for every source
    type but [github] and [branch]: it fails, for want of content or with
    the validation error of the first chunk it builds, or it succeeds
    with no chunk at all, on a content taken for text. A content taken
    for markdown always fails. *)
Theorem process_without_document_id :
  forall (uuid4 : nat -> string)
         (_chunk_code : string -> option string -> option string ->
                        gmap string value -> M (list ChunkedDocument))
         (validation_text : string) (config : ChunkingAgentConfig)
         (input_data : InputData),
    in_document_id input_data = None ->
    repository_source (in_source_type input_data) = false ->
    let r := process uuid4 _chunk_code validation_text config input_data in
    r = {| success := false; data := None;
           error_message := Some "No content provided for chunking" |}
    \/ r = {| success := false; data := None;
              error_message := Some validation_text |}
    \/ exists dt,
         r = {| success := true; data := Some dt; error_message := None |}
         /\ chunks dt = [] /\ total_chunks dt = 0%nat
         /\ content_type dt = "text".
Proof.
  intros uuid4 cc vt config input Hd Hsrc r. subst r.
  destruct (process_body_plain uuid4 cc config input Hsrc) as [Ht Hbody].
  unfold process. rewrite Hbody, Hd.
  destruct (is_empty _); [left; reflexivity|right].
  set (text := get_default (in_content input) "") in *.
  set (type := _detect_content_type text
                 (get_default (in_source_type input) "text")) in *.
  unfold bind. destruct Ht as [Ht|Ht].
  - replace (String.eqb type "markdown") with true
      by (rewrite Ht; reflexivity).
    rewrite chunk_markdown_none. left. reflexivity.
  - replace (String.eqb type "markdown") with false
      by (rewrite Ht; reflexivity).
    destruct (chunk_text_none uuid4 config
                (get_default (in_metadata input) ∅) text 0) as [H|H];
      rewrite H.
    + left. reflexivity.
    + right. eexists. split; [reflexivity|]. simpl.
      split; [reflexivity|]. split; [reflexivity|exact Ht].
Qed.

Lemma process_without_document_id_witness :
  let r := process sample_uuid4 no_code_strategy "validation error"
             small_config
             {| in_document_id := None; in_content := Some "a b";
                in_source_type := None; in_metadata := None |} in
  r = {| success := false; data := None;
         error_message := Some "No content provided for chunking" |}
  \/ r = {| success := false; data := None;
            error_message := Some "validation error" |}
  \/ exists dt,
       r = {| success := true; data := Some dt; error_message := None |}
       /\ chunks dt = [] /\ total_chunks dt = 0%nat
       /\ content_type dt = "text".
Proof.
  apply (process_without_document_id sample_uuid4 no_code_strategy
           "validation error" small_config
           {| in_document_id := None; in_content := Some "a b";
              in_source_type := None; in_metadata := None |}).
  - reflexivity.
  - reflexivity.
Defined.

End ChunkerFacts.
